(** * The BadgerDB buffer manager (src/buffer.cpp): a shallow embedding

    The buffer manager keeps a fixed pool of page frames, a descriptor per
    frame, a hash index from (file, page number) to frame number and a clock
    hand.  Every member function of [BufMgr] is embedded as a function from
    states to a state and an outcome; a thrown exception keeps the state as
    it was at the [throw]. *)

From stdpp Require Import gmap list.

(** ** Data *)

(** [File*] arguments are non-null object addresses, page numbers are
    [PageId] and frame numbers are [FrameId]; the three are naturals here.
    [FrameId] is a 32-bit unsigned in the source: every frame number the
    manager stores is below [numBufs], so no increment wraps. *)
Abbreviation File := nat (only parsing).
Abbreviation PageId := nat (only parsing).
Abbreviation FrameId := nat (only parsing).

(** Modelled from the spec: the [Page] of the file collaborator, opaque
    content that carries its own page number ([page_number()]). *)
Record Page := mkPage { page_number : PageId; page_data : list nat }.

#[global] Instance Page_eq_dec : EqDecision Page.
Proof. solve_decision. Defined.

(** Modelled from the spec: the frame descriptor [BufDesc] of buffer.h, which
    is not part of the sources.  Section 3 of the specification lists its
    fields: the pin count is an unsigned integer, [file] and [pageNo] are
    optional and absent in an empty frame ([file] is the null pointer
    there). *)
Record BufDesc := mkBufDesc {
  frameNo : FrameId;
  valid : bool;
  dirty : bool;
  refbit : bool;
  pinCnt : nat;
  file : option File;
  pageNo : option PageId
}.

#[global] Instance BufDesc_eq_dec : EqDecision BufDesc.
Proof. solve_decision. Defined.

(** Modelled from the spec: [BufDesc::Clear] of buffer.h, "clear the
    descriptor to empty".  The frame number is the slot's position and
    stays. *)
Definition Clear (d : BufDesc) : BufDesc :=
  {| frameNo := frameNo d; valid := false; dirty := false; refbit := false;
     pinCnt := 0; file := None; pageNo := None |}.

(** Modelled from the spec: [BufDesc::Set] of buffer.h, which initialises the
    descriptor of a freshly loaded page: valid, clean, unreferenced, one
    pin, owner and page number set. *)
Definition Set_ (d : BufDesc) (f : File) (p : PageId) : BufDesc :=
  {| frameNo := frameNo d; valid := true; dirty := false; refbit := false;
     pinCnt := 1; file := Some f; pageNo := Some p |}.

(** Modelled from the spec: a default-constructed [BufDesc], as
    [new BufDesc[bufs]] makes them: an empty descriptor. *)
Definition BufDesc_new : BufDesc :=
  {| frameNo := 0; valid := false; dirty := false; refbit := false;
     pinCnt := 0; file := None; pageNo := None |}.

(** Modelled from the spec: a default-constructed [Page], as
    [new Page[bufs]] makes them; its content is never looked at. *)
Definition Page_new : Page := mkPage 0 [].

Definition with_frameNo (i : FrameId) (d : BufDesc) : BufDesc :=
  {| frameNo := i; valid := valid d; dirty := dirty d; refbit := refbit d;
     pinCnt := pinCnt d; file := file d; pageNo := pageNo d |}.

Definition with_valid (b : bool) (d : BufDesc) : BufDesc :=
  {| frameNo := frameNo d; valid := b; dirty := dirty d; refbit := refbit d;
     pinCnt := pinCnt d; file := file d; pageNo := pageNo d |}.

Definition with_refbit (b : bool) (d : BufDesc) : BufDesc :=
  {| frameNo := frameNo d; valid := valid d; dirty := dirty d; refbit := b;
     pinCnt := pinCnt d; file := file d; pageNo := pageNo d |}.

Definition with_pinCnt (n : nat) (d : BufDesc) : BufDesc :=
  {| frameNo := frameNo d; valid := valid d; dirty := dirty d;
     refbit := refbit d; pinCnt := n; file := file d; pageNo := pageNo d |}.

Definition with_dirty (b : bool) (d : BufDesc) : BufDesc :=
  {| frameNo := frameNo d; valid := valid d; dirty := b; refbit := refbit d;
     pinCnt := pinCnt d; file := file d; pageNo := pageNo d |}.

(** The exceptions named by the includes of buffer.cpp, and the two the
    collaborators raise. *)
Inductive Exception :=
  | BufferExceededException
  | PageNotPinnedException
  | PagePinnedException
  | BadBufferException
  | HashNotFoundException
  | HashAlreadyPresentException
  | InvalidPageException.

#[global] Instance Exception_eq_dec : EqDecision Exception.
Proof. solve_decision. Defined.

(** Calls received by the file collaborator, oldest first. *)
Inductive IOEvent :=
  | EvRead (f : File) (p : PageId)
  | EvWrite (f : File) (pg : Page)
  | EvAllocate (f : File) (p : PageId)
  | EvDelete (f : File) (p : PageId).

#[global] Instance IOEvent_eq_dec : EqDecision IOEvent.
Proof. solve_decision. Defined.

(** The manager's members ([numBufs], [bufDescTable], [bufPool],
    [hashTable], [clockHand]) together with the world it talks to: the pages
    the files hold on [disk] and the trace [io] of collaborator calls.  The
    file-scope scratch variable [fid] of the source is written before every
    use within one call, so it is a local value here. *)
Record State := mkState {
  numBufs : nat;
  bufDescTable : list BufDesc;
  bufPool : list Page;
  hashTable : gmap (nat * nat) nat;
  clockHand : FrameId;
  disk : gmap (nat * nat) Page;
  io : list IOEvent
}.

Definition set_bufDescTable (t : list BufDesc) (s : State) : State :=
  {| numBufs := numBufs s; bufDescTable := t; bufPool := bufPool s;
     hashTable := hashTable s; clockHand := clockHand s; disk := disk s;
     io := io s |}.

Definition set_bufPool (pl : list Page) (s : State) : State :=
  {| numBufs := numBufs s; bufDescTable := bufDescTable s; bufPool := pl;
     hashTable := hashTable s; clockHand := clockHand s; disk := disk s;
     io := io s |}.

Definition set_hashTable (h : gmap (nat * nat) nat) (s : State) : State :=
  {| numBufs := numBufs s; bufDescTable := bufDescTable s;
     bufPool := bufPool s; hashTable := h; clockHand := clockHand s;
     disk := disk s; io := io s |}.

Definition set_clockHand (c : FrameId) (s : State) : State :=
  {| numBufs := numBufs s; bufDescTable := bufDescTable s;
     bufPool := bufPool s; hashTable := hashTable s; clockHand := c;
     disk := disk s; io := io s |}.

Definition set_world (dk : gmap (nat * nat) Page) (tr : list IOEvent)
    (s : State) : State :=
  {| numBufs := numBufs s; bufDescTable := bufDescTable s;
     bufPool := bufPool s; hashTable := hashTable s;
     clockHand := clockHand s; disk := dk; io := tr |}.

(** [bufDescTable[i] = d] *)
Definition set_desc (i : FrameId) (d : BufDesc) (s : State) : State :=
  set_bufDescTable (<[i := d]> (bufDescTable s)) s.

(** ** Outcomes *)

(** A call returns normally, throws, or leaves the defined behaviour of the
    program (an array index out of range, a sweep that exhausts its fuel);
    the last never happens from a well-formed state. *)
Inductive result (A : Type) :=
  | Ok (a : A)
  | Throw (e : Exception)
  | Abort.
Arguments Ok {A} a.
Arguments Throw {A} e.
Arguments Abort {A}.

Definition M (A : Type) : Type := State → State * result A.

Definition ret {A} (a : A) : M A := λ s, (s, Ok a).
Definition throw {A} (e : Exception) : M A := λ s, (s, Throw e).
Definition abort {A} : M A := λ s, (s, Abort).

Definition bind {A B} (m : M A) (k : A → M B) : M B := λ s,
  match m s with
  | (s', Ok a) => k a s'
  | (s', Throw e) => (s', Throw e)
  | (s', Abort) => (s', Abort)
  end.

Notation "'do' x <- m ';;' k" := (bind m (λ x, k))
  (at level 10, x name, m at level 99, k at level 200).
Notation "'do_' m ';;' k" := (bind m (λ _, k))
  (at level 10, m at level 99, k at level 200).

(** ** The collaborators *)

(** The slot index [BufHashTbl] is not part of the sources; section 6 of
    the specification gives its interface.  [None] stands for its
    exception. *)

(** Modelled from the spec: [BufHashTbl::lookup], which fails with
    [HashNotFoundException] on an absent identity. *)
Definition ht_lookup (f : File) (p : PageId) (h : gmap (nat * nat) nat)
    : option FrameId := h !! (f, p).

(** Modelled from the spec: [BufHashTbl::insert], which fails when the
    identity is present already. *)
Definition ht_insert (f : File) (p : PageId) (i : FrameId)
    (h : gmap (nat * nat) nat) : option (gmap (nat * nat) nat) :=
  match h !! (f, p) with
  | Some _ => None
  | None => Some (<[(f, p) := i]> h)
  end.

(** Modelled from the spec: [BufHashTbl::remove], which fails with
    [HashNotFoundException] on an absent identity. *)
Definition ht_remove (f : File) (p : PageId) (h : gmap (nat * nat) nat)
    : option (gmap (nat * nat) nat) :=
  match h !! (f, p) with
  | Some _ => Some (delete (f, p) h)
  | None => None
  end.

(** [hashTable->insert(file, pageNo, frame)] *)
Definition hashTable_insert (f : File) (p : PageId) (i : FrameId) : M unit :=
  λ s, match ht_insert f p i (hashTable s) with
       | Some h => (set_hashTable h s, Ok tt)
       | None => (s, Throw HashAlreadyPresentException)
       end.

(** [hashTable->remove(file, pageNo)] with the descriptor's own fields: an
    empty descriptor names no identity the index could hold. *)
Definition hashTable_remove (f : option File) (p : option PageId) : M unit :=
  λ s, match f, p with
       | Some f, Some p =>
           match ht_remove f p (hashTable s) with
           | Some h => (set_hashTable h s, Ok tt)
           | None => (s, Throw HashNotFoundException)
           end
       | _, _ => (s, Throw HashNotFoundException)
       end.

Definition log (e : IOEvent) (s : State) : State :=
  set_world (disk s) (io s ++ [e]) s.

(** The file collaborator [File] is not part of the sources; section 6 of
    the specification gives its interface.  Every call is appended to the
    trace. *)

(** Modelled from the spec: [File::readPage], which fails when the page
    does not exist. *)
Definition file_readPage (f : File) (p : PageId) : M Page := λ s,
  match disk s !! (f, p) with
  | Some pg => (log (EvRead f p) s, Ok pg)
  | None => (log (EvRead f p) s, Throw InvalidPageException)
  end.

(** Modelled from the spec: [File::writePage], which stores a page under the
    page's own number. *)
Definition file_writePage (f : File) (pg : Page) : M unit := λ s,
  (set_world (<[(f, page_number pg) := pg]> (disk s)) (io s ++ [EvWrite f pg]) s,
   Ok tt).

(** Modelled from the spec: the "freshly assigned page number" of
    [File::allocatePage], here the successor of the largest the file holds. *)
Definition fresh_page (f : File) (dk : gmap (nat * nat) Page) : PageId :=
  S (map_fold (λ k _ acc, if decide (k.1 = f) then k.2 `max` acc else acc) 0 dk).

(** Modelled from the spec: [File::allocatePage], which creates and returns
    a new page. *)
Definition file_allocatePage (f : File) : M Page := λ s,
  let n := fresh_page f (disk s) in
  let pg := mkPage n [] in
  (set_world (<[(f, n) := pg]> (disk s)) (io s ++ [EvAllocate f n]) s, Ok pg).

(** Modelled from the spec: [File::deletePage], which removes a page. *)
Definition file_deletePage (f : File) (p : PageId) : M unit := λ s,
  (set_world (delete (f, p) (disk s)) (io s ++ [EvDelete f p]) s, Ok tt).

(** ** The buffer manager *)

(** [BufMgr::BufMgr(bufs)], over a world whose files hold the pages [dk]:
    descriptor [i] gets frame number [i] and [valid = false], the pool holds
    default pages, the index is empty and the hand is on the last frame.
    (For [bufs = 0] the source's [bufs - 1] wraps and every later
    [% numBufs] divides by zero; well-formed states have [0 < numBufs].) *)
Definition BufMgr_new (bufs : nat) (dk : gmap (nat * nat) Page) : State :=
  {| numBufs := bufs;
     bufDescTable := (λ i, with_valid false (with_frameNo i BufDesc_new))
                       <$> seq 0 bufs;
     bufPool := replicate bufs Page_new;
     hashTable := ∅;
     clockHand := bufs - 1;
     disk := dk;
     io := [] |}.

(** [bufDescTable[i]] and [bufPool[i]]: reading outside the arrays is
    undefined in the source. *)
Definition desc_at (i : FrameId) : M BufDesc := λ s,
  match bufDescTable s !! i with
  | Some d => (s, Ok d)
  | None => (s, Abort)
  end.

Definition page_at (i : FrameId) : M Page := λ s,
  match bufPool s !! i with
  | Some pg => (s, Ok pg)
  | None => (s, Abort)
  end.

(** [bufPool[i] = pg] *)
Definition set_page (i : FrameId) (pg : Page) : M unit := λ s,
  (set_bufPool (<[i := pg]> (bufPool s)) s, Ok tt).

Definition put_desc (i : FrameId) (d : BufDesc) : M unit := λ s,
  (set_desc i d s, Ok tt).

(** [BufMgr::advanceClock]: [clockHand++; clockHand = clockHand % numBufs]. *)
Definition advanceClock (s : State) : State :=
  set_clockHand ((clockHand s + 1) `mod` numBufs s) s.

Definition get_clockHand : M FrameId := λ s, (s, Ok (clockHand s)).
Definition get_numBufs : M nat := λ s, (s, Ok (numBufs s)).

(** [p->writePage(pg)] through the descriptor's [file] pointer, null in an
    empty descriptor. *)
Definition writePage_via (f : option File) (pg : Page) : M unit :=
  match f with
  | Some f => file_writePage f pg
  | None => abort
  end.

(** The victim branch of [allocBuf] (lines 117-126): drop the mapping, write
    a dirty page out or else clear the descriptor, and hand out the frame. *)
Definition evict (d : BufDesc) : M FrameId :=
  do_ hashTable_remove (file d) (pageNo d) ;;
  do hand <- get_clockHand ;;
  do_ (if dirty d
       then do pg <- page_at hand ;; writePage_via (file d) pg
       else put_desc hand (Clear d)) ;;
  ret (frameNo d).

(** The [while (!found)] loop of [allocBuf]; one unit of fuel per visited
    frame. *)
Fixpoint allocBuf_loop (fuel : nat) (starting : FrameId) : M FrameId :=
  match fuel with
  | 0 => abort
  | S fuel' => λ s0,
      let s := advanceClock s0 in
      (do d <- desc_at (clockHand s) ;;
       if valid d then
         if negb (refbit d) then
           if pinCnt d =? 0 then evict d
           else if starting =? clockHand s
                then throw BufferExceededException
                else allocBuf_loop fuel' starting
         else
           do_ put_desc (clockHand s) (with_refbit false d) ;;
           allocBuf_loop fuel' starting
       else ret (frameNo d)) s
  end.

(** [BufMgr::allocBuf]: the sweep, then [bufDescTable[clockHand].Clear()].
    Two revolutions of fuel are enough from every well-formed state
    ([allocBuf_loop_cases]). *)
Definition allocBuf : M FrameId :=
  do n <- get_numBufs ;;
  do starting <- get_clockHand ;;
  do frame <- allocBuf_loop (2 * n) starting ;;
  do hand <- get_clockHand ;;
  do d <- desc_at hand ;;
  do_ put_desc hand (Clear d) ;;
  ret frame.

(** The [for] loop of [disposePage] over frames [i], ..., [i + n - 1]. *)
Fixpoint disposePage_loop (n : nat) (i : FrameId) (f : File) (PageNo : PageId)
    : M unit :=
  match n with
  | 0 => ret tt
  | S n' =>
      do d <- desc_at i ;;
      do_ (if bool_decide (Some f = file d) then
             if bool_decide (Some PageNo = pageNo d) then
               if 0 <? pinCnt d then throw PagePinnedException
               else
                 do_ put_desc i (Clear d) ;;
                 hashTable_remove (Some f) (Some PageNo)
             else ret tt
           else ret tt) ;;
      disposePage_loop n' (S i) f PageNo
  end.

(** [BufMgr::disposePage] *)
Definition disposePage (f : File) (PageNo : PageId) : M unit :=
  do n <- get_numBufs ;;
  do_ disposePage_loop n 0 f PageNo ;;
  file_deletePage f PageNo.

(** [BufMgr::readPage].  The result is the frame whose pool slot the
    returned pointer designates.  A failed [lookup] is the [catch] branch. *)
Definition readPage (f : File) (p : PageId) : M FrameId := λ s,
  match ht_lookup f p (hashTable s) with
  | None =>
      (do fid <- allocBuf ;;
       do tPage <- file_readPage f p ;;
       do_ set_page fid tPage ;;
       do_ hashTable_insert f p fid ;;
       do d <- desc_at fid ;;
       do_ put_desc fid (Set_ d f p) ;;
       ret fid) s
  | Some fid =>
      (do d <- desc_at fid ;;
       do_ put_desc fid (with_pinCnt (pinCnt d + 1) (with_refbit true d)) ;;
       ret fid) s
  end.

(** [BufMgr::unPinPage] *)
Definition unPinPage (f : File) (p : PageId) (dirty_ : bool) : M unit := λ s,
  match ht_lookup f p (hashTable s) with
  | None => (s, Ok tt)
  | Some fid =>
      (do d <- desc_at fid ;;
       if pinCnt d =? 0 then throw PageNotPinnedException
       else
         let d1 := with_pinCnt (pinCnt d - 1) d in
         put_desc fid (if dirty_ then with_dirty true d1 else d1)) s
  end.

(** The [for] loop of [flushFile] over frames [i], ..., [i + n - 1]. *)
Fixpoint flushFile_loop (n : nat) (i : FrameId) (f : File) : M unit :=
  match n with
  | 0 => ret tt
  | S n' =>
      do d <- desc_at i ;;
      do_ (if bool_decide (file d = Some f) then
             if negb (pinCnt d =? 0) then throw PagePinnedException
             else if negb (valid d) then throw BadBufferException
             else
               do_ (if dirty d then
                      do pg <- page_at i ;;
                      do_ writePage_via (file d) pg ;;
                      put_desc i (with_dirty false d)
                    else ret tt) ;;
               do_ hashTable_remove (file d) (pageNo d) ;;
               put_desc i (Clear d)
           else ret tt) ;;
      flushFile_loop n' (S i) f
  end.

(** [BufMgr::flushFile] *)
Definition flushFile (f : File) : M unit :=
  do n <- get_numBufs ;;
  flushFile_loop n 0 f.

(** [BufMgr::allocPage]: the new page number and the frame that holds it. *)
Definition allocPage (f : File) : M (PageId * FrameId) :=
  do newPage <- file_allocatePage f ;;
  do fid <- allocBuf ;;
  do_ set_page fid newPage ;;
  do pg <- page_at fid ;;
  let pageNo_ := page_number pg in
  do_ hashTable_insert f pageNo_ fid ;;
  do d <- desc_at fid ;;
  do_ put_desc fid (Set_ d f pageNo_) ;;
  ret (pageNo_, fid).

(** ** Well-formed states and the index invariant *)

(** The shape the constructor establishes and every operation keeps: a
    non-empty pool, both arrays of [numBufs] entries, the hand inside the
    pool, and descriptor [i] carrying frame number [i]. *)
Definition wf (s : State) : Prop :=
  0 < numBufs s ∧
  length (bufDescTable s) = numBufs s ∧
  length (bufPool s) = numBufs s ∧
  clockHand s < numBufs s ∧
  frameNo <$> bufDescTable s = seq 0 (numBufs s).

#[global] Instance wf_dec s : Decision (wf s).
Proof. unfold wf. apply _. Defined.

(** Frame [i] is valid and holds the page identity [k]. *)
Definition slot_holds (t : list BufDesc) (k : nat * nat) (i : FrameId) : Prop :=
  match t !! i with
  | Some d => valid d = true ∧ file d = Some k.1 ∧ pageNo d = Some k.2
  | None => False
  end.

#[global] Instance slot_holds_dec t k i : Decision (slot_holds t k i).
Proof. unfold slot_holds. destruct (t !! i); apply _. Defined.

(** A valid descriptor is registered in the index under its identity and
    frame number; an invalid one is empty. *)
Definition desc_ok (h : gmap (nat * nat) nat) (d : BufDesc) : Prop :=
  if valid d then
    match file d, pageNo d with
    | Some f, Some p => h !! (f, p) = Some (frameNo d)
    | _, _ => False
    end
  else d = Clear d.

#[global] Instance desc_ok_dec h d : Decision (desc_ok h d).
Proof.
  unfold desc_ok. destruct (valid d); [|apply _].
  destruct (file d), (pageNo d); apply _.
Defined.

(** The index is the exact inverse of the valid frames: every entry points
    at a valid frame with that identity, and every valid frame has its
    entry; invalid frames are empty. *)
Definition Inv (s : State) : Prop :=
  map_Forall (slot_holds (bufDescTable s)) (hashTable s) ∧
  Forall (desc_ok (hashTable s)) (bufDescTable s).

#[global] Instance Inv_dec s : Decision (Inv s).
Proof. unfold Inv. apply _. Defined.

(** No two valid frames hold the same page. *)
Definition unique_pages (s : State) : Prop :=
  ∀ i j di dj,
    bufDescTable s !! i = Some di → bufDescTable s !! j = Some dj →
    valid di = true → valid dj = true →
    file di = file dj → pageNo di = pageNo dj → i = j.

(** The index maps exactly the identities of the valid frames to their
    frame numbers. *)
Definition index_exact (s : State) : Prop :=
  ∀ f p i,
    hashTable s !! (f, p) = Some i ↔
    ∃ d, bufDescTable s !! i = Some d ∧ valid d = true ∧
         file d = Some f ∧ pageNo d = Some p.

(** ** The clock sweep, frame by frame *)

(** A frame the sweep stops at: empty, or valid, unreferenced and
    unpinned. *)
Definition usable (d : BufDesc) : bool :=
  negb (valid d) || (negb (refbit d) && (pinCnt d =? 0)).

(** What the sweep does at a usable frame. *)
Definition finish (d : BufDesc) : M FrameId :=
  if valid d then evict d else ret (frameNo d).

(** A visit that moves on: the hand advances and the visited frame's
    reference bit ends up clear. *)
Definition skip_step (s : State) : State :=
  let s1 := advanceClock s in
  match bufDescTable s1 !! clockHand s1 with
  | Some d => set_desc (clockHand s1) (with_refbit false d) s1
  | None => s1
  end.

(** The frame under the hand after [j] advances. *)
Definition pos (s : State) (j : nat) : FrameId :=
  (clockHand s + j) `mod` numBufs s.

(** The states from which the sweep gives up: every frame is valid and
    referenced or pinned, and the frame under the hand at the start is
    unreferenced, or else every frame is pinned. *)
Definition exhausted (s : State) : Prop :=
  Forall (λ d, valid d = true ∧ (refbit d = true ∨ 0 < pinCnt d))
         (bufDescTable s) ∧
  ((∃ d, bufDescTable s !! clockHand s = Some d ∧ refbit d = false) ∨
   Forall (λ d, 0 < pinCnt d) (bufDescTable s)).

(** [t'] is [t] with some reference bits cleared and nothing else
    changed. *)
Definition refs_cleared (t t' : list BufDesc) : Prop :=
  length t' = length t ∧
  ∀ i d, t !! i = Some d →
    t' !! i = Some d ∨ t' !! i = Some (with_refbit false d).

(** ** Flushing, slot by slot *)

(** The state after [flushFile] has dealt with the valid, unpinned frame [i]
    of file [f]: its page [pg] written out when dirty, its entry removed, its
    descriptor emptied. *)
Definition flush_slot (i : FrameId) (d : BufDesc) (f : File) (p : PageId)
    (pg : Page) (s : State) : State :=
  set_desc i (Clear d)
    (set_hashTable (delete (f, p) (hashTable s))
       (if dirty d
        then set_world (<[(f, page_number pg) := pg]> (disk s))
                       (io s ++ [EvWrite f pg]) s
        else s)).

(** The [writePage] calls a flush of [f] makes for frames [i], ...,
    [i + n - 1] of the arrays [t] and [pl]: one per dirty frame of [f], in
    frame order, with the frame's page. *)
Fixpoint flush_writes (n : nat) (i : FrameId) (f : File) (t : list BufDesc)
    (pl : list Page) : list IOEvent :=
  match n with
  | 0 => []
  | S n' =>
      match t !! i, pl !! i with
      | Some d, Some pg =>
          if bool_decide (file d = Some f) && dirty d
          then [EvWrite f pg] else []
      | _, _ => []
      end ++ flush_writes n' (S i) f t pl
  end.

(** ** Sequences of calls *)

(** The state a call leaves, whether it returned or threw. *)
Definition run {A} (m : M A) (s : State) : State := (m s).1.

(** The public operations. *)
Inductive Op :=
  | OpRead (f : File) (p : PageId)
  | OpUnPin (f : File) (p : PageId) (dirty_ : bool)
  | OpAlloc (f : File)
  | OpDispose (f : File) (p : PageId)
  | OpFlush (f : File).

Definition exec (o : Op) (s : State) : State :=
  match o with
  | OpRead f p => run (readPage f p) s
  | OpUnPin f p b => run (unPinPage f p b) s
  | OpAlloc f => run (allocPage f) s
  | OpDispose f p => run (disposePage f p) s
  | OpFlush f => run (flushFile f) s
  end.

(** The state after the calls [ops], first to last. *)
Definition run_ops (ops : list Op) (s : State) : State :=
  foldl (λ s o, exec o s) s ops.

(** ** Scenarios *)

(** File 1 holds pages 1 to 4. *)
Definition disk0 : gmap (nat * nat) Page :=
  list_to_map [((1, 1), mkPage 1 [11]); ((1, 2), mkPage 2 [12]);
               ((1, 3), mkPage 3 [13]); ((1, 4), mkPage 4 [14])].

(** Three frames, each pinned by a fetch. *)
Definition pool3_pinned : State :=
  run (readPage 1 3) (run (readPage 1 2) (run (readPage 1 1)
    (BufMgr_new 3 disk0))).

(** Two valid, unpinned frames with the hand on the second: frame 0 (page 1)
    is referenced, frame 1 (page 2) is not. *)
Definition second_chance_pool : State :=
  run (unPinPage 1 2 false) (run (unPinPage 1 1 false)
    (run (unPinPage 1 1 false) (run (readPage 1 1) (run (readPage 1 2)
      (run (readPage 1 1) (BufMgr_new 2 disk0)))))).

(** One frame holding page 1, unpinned: clean, dirty, or referenced. *)
Definition one_clean : State :=
  run (unPinPage 1 1 false) (run (readPage 1 1) (BufMgr_new 1 disk0)).

Definition one_dirty : State :=
  run (unPinPage 1 1 true) (run (readPage 1 1) (BufMgr_new 1 disk0)).

Definition one_referenced : State :=
  run (unPinPage 1 1 false) (run (unPinPage 1 1 false)
    (run (readPage 1 1) (run (readPage 1 1) (BufMgr_new 1 disk0)))).

(** One frame that names file 1 as its owner without being valid. *)
Definition one_stale : State :=
  set_desc 0 (mkBufDesc 0 false false false 0 (Some 1) (Some 1))
    (BufMgr_new 1 disk0).

(** ** The destructor and the dump *)

(** [flushFile(file)] for a pointer that may be null: the destructor passes
    the descriptor's own [file].  The loop is that of [flushFile]. *)
Fixpoint flushFile_ptr_loop (n : nat) (i : FrameId) (fo : option File)
    : M unit :=
  match n with
  | 0 => ret tt
  | S n' =>
      do d <- desc_at i ;;
      do_ (if bool_decide (file d = fo) then
             if negb (pinCnt d =? 0) then throw PagePinnedException
             else if negb (valid d) then throw BadBufferException
             else
               do_ (if dirty d then
                      do pg <- page_at i ;;
                      do_ writePage_via (file d) pg ;;
                      put_desc i (with_dirty false d)
                    else ret tt) ;;
               do_ hashTable_remove (file d) (pageNo d) ;;
               put_desc i (Clear d)
           else ret tt) ;;
      flushFile_ptr_loop n' (S i) fo
  end.

Definition flushFile_ptr (fo : option File) : M unit :=
  do n <- get_numBufs ;;
  flushFile_ptr_loop n 0 fo.

(** The [for] loop of [BufMgr::~BufMgr] over frames [i], ..., [i + n - 1]:
    a dirty frame has its file flushed. *)
Fixpoint BufMgr_delete_loop (n : nat) (i : FrameId) : M unit :=
  match n with
  | 0 => ret tt
  | S n' =>
      do d <- desc_at i ;;
      do_ (if dirty d then flushFile_ptr (file d) else ret tt) ;;
      BufMgr_delete_loop n' (S i)
  end.

(** [BufMgr::~BufMgr], up to the release of the arrays: the state is the
    one the loop leaves. *)
Definition BufMgr_delete : M unit :=
  do n <- get_numBufs ;;
  BufMgr_delete_loop n 0.

(** The counting loop of [BufMgr::printSelf]: [validFrames] goes up by one
    for every valid frame.  What the call prints per frame is
    [BufDesc::Print] of buffer.h and is left out. *)
Fixpoint printSelf_loop (n : nat) (i : FrameId) (validFrames : nat) : M nat :=
  match n with
  | 0 => ret validFrames
  | S n' =>
      do tmpbuf <- desc_at i ;;
      printSelf_loop n' (S i)
        (if valid tmpbuf then validFrames + 1 else validFrames)
  end.

(** [BufMgr::printSelf]: the number printed as the total of valid frames. *)
Definition printSelf : M nat :=
  do n <- get_numBufs ;;
  printSelf_loop n 0 0.

(** ** Further properties of states *)

(** The page in the pool slot of a valid frame carries the frame's page
    number. *)
Definition pages_numbered (s : State) : Prop :=
  ∀ i d p pg,
    bufDescTable s !! i = Some d → valid d = true → pageNo d = Some p →
    bufPool s !! i = Some pg → page_number pg = p.

(** Some dirty frame belongs to a file that has a pinned frame. *)
Definition flush_blocked (s : State) : Prop :=
  ∃ j d j' d' fo,
    bufDescTable s !! j = Some d ∧ dirty d = true ∧ file d = fo ∧
    bufDescTable s !! j' = Some d' ∧ file d' = fo ∧ pinCnt d' ≠ 0.


(** ** Further scenarios *)

(** Two valid, unpinned frames, both referenced, with the hand on the
    second: each page was fetched twice and released twice. *)
Definition two_referenced : State :=
  run_ops [OpRead 1 1; OpRead 1 2; OpRead 1 1; OpRead 1 2;
           OpUnPin 1 1 false; OpUnPin 1 1 false;
           OpUnPin 1 2 false; OpUnPin 1 2 false]
    (BufMgr_new 2 disk0).

(** Two valid, unpinned frames with the hand on the second: frame 0
    (page 1) is unreferenced, frame 1 (page 2) is referenced, so the sweep
    meets the unreferenced frame first. *)
Definition second_chance_pool_rev : State :=
  run_ops [OpRead 1 1; OpRead 1 2; OpUnPin 1 1 false; OpUnPin 1 2 false;
           OpRead 1 2; OpUnPin 1 2 false]
    (BufMgr_new 2 disk0).

(** Two frames of file 1: frame 0 (page 1) released dirty, frame 1 (page 2)
    still pinned. *)
Definition first_released : State :=
  run_ops [OpRead 1 1; OpRead 1 2; OpUnPin 1 1 true] (BufMgr_new 2 disk0).
(** ** Basic facts *)

Section basics.
Implicit Types (s : State) (d : BufDesc) (i j : nat).

Lemma wf_frameNo s i d :
  wf s → bufDescTable s !! i = Some d → frameNo d = i.
Proof.
  intros (_ & _ & _ & _ & Hf) Hd.
  assert ((frameNo <$> bufDescTable s) !! i = Some (frameNo d)) as H
    by (by rewrite list_lookup_fmap, Hd).
  rewrite Hf in H. apply lookup_seq in H. lia.
Qed.

Lemma wf_desc s i : wf s → i < numBufs s → is_Some (bufDescTable s !! i).
Proof. intros (_ & Hl & _) Hi. apply lookup_lt_is_Some_2. lia. Qed.

Lemma wf_page s i : wf s → i < numBufs s → is_Some (bufPool s !! i).
Proof. intros (_ & _ & Hl & _) Hi. apply lookup_lt_is_Some_2. lia. Qed.

Lemma wf_desc_lt s i d : wf s → bufDescTable s !! i = Some d → i < numBufs s.
Proof. intros (_ & Hl & _) Hd. apply lookup_lt_Some in Hd. lia. Qed.

Lemma wf_set_desc s i d d' :
  wf s → bufDescTable s !! i = Some d → frameNo d' = frameNo d →
  wf (set_desc i d' s).
Proof.
  intros (Hn & Hl & Hp & Hc & Hf) Hd He. unfold wf; simpl.
  rewrite length_insert, list_fmap_insert, He.
  rewrite list_insert_id; [done|]. by rewrite list_lookup_fmap, Hd.
Qed.

Lemma wf_set_bufPool s i pg :
  wf s → wf (set_bufPool (<[i := pg]> (bufPool s)) s).
Proof.
  intros (Hn & Hl & Hp & Hc & Hf). unfold wf; simpl.
  by rewrite length_insert.
Qed.

Lemma wf_set_hashTable s h : wf s → wf (set_hashTable h s).
Proof. done. Qed.

Lemma wf_set_world s dk tr : wf s → wf (set_world dk tr s).
Proof. done. Qed.

Lemma wf_advanceClock s : wf s → wf (advanceClock s).
Proof.
  intros (Hn & Hl & Hp & Hc & Hf). unfold wf; simpl.
  repeat split; try done. apply Nat.mod_upper_bound. lia.
Qed.

Lemma Inv_sound s f p i :
  Inv s → hashTable s !! (f, p) = Some i →
  ∃ d, bufDescTable s !! i = Some d ∧ valid d = true ∧
       file d = Some f ∧ pageNo d = Some p.
Proof.
  intros [Hs _] Hh. specialize (Hs _ _ Hh). unfold slot_holds in Hs.
  destruct (bufDescTable s !! i) as [d|]; [|done]. by exists d.
Qed.

Lemma Inv_desc s i d :
  Inv s → bufDescTable s !! i = Some d → desc_ok (hashTable s) d.
Proof. intros [_ Hd] Hi. by eapply Forall_lookup_1. Qed.

Lemma Inv_complete s i d :
  wf s → Inv s → bufDescTable s !! i = Some d → valid d = true →
  ∃ f p, file d = Some f ∧ pageNo d = Some p ∧
         hashTable s !! (f, p) = Some i.
Proof.
  intros Hwf HI Hi Hv. pose proof (Inv_desc _ _ _ HI Hi) as Hok.
  unfold desc_ok in Hok. rewrite Hv in Hok.
  destruct (file d) as [f|], (pageNo d) as [p|]; try done.
  exists f, p. by rewrite (wf_frameNo _ _ _ Hwf Hi) in Hok.
Qed.

Lemma Inv_empty s i d :
  Inv s → bufDescTable s !! i = Some d → valid d = false → d = Clear d.
Proof.
  intros HI Hi Hv. pose proof (Inv_desc _ _ _ HI Hi) as Hok.
  unfold desc_ok in Hok. by rewrite Hv in Hok.
Qed.

Lemma Inv_intro s :
  (∀ k i, hashTable s !! k = Some i → slot_holds (bufDescTable s) k i) →
  (∀ i d, bufDescTable s !! i = Some d → desc_ok (hashTable s) d) →
  Inv s.
Proof.
  intros Hs Hd. split; [exact Hs|]. apply Forall_lookup_2. exact Hd.
Qed.

Lemma Inv_ext s s' :
  bufDescTable s' = bufDescTable s → hashTable s' = hashTable s →
  Inv s → Inv s'.
Proof. unfold Inv. by intros -> ->. Qed.

(** The invariant gives the two readings of "exact inverse". *)
Lemma Inv_index_exact s : wf s → Inv s → index_exact s.
Proof.
  intros Hwf HI f p i. split.
  - by apply Inv_sound.
  - intros (d & Hi & Hv & Hf & Hp).
    destruct (Inv_complete _ _ _ Hwf HI Hi Hv) as (f' & p' & ? & ? & ?).
    congruence.
Qed.

Lemma Inv_unique_pages s : wf s → Inv s → unique_pages s.
Proof.
  intros Hwf HI i j di dj Hi Hj Hvi Hvj Hf Hp.
  destruct (Inv_complete _ _ _ Hwf HI Hi Hvi) as (f & p & ? & ? & ?).
  destruct (Inv_complete _ _ _ Hwf HI Hj Hvj) as (f' & p' & ? & ? & ?).
  congruence.
Qed.

(** Changing the reference bit, the pin count or the dirty flag of a valid
    frame keeps the invariant. *)
Lemma Inv_update_valid s i d d' :
  bufDescTable s !! i = Some d → valid d = true → valid d' = true →
  file d' = file d → pageNo d' = pageNo d → frameNo d' = frameNo d →
  Inv s → Inv (set_desc i d' s).
Proof.
  intros Hi Hv Hv' Hf Hp Hn HI. apply Inv_intro; simpl.
  - intros k j Hk. destruct (Inv_sound s k.1 k.2 j HI) as (dj & Hj & ? & ? & ?).
    { by destruct k. }
    unfold slot_holds. destruct (decide (i = j)) as [->|Hne].
    + rewrite list_lookup_insert_eq by (by eapply lookup_lt_Some).
      split_and!; congruence.
    + rewrite list_lookup_insert_ne by done. by rewrite Hj.
  - intros j dj Hj. destruct (decide (i = j)) as [->|Hne].
    + rewrite list_lookup_insert_eq in Hj by (by eapply lookup_lt_Some).
      injection Hj as <-. pose proof (Inv_desc _ _ _ HI Hi) as Hok.
      unfold desc_ok in *. by rewrite Hv', Hf, Hp, Hn, Hv in *.
    + rewrite list_lookup_insert_ne in Hj by done. by eapply Inv_desc.
Qed.

(** Evicting a valid frame: its entry leaves the index and its descriptor
    is emptied. *)
Lemma Inv_evict s i d f p :
  wf s → Inv s → bufDescTable s !! i = Some d → valid d = true →
  file d = Some f → pageNo d = Some p →
  Inv (set_desc i (Clear d) (set_hashTable (delete (f, p) (hashTable s)) s)).
Proof.
  intros Hwf HI Hi Hv Hf Hp.
  destruct (Inv_complete _ _ _ Hwf HI Hi Hv) as (f' & p' & ? & ? & Hh).
  assert (f' = f ∧ p' = p) as [-> ->] by (split; congruence).
  apply Inv_intro; simpl.
  - intros [kf kp] j Hk. apply lookup_delete_Some in Hk as [Hne Hk].
    destruct (Inv_sound s kf kp j HI Hk) as (dj & Hj & ? & ? & ?).
    unfold slot_holds. rewrite list_lookup_insert_ne; [by rewrite Hj|].
    intros ->. apply Hne. congruence.
  - intros j dj Hj. destruct (decide (i = j)) as [->|Hne].
    + rewrite list_lookup_insert_eq in Hj by (by eapply lookup_lt_Some).
      by injection Hj as <-.
    + rewrite list_lookup_insert_ne in Hj by done.
      pose proof (Inv_desc _ _ _ HI Hj) as Hok. unfold desc_ok in *.
      destruct (valid dj) eqn:Hvj; [|done].
      destruct (file dj) as [fj|] eqn:Hfj, (pageNo dj) as [pj|] eqn:Hpj;
        try done.
      rewrite lookup_delete_ne; [done|]. intros [= -> ->].
      rewrite (wf_frameNo _ _ _ Hwf Hj) in Hok. congruence.
Qed.

(** Installing a page in an empty frame under an identity the index does
    not hold. *)
Lemma Inv_install s i d f p :
  wf s → Inv s → bufDescTable s !! i = Some d →
  hashTable s !! (f, p) = None →
  (∀ k, hashTable s !! k ≠ Some i) →
  Inv (set_desc i (Set_ d f p) (set_hashTable (<[(f, p) := i]> (hashTable s)) s)).
Proof.
  intros Hwf HI Hi Hh Hfree. apply Inv_intro; simpl.
  - intros k j Hk. unfold slot_holds.
    apply lookup_insert_Some in Hk as [[<- <-]|[Hne Hk]].
    + by rewrite list_lookup_insert_eq by (by eapply lookup_lt_Some).
    + destruct (Inv_sound s k.1 k.2 j HI) as (dj & Hj & ? & ? & ?).
      { by destruct k. }
      rewrite list_lookup_insert_ne; [by rewrite Hj|].
      intros ->. by apply (Hfree k).
  - intros j dj Hj. destruct (decide (i = j)) as [->|Hne].
    + rewrite list_lookup_insert_eq in Hj by (by eapply lookup_lt_Some).
      injection Hj as <-. unfold desc_ok; simpl.
      rewrite lookup_insert_eq. f_equal. symmetry. by eapply wf_frameNo.
    + rewrite list_lookup_insert_ne in Hj by done.
      pose proof (Inv_desc _ _ _ HI Hj) as Hok. unfold desc_ok in *.
      destruct (valid dj) eqn:Hvj; [|done].
      destruct (file dj) as [fj|] eqn:Hfj, (pageNo dj) as [pj|] eqn:Hpj;
        try done.
      rewrite lookup_insert_ne; [done|]. intros [= -> ->]. congruence.
Qed.

(** No index entry points at an invalid frame. *)
Lemma Inv_invalid_free s i d :
  Inv s → bufDescTable s !! i = Some d → valid d = false →
  ∀ k, hashTable s !! k ≠ Some i.
Proof.
  intros HI Hi Hv [f p] Hk.
  destruct (Inv_sound _ _ _ _ HI Hk) as (d' & ? & ? & _). congruence.
Qed.
End basics.

(** ** The clock sweep *)

Section sweep.
Implicit Types (s : State) (d : BufDesc) (i j k : nat).

Lemma mod_eq_near n a b :
  0 < n → a ≤ b → b < a + n → a `mod` n = b `mod` n → a = b.
Proof.
  intros Hn Hab Hb He.
  pose proof (Nat.div_mod a n ltac:(lia)) as Ha.
  pose proof (Nat.div_mod b n ltac:(lia)) as Hb'.
  pose proof (Nat.mod_upper_bound a n ltac:(lia)).
  rewrite He in Ha.
  assert (a `div` n = b `div` n) by nia. nia.
Qed.

Lemma pos_0 s : wf s → pos s 0 = clockHand s.
Proof.
  intros (? & _ & _ & ? & _). unfold pos.
  rewrite Nat.add_0_r. by apply Nat.mod_small.
Qed.

Lemma pos_n s : wf s → pos s (numBufs s) = clockHand s.
Proof.
  intros (? & _ & _ & ? & _). unfold pos.
  rewrite <- Nat.Div0.add_mod_idemp_r, Nat.Div0.mod_same, Nat.add_0_r.
  by apply Nat.mod_small.
Qed.

Lemma pos_lt s j : wf s → pos s j < numBufs s.
Proof. intros (? & _). apply Nat.mod_upper_bound. lia. Qed.

Lemma pos_inj s j j' :
  wf s → j ≤ j' → j' < j + numBufs s → pos s j = pos s j' → j = j'.
Proof.
  intros (? & _) Hle Hlt He. unfold pos in He.
  apply mod_eq_near in He; lia.
Qed.

Lemma pos_surj s i :
  wf s → i < numBufs s → ∃ j, 1 ≤ j ≤ numBufs s ∧ pos s j = i.
Proof.
  intros (? & _ & _ & ? & _) Hi. unfold pos.
  destruct (decide (clockHand s < i)).
  - exists (i - clockHand s). split; [lia|].
    replace (clockHand s + (i - clockHand s)) with i by lia.
    by apply Nat.mod_small.
  - exists (numBufs s + i - clockHand s). split; [lia|].
    replace (clockHand s + (numBufs s + i - clockHand s))
      with (i + numBufs s) by lia.
    rewrite <- Nat.Div0.add_mod_idemp_r, Nat.Div0.mod_same, Nat.add_0_r.
    by apply Nat.mod_small.
Qed.

Lemma skip_step_fields s :
  numBufs (skip_step s) = numBufs s ∧
  hashTable (skip_step s) = hashTable s ∧
  bufPool (skip_step s) = bufPool s ∧
  disk (skip_step s) = disk s ∧
  io (skip_step s) = io s ∧
  clockHand (skip_step s) = pos s 1.
Proof.
  unfold skip_step; simpl.
  by destruct (bufDescTable s !! _).
Qed.

Lemma skip_step_lookup s i :
  bufDescTable (skip_step s) !! i =
  if decide (i = pos s 1) then with_refbit false <$> bufDescTable s !! i
  else bufDescTable s !! i.
Proof.
  unfold skip_step; simpl. fold (pos s 1).
  destruct (bufDescTable s !! pos s 1) as [d|] eqn:Hd; simpl.
  - case_decide as Hi.
    + subst. rewrite list_lookup_insert_eq by (by eapply lookup_lt_Some).
      by rewrite Hd.
    + by rewrite list_lookup_insert_ne.
  - case_decide as Hi; [|done]. subst. by rewrite Hd.
Qed.

Lemma wf_skip_step s : wf s → wf (skip_step s).
Proof.
  intros Hwf. unfold skip_step.
  pose proof (wf_advanceClock _ Hwf) as Hwf1.
  destruct (bufDescTable (advanceClock s) !! _) as [d|] eqn:Hd; [|done].
  by eapply wf_set_desc.
Qed.

Lemma pos_skip_step s j : pos (skip_step s) j = pos s (S j).
Proof.
  destruct (skip_step_fields s) as (Hn & _ & _ & _ & _ & Hc).
  unfold pos in *. rewrite Hn, Hc.
  rewrite Nat.Div0.add_mod_idemp_l. f_equal. lia.
Qed.

Lemma iter_fields k s :
  wf s →
  let s' := Nat.iter k skip_step s in
  wf s' ∧ numBufs s' = numBufs s ∧ hashTable s' = hashTable s ∧
  bufPool s' = bufPool s ∧ disk s' = disk s ∧ io s' = io s ∧
  clockHand s' = pos s k ∧ (∀ j, pos s' j = pos s (k + j)).
Proof.
  intros Hwf. induction k as [|k IH]; simpl.
  - rewrite pos_0 by done. done.
  - destruct IH as (IHw & IH1 & IH2 & IH3 & IH4 & IH5 & IH6 & IH7).
    destruct (skip_step_fields (Nat.iter k skip_step s))
      as (H1 & H2 & H3 & H4 & H5 & H6).
    split_and!; try congruence.
    + by apply wf_skip_step.
    + rewrite H6, IH7. f_equal. lia.
    + intros j. rewrite pos_skip_step, IH7. f_equal. lia.
Qed.

Lemma iter_lookup_unvisited k s i :
  wf s → (∀ j, 1 ≤ j ≤ k → pos s j ≠ i) →
  bufDescTable (Nat.iter k skip_step s) !! i = bufDescTable s !! i.
Proof.
  intros Hwf. induction k as [|k IH]; intros Hi; simpl; [done|].
  rewrite skip_step_lookup.
  destruct (iter_fields k s Hwf) as (_ & _ & _ & _ & _ & _ & _ & Hp).
  rewrite Hp. case_decide as He.
  - exfalso. apply (Hi (k + 1)); [lia|done].
  - apply IH. intros j Hj. apply Hi. lia.
Qed.

Lemma iter_lookup_visited k s j :
  wf s → 1 ≤ j ≤ k →
  bufDescTable (Nat.iter k skip_step s) !! pos s j =
  with_refbit false <$> bufDescTable s !! pos s j.
Proof.
  intros Hwf. revert j. induction k as [|k IH]; intros j Hj; simpl; [lia|].
  rewrite skip_step_lookup.
  destruct (iter_fields k s Hwf) as (_ & _ & _ & _ & _ & _ & _ & Hp).
  rewrite Hp.
  destruct (decide (j ≤ k)) as [Hle|Hgt].
  - rewrite IH by lia. case_decide; [|done].
    by destruct (bufDescTable s !! pos s j).
  - assert (j = k + 1) as -> by lia. rewrite decide_True by done.
    destruct (decide (Exists (λ j', pos s j' = pos s (k + 1)) (seq 1 k)))
      as [Hex|Hno].
    + apply Exists_exists in Hex as (j' & Hj' & He).
      apply elem_of_seq in Hj'.
      rewrite <- He, IH by lia. by destruct (bufDescTable s !! pos s j').
    + rewrite iter_lookup_unvisited; [done|done|].
      intros j' Hj' He. apply Hno. apply Exists_exists. exists j'.
      split; [|done]. apply elem_of_seq. lia.
Qed.

Lemma set_desc_same s i d :
  bufDescTable s !! i = Some d → set_desc i d s = s.
Proof.
  intros Hd. unfold set_desc, set_bufDescTable.
  rewrite list_insert_id by done. by destruct s.
Qed.

Lemma with_refbit_same d : refbit d = false → with_refbit false d = d.
Proof. intros <-. by destruct d. Qed.

Lemma loop_usable fuel st s d :
  bufDescTable s !! pos s 1 = Some d → usable d = true →
  allocBuf_loop (S fuel) st s = finish d (advanceClock s).
Proof.
  intros Hd Hu. simpl. unfold bind, desc_at; simpl. fold (pos s 1).
  rewrite Hd. unfold finish, usable in *.
  by destruct (valid d), (refbit d), (pinCnt d =? 0).
Qed.

Lemma loop_skip fuel st s d :
  bufDescTable s !! pos s 1 = Some d → usable d = false →
  refbit d = true ∨ st ≠ pos s 1 →
  allocBuf_loop (S fuel) st s = allocBuf_loop fuel st (skip_step s).
Proof.
  intros Hd Hu Hc. simpl. unfold bind, desc_at, put_desc, skip_step; simpl.
  fold (pos s 1). rewrite Hd. unfold usable in Hu.
  destruct (valid d) eqn:Hv; [|done].
  destruct (refbit d) eqn:Hr; simpl in *; [done|].
  destruct (pinCnt d =? 0) eqn:Hp; [done|].
  destruct Hc as [|Hc]; [done|].
  apply Nat.eqb_neq in Hc. rewrite Hc.
  f_equal. symmetry. rewrite with_refbit_same by done.
  by apply set_desc_same.
Qed.

Lemma loop_throw fuel s d :
  bufDescTable s !! pos s 1 = Some d → usable d = false →
  refbit d = false →
  allocBuf_loop (S fuel) (pos s 1) s =
  (advanceClock s, Throw BufferExceededException).
Proof.
  intros Hd Hu Hr. simpl. unfold bind, desc_at; simpl. fold (pos s 1).
  rewrite Hd. unfold usable in Hu. rewrite Hr in *.
  destruct (valid d) eqn:Hv; [|done]. simpl in *.
  destruct (pinCnt d =? 0) eqn:Hp; [done|].
  by rewrite Nat.eqb_refl.
Qed.

(** [k] visits that all move on. *)
Lemma loop_skip_n k fuel st s :
  wf s → k ≤ numBufs s →
  (∀ j, 1 ≤ j ≤ k →
     ∃ d, bufDescTable s !! pos s j = Some d ∧ usable d = false ∧
          (refbit d = true ∨ st ≠ pos s j)) →
  allocBuf_loop (k + fuel) st s =
  allocBuf_loop fuel st (Nat.iter k skip_step s).
Proof.
  intros Hwf. revert fuel. induction k as [|k IH]; intros fuel Hk Hs; [done|].
  replace (S k + fuel) with (k + S fuel) by lia.
  rewrite IH; [|lia|intros j Hj; apply Hs; lia].
  destruct (Hs (S k) ltac:(lia)) as (d & Hd & Hu & Hc).
  destruct (iter_fields k s Hwf) as (_ & _ & _ & _ & _ & _ & _ & Hp).
  simpl. apply loop_skip with d; rewrite ?Hp; replace (k + 1) with (S k) by lia;
    try done.
  rewrite iter_lookup_unvisited; [done|done|].
  intros j Hj He. apply pos_inj in He; [lia|done|lia|lia].
Qed.

(** The hand first meets the frame it started from after a full turn. *)
Lemma pos_start s j :
  wf s → 1 ≤ j < numBufs s → clockHand s ≠ pos s j.
Proof.
  intros Hwf Hj He. rewrite <- (pos_n s Hwf) in He.
  symmetry in He. apply pos_inj in He; [lia|done|lia|lia].
Qed.

(** The sweep stops at the first usable frame of the first turn. *)
Lemma sweep_first_usable k fuel s d :
  wf s → 1 ≤ k ≤ numBufs s →
  (∀ j, 1 ≤ j < k →
     ∃ d', bufDescTable s !! pos s j = Some d' ∧ usable d' = false) →
  bufDescTable s !! pos s k = Some d → usable d = true →
  allocBuf_loop (k + fuel) (clockHand s) s =
  finish d (advanceClock (Nat.iter (k - 1) skip_step s)).
Proof.
  intros Hwf Hk Hs Hd Hu.
  replace (k + fuel) with ((k - 1) + S fuel) by lia.
  rewrite loop_skip_n; [|done|lia|].
  - destruct (iter_fields (k - 1) s Hwf) as (_ & _ & _ & _ & _ & _ & _ & Hp).
    apply loop_usable; [|done]. rewrite Hp.
    replace (k - 1 + 1) with k by lia.
    rewrite iter_lookup_unvisited; [done|done|].
    intros j Hj He. apply pos_inj in He; [lia|done|lia|lia].
  - intros j Hj. destruct (Hs j ltac:(lia)) as (d' & ? & ?).
    exists d'. split_and!; [done|done|]. right. apply pos_start; [done|lia].
Qed.

(** A full turn without a usable frame ends on the starting frame: with
    its reference bit clear the sweep gives up there, with the bit set it
    goes round again. *)
Lemma sweep_throw fuel s d0 :
  wf s →
  (∀ j, 1 ≤ j ≤ numBufs s →
     ∃ d, bufDescTable s !! pos s j = Some d ∧ usable d = false) →
  bufDescTable s !! clockHand s = Some d0 → refbit d0 = false →
  allocBuf_loop (numBufs s + fuel) (clockHand s) s =
  (advanceClock (Nat.iter (numBufs s - 1) skip_step s),
   Throw BufferExceededException).
Proof.
  intros Hwf Hs Hd0 Hr. pose proof Hwf as (Hn & _).
  replace (numBufs s + fuel) with ((numBufs s - 1) + S fuel) by lia.
  rewrite loop_skip_n; [|done|lia|].
  - destruct (iter_fields (numBufs s - 1) s Hwf)
      as (_ & _ & _ & _ & _ & _ & _ & Hp).
    assert (pos (Nat.iter (numBufs s - 1) skip_step s) 1 = clockHand s) as He.
    { rewrite Hp. replace (numBufs s - 1 + 1) with (numBufs s) by lia.
      by apply pos_n. }
    rewrite <- He at 1. apply loop_throw with d0; [|..|done].
    + rewrite He, iter_lookup_unvisited; [done|done|].
      intros j Hj. apply not_eq_sym, pos_start; [done|lia].
    + destruct (Hs (numBufs s) ltac:(lia)) as (d & Hd & Hu).
      rewrite pos_n in Hd by done. congruence.
  - intros j Hj. destruct (Hs j ltac:(lia)) as (d' & ? & ?).
    exists d'. split_and!; [done|done|]. right. apply pos_start; [done|lia].
Qed.

Lemma sweep_again fuel s d0 :
  wf s →
  (∀ j, 1 ≤ j ≤ numBufs s →
     ∃ d, bufDescTable s !! pos s j = Some d ∧ usable d = false) →
  bufDescTable s !! clockHand s = Some d0 → refbit d0 = true →
  allocBuf_loop (numBufs s + fuel) (clockHand s) s =
  allocBuf_loop fuel (clockHand s) (Nat.iter (numBufs s) skip_step s).
Proof.
  intros Hwf Hs Hd0 Hr. pose proof Hwf as (Hn & _).
  apply loop_skip_n; [done|lia|].
  intros j Hj. destruct (Hs j ltac:(lia)) as (d' & Hd' & ?).
  exists d'. split_and!; [done|done|].
  destruct (decide (j = numBufs s)) as [->|].
  - left. rewrite pos_n in Hd' by done. congruence.
  - right. apply pos_start; [done|lia].
Qed.

(** Looking for the first usable frame among the first [k] visited. *)
Lemma scan s k :
  (∀ j, 1 ≤ j ≤ k → is_Some (bufDescTable s !! pos s j)) →
  (∀ j, 1 ≤ j ≤ k →
     ∃ d, bufDescTable s !! pos s j = Some d ∧ usable d = false) ∨
  (∃ j d, 1 ≤ j ≤ k ∧ bufDescTable s !! pos s j = Some d ∧
          usable d = true ∧
          ∀ j', 1 ≤ j' < j →
            ∃ d', bufDescTable s !! pos s j' = Some d' ∧ usable d' = false).
Proof.
  induction k as [|k IH]; intros Hs; [left; intros; lia|].
  destruct IH as [IH|(j & d & Hj & Hd & Hu & Hb)].
  - intros j Hj. apply Hs. lia.
  - destruct (Hs (S k) ltac:(lia)) as [d Hd].
    destruct (usable d) eqn:Hu.
    + right. exists (S k), d. split_and!; [lia|lia|done|done|].
      intros j' Hj'. apply IH. lia.
    + left. intros j Hj. destruct (decide (j = S k)) as [->|]; [by exists d|].
      apply IH. lia.
  - right. exists j, d. split_and!; [lia|lia|done|done|done].
Qed.

Lemma usable_false d :
  usable d = false ↔ valid d = true ∧ (refbit d = true ∨ 0 < pinCnt d).
Proof.
  unfold usable.
  destruct (valid d), (refbit d), (Nat.eqb_spec (pinCnt d) 0); simpl;
    split; try done; try (intros [? [?|?]]; done || lia); intros _;
    (split; [done|]); (by left) || (right; lia).
Qed.

Lemma usable_false_cleared d :
  usable (with_refbit false d) = false ↔ valid d = true ∧ 0 < pinCnt d.
Proof.
  rewrite usable_false; simpl. split; [intros [? [?|?]]; done|].
  intros [? ?]. split; [done|by right].
Qed.

Lemma no_usable_Forall s :
  wf s →
  (∀ j, 1 ≤ j ≤ numBufs s →
     ∃ d, bufDescTable s !! pos s j = Some d ∧ usable d = false) ↔
  Forall (λ d, usable d = false) (bufDescTable s).
Proof.
  intros Hwf. rewrite Forall_lookup. split.
  - intros Hs i d Hd.
    destruct (pos_surj s i Hwf) as (j & Hj & <-); [by eapply wf_desc_lt|].
    destruct (Hs j Hj) as (d' & ? & ?). congruence.
  - intros Hs j Hj.
    destruct (wf_desc s (pos s j) Hwf) as [d Hd]; [by apply pos_lt|].
    exists d. split; [done|]. by eapply Hs.
Qed.

Lemma iter_full_lookup s i :
  wf s →
  bufDescTable (Nat.iter (numBufs s) skip_step s) !! i =
  with_refbit false <$> bufDescTable s !! i.
Proof.
  intros Hwf. destruct (decide (i < numBufs s)) as [Hi|Hi].
  - destruct (pos_surj s i Hwf Hi) as (j & Hj & <-).
    by apply iter_lookup_visited.
  - destruct (iter_fields (numBufs s) s Hwf) as ((_ & Hl & _) & Hn & _).
    pose proof Hwf as (_ & Hl' & _).
    rewrite !lookup_ge_None_2; [done|lia|lia].
Qed.

Lemma allocBuf_unfold s :
  allocBuf s =
  match allocBuf_loop (2 * numBufs s) (clockHand s) s with
  | (s', Ok frame) =>
      match bufDescTable s' !! clockHand s' with
      | Some d => (set_desc (clockHand s') (Clear d) s', Ok frame)
      | None => (s', Abort)
      end
  | (s', Throw e) => (s', Throw e)
  | (s', Abort) => (s', Abort)
  end.
Proof.
  unfold allocBuf, bind, get_numBufs, get_clockHand, desc_at, put_desc, ret.
  destruct (allocBuf_loop _ _ s) as [s' [frame|e|]]; [|done..].
  by destruct (bufDescTable s' !! clockHand s').
Qed.

Lemma finish_not_exceeded d s s' :
  finish d s ≠ (s', Throw BufferExceededException).
Proof.
  unfold finish, evict, bind, hashTable_remove, get_clockHand, page_at,
    writePage_via, file_writePage, put_desc, ret, abort.
  destruct (valid d); [|done].
  destruct (file d) as [f|], (pageNo d) as [p|]; try done.
  destruct (ht_remove f p (hashTable s)); [|done].
  destruct (dirty d); simpl; [|done].
  by destruct (bufPool s !! clockHand s).
Qed.

(** The sweep gives up exactly from the exhausted states. *)
Lemma loop_exceeded_complete s :
  wf s → exhausted s →
  ∃ s', allocBuf_loop (2 * numBufs s) (clockHand s) s =
        (s', Throw BufferExceededException).
Proof.
  intros Hwf [Hall Hstart].
  assert (Forall (λ d, usable d = false) (bufDescTable s)) as Hnu.
  { eapply Forall_impl; [exact Hall|]. intros d Hd. by apply usable_false. }
  pose proof (proj2 (no_usable_Forall s Hwf) Hnu) as Hs.
  destruct (wf_desc s (clockHand s) Hwf) as [d0 Hd0]; [by destruct Hwf as (_&_&_&?&_)|].
  replace (2 * numBufs s) with (numBufs s + numBufs s) by lia.
  destruct (refbit d0) eqn:Hr0.
  - destruct Hstart as [(d & Hd & Hr)|Hpin]; [congruence|].
    rewrite sweep_again with (d0 := d0) by done.
    set (s1 := Nat.iter (numBufs s) skip_step s).
    destruct (iter_fields (numBufs s) s Hwf)
      as (Hwf1 & Hn1 & _ & _ & _ & _ & Hc1 & _).
    fold s1 in Hwf1, Hn1, Hc1. rewrite pos_n in Hc1 by done.
    rewrite <- Hc1, <- Hn1. replace (numBufs s1) with (numBufs s1 + 0) by lia.
    eexists. apply sweep_throw with (d0 := with_refbit false d0); [done|..|done].
    + apply no_usable_Forall; [done|]. apply Forall_lookup. intros i d Hd.
      unfold s1 in Hd. rewrite iter_full_lookup in Hd by done.
      destruct (bufDescTable s !! i) as [d'|] eqn:Hd'; [|done].
      injection Hd as <-. apply usable_false_cleared.
      pose proof (Forall_lookup_1 _ _ _ _ Hall Hd') as [? _].
      pose proof (Forall_lookup_1 _ _ _ _ Hpin Hd'). done.
    + rewrite Hc1. unfold s1. rewrite iter_full_lookup by done.
      by rewrite Hd0.
  - eexists. by apply sweep_throw with (d0 := d0).
Qed.

Lemma loop_exceeded_sound s s' :
  wf s →
  allocBuf_loop (2 * numBufs s) (clockHand s) s =
    (s', Throw BufferExceededException) →
  exhausted s.
Proof.
  intros Hwf Hloop. pose proof Hwf as (Hn & _ & _ & Hc & _).
  replace (2 * numBufs s) with (numBufs s + numBufs s) in Hloop by lia.
  destruct (scan s (numBufs s)) as [Hs|(j & d & Hj & Hd & Hu & Hb)].
  { intros j _. apply wf_desc; [done|by apply pos_lt]. }
  2:{ exfalso.
      replace (numBufs s + numBufs s)
        with (j + (numBufs s + numBufs s - j)) in Hloop by lia.
      rewrite (sweep_first_usable j _ s d) in Hloop by done.
      by apply finish_not_exceeded in Hloop. }
  pose proof (proj1 (no_usable_Forall s Hwf) Hs) as Hnu.
  assert (Forall (λ d, valid d = true ∧ (refbit d = true ∨ 0 < pinCnt d))
            (bufDescTable s)) as Hall.
  { eapply Forall_impl; [exact Hnu|]. intros d Hd. by apply usable_false. }
  split; [done|].
  destruct (wf_desc s (clockHand s) Hwf Hc) as [d0 Hd0].
  destruct (refbit d0) eqn:Hr0; [|left; by exists d0].
  right. rewrite sweep_again with (d0 := d0) in Hloop by done.
  set (s1 := Nat.iter (numBufs s) skip_step s) in *.
  destruct (iter_fields (numBufs s) s Hwf)
    as (Hwf1 & Hn1 & _ & _ & _ & _ & Hc1 & _).
  fold s1 in Hwf1, Hn1, Hc1. rewrite pos_n in Hc1 by done.
  rewrite <- Hc1, <- Hn1 in Hloop.
  destruct (scan s1 (numBufs s1)) as [Hs1|(j & d & Hj & Hd & Hu & Hb)].
  { intros j _. apply wf_desc; [done|by apply pos_lt]. }
  2:{ exfalso.
      replace (numBufs s1) with (j + (numBufs s1 - j)) in Hloop at 1 by lia.
      rewrite (sweep_first_usable j _ s1 d) in Hloop by done.
      by apply finish_not_exceeded in Hloop. }
  pose proof (proj1 (no_usable_Forall s1 Hwf1) Hs1) as Hnu1.
  apply Forall_lookup. intros i d Hd.
  assert (bufDescTable s1 !! i = Some (with_refbit false d)) as Hd1.
  { unfold s1. rewrite iter_full_lookup by done. by rewrite Hd. }
  pose proof (Forall_lookup_1 _ _ _ _ Hnu1 Hd1) as Hu.
  by apply usable_false_cleared in Hu as [_ ?].
Qed.

Lemma refs_cleared_refl t : refs_cleared t t.
Proof. split; [done|]. intros i d Hd. by left. Qed.

Lemma refs_cleared_trans t1 t2 t3 :
  refs_cleared t1 t2 → refs_cleared t2 t3 → refs_cleared t1 t3.
Proof.
  intros [Hl1 H1] [Hl2 H2]. split; [congruence|]. intros i d Hd.
  destruct (H1 i d Hd) as [Hd2|Hd2]; destruct (H2 _ _ Hd2) as [Hd3|Hd3];
    rewrite Hd3; auto.
Qed.

Lemma skip_step_refs_cleared s :
  refs_cleared (bufDescTable s) (bufDescTable (skip_step s)).
Proof.
  split.
  - unfold skip_step; simpl.
    destruct (bufDescTable s !! _); simpl; [|done]. by rewrite length_insert.
  - intros i d Hd. rewrite skip_step_lookup, Hd. case_decide; auto.
Qed.

Lemma iter_refs_cleared k s :
  refs_cleared (bufDescTable s) (bufDescTable (Nat.iter k skip_step s)).
Proof.
  induction k as [|k IH]; simpl; [apply refs_cleared_refl|].
  eapply refs_cleared_trans; [exact IH|apply skip_step_refs_cleared].
Qed.

Lemma Inv_refs_cleared s s' :
  Inv s → hashTable s' = hashTable s →
  refs_cleared (bufDescTable s) (bufDescTable s') → Inv s'.
Proof.
  intros HI Hh [Hl Hr]. apply Inv_intro; rewrite Hh.
  - intros [f p] i Hk.
    destruct (Inv_sound s f p i HI Hk) as (d & Hd & ? & ? & ?).
    unfold slot_holds. by destruct (Hr i d Hd) as [-> | ->].
  - intros i d' Hd'.
    destruct (bufDescTable s !! i) as [d|] eqn:Hd.
    2:{ apply lookup_ge_None in Hd. apply lookup_lt_Some in Hd'. lia. }
    pose proof (Inv_desc _ _ _ HI Hd) as Hok.
    destruct (Hr i d Hd) as [Hd2|Hd2]; [congruence|].
    assert (d' = with_refbit false d) as -> by congruence.
    unfold desc_ok in *; simpl. destruct (valid d); [done|].
    rewrite Hok. done.
Qed.

Lemma Inv_iter k s : wf s → Inv s → Inv (Nat.iter k skip_step s).
Proof.
  intros Hwf HI. eapply Inv_refs_cleared; [done| |apply iter_refs_cleared].
  by destruct (iter_fields k s Hwf) as (_ & _ & ? & _).
Qed.

(** Every sweep stops, within two turns, at a usable frame or back at
    its starting frame. *)
Lemma allocBuf_loop_cases s :
  wf s →
  ∃ k, let sk := advanceClock (Nat.iter k skip_step s) in
    (∃ d, bufDescTable sk !! clockHand sk = Some d ∧ usable d = true ∧
          allocBuf_loop (2 * numBufs s) (clockHand s) s = finish d sk) ∨
    (clockHand sk = clockHand s ∧
     allocBuf_loop (2 * numBufs s) (clockHand s) s =
       (sk, Throw BufferExceededException)).
Proof.
  intros Hwf. pose proof Hwf as (Hn & _ & _ & Hc & _).
  assert (∀ s0 fuel, wf s0 →
    (∃ j d, 1 ≤ j ≤ numBufs s0 ∧
       bufDescTable (advanceClock (Nat.iter (j - 1) skip_step s0))
         !! clockHand (advanceClock (Nat.iter (j - 1) skip_step s0)) = Some d ∧
       usable d = true ∧
       allocBuf_loop (numBufs s0 + fuel) (clockHand s0) s0 =
         finish d (advanceClock (Nat.iter (j - 1) skip_step s0))) ∨
    ((∀ j, 1 ≤ j ≤ numBufs s0 →
       ∃ d, bufDescTable s0 !! pos s0 j = Some d ∧ usable d = false))) as Hturn.
  { intros s0 fuel Hwf0. pose proof Hwf0 as (Hn0 & _).
    destruct (scan s0 (numBufs s0)) as [Hs|(j & d & Hj & Hd & Hu & Hb)].
    { intros j _. apply wf_desc; [done|by apply pos_lt]. }
    { by right. }
    left. exists j, d. split_and!; [lia|lia| |done|].
    - destruct (iter_fields (j - 1) s0 Hwf0)
        as (_ & _ & _ & _ & _ & _ & _ & Hp).
      simpl. fold (pos (Nat.iter (j - 1) skip_step s0) 1). rewrite Hp.
      replace (j - 1 + 1) with j by lia.
      rewrite iter_lookup_unvisited; [done|done|].
      intros j' Hj' He. apply pos_inj in He; [lia|done|lia|lia].
    - replace (numBufs s0 + fuel) with (j + (numBufs s0 + fuel - j)) by lia.
      by apply sweep_first_usable. }
  replace (2 * numBufs s) with (numBufs s + numBufs s) by lia.
  destruct (Hturn s (numBufs s) Hwf) as [(j & d & Hj & Hd & Hu & Hl)|Hs].
  { exists (j - 1). left. by exists d. }
  destruct (wf_desc s (clockHand s) Hwf Hc) as [d0 Hd0].
  assert (∀ s0 fuel d0, wf s0 →
    (∀ j, 1 ≤ j ≤ numBufs s0 →
       ∃ d, bufDescTable s0 !! pos s0 j = Some d ∧ usable d = false) →
    bufDescTable s0 !! clockHand s0 = Some d0 → refbit d0 = false →
    clockHand (advanceClock (Nat.iter (numBufs s0 - 1) skip_step s0))
      = clockHand s0 ∧
    allocBuf_loop (numBufs s0 + fuel) (clockHand s0) s0 =
      (advanceClock (Nat.iter (numBufs s0 - 1) skip_step s0),
       Throw BufferExceededException)) as Hgiveup.
  { intros s0 fuel d1 Hwf0 Hs0 Hd1 Hr1. pose proof Hwf0 as (Hn0 & _).
    split; [|by apply sweep_throw with d1].
    destruct (iter_fields (numBufs s0 - 1) s0 Hwf0)
      as (_ & _ & _ & _ & _ & _ & _ & Hp).
    simpl. fold (pos (Nat.iter (numBufs s0 - 1) skip_step s0) 1).
    rewrite Hp. replace (numBufs s0 - 1 + 1) with (numBufs s0) by lia.
    by apply pos_n. }
  destruct (refbit d0) eqn:Hr0.
  2:{ exists (numBufs s - 1). right. by apply Hgiveup with d0. }
  rewrite sweep_again with (d0 := d0) by done.
  set (s1 := Nat.iter (numBufs s) skip_step s).
  destruct (iter_fields (numBufs s) s Hwf)
    as (Hwf1 & Hn1 & _ & _ & _ & _ & Hc1 & _).
  fold s1 in Hwf1, Hn1, Hc1. rewrite pos_n in Hc1 by done.
  assert (allocBuf_loop (numBufs s) (clockHand s) s1 =
          allocBuf_loop (numBufs s1 + 0) (clockHand s1) s1) as ->
    by (rewrite Hc1, Hn1; f_equal; lia).
  rewrite <- Hc1.
  assert (∀ k, Nat.iter k skip_step s1 = Nat.iter (k + numBufs s) skip_step s)
    as Hadd by (intros k; unfold s1; by rewrite Nat.iter_add).
  destruct (Hturn s1 0 Hwf1) as [(j & d & Hj & Hd & Hu & Hl)|Hs1].
  { exists (j - 1 + numBufs s). left. exists d. simpl. rewrite <- Hadd.
    done. }
  exists (numBufs s1 - 1 + numBufs s). right. simpl. rewrite <- Hadd.
  apply Hgiveup with (with_refbit false d0); [done|done| |done].
  rewrite Hc1. unfold s1. rewrite iter_full_lookup by done.
  by rewrite Hd0.
Qed.

Lemma Clear_Clear d : Clear (Clear d) = Clear d.
Proof. done. Qed.

(** The state [allocBuf] returns when the sweep, after [k] visits that
    moved on, stops at the usable frame [c]: the frame is handed out
    emptied, its entry removed from the index and its page written out
    when dirty. *)
Lemma allocBuf_finish s k d :
  wf s → Inv s →
  let sk := Nat.iter k skip_step s in let c := pos sk 1 in
  bufDescTable sk !! c = Some d → usable d = true →
  allocBuf_loop (2 * numBufs s) (clockHand s) s = finish d (advanceClock sk) →
  ∃ s', allocBuf s = (s', Ok c) ∧
     numBufs s' = numBufs s ∧ clockHand s' = c ∧ bufPool s' = bufPool s ∧
     bufDescTable s' = <[c := Clear d]> (bufDescTable sk) ∧
     if valid d then
       ∃ f p, file d = Some f ∧ pageNo d = Some p ∧
         hashTable s !! (f, p) = Some c ∧
         hashTable s' = delete (f, p) (hashTable s) ∧
         if dirty d then
           ∃ pg, bufPool s !! c = Some pg ∧
             disk s' = <[(f, page_number pg) := pg]> (disk s) ∧
             io s' = io s ++ [EvWrite f pg]
         else disk s' = disk s ∧ io s' = io s
     else hashTable s' = hashTable s ∧ disk s' = disk s ∧ io s' = io s.
Proof.
  intros Hwf HI sk c Hd Hu Hloop. subst c.
  destruct (iter_fields k s Hwf)
    as (Hwfk & Hnk & Hhk & Hpk & Hdk & Hiok & Hck & _).
  pose proof (Inv_iter k s Hwf HI) as HIk. fold sk in Hwfk, Hnk, Hhk, Hpk, Hdk, Hiok, Hck, HIk.
  rewrite allocBuf_unfold, Hloop.
  pose proof (wf_frameNo sk _ _ Hwfk Hd) as Hfn.
  unfold finish. destruct (valid d) eqn:Hv.
  - destruct (Inv_complete sk (pos sk 1) d Hwfk HIk Hd Hv)
      as (f & p & Hf & Hp & Hh).
    unfold evict, bind, hashTable_remove, ht_remove, get_clockHand.
    rewrite Hf, Hp. simpl. rewrite Hh.
    destruct (dirty d) eqn:Hdirty.
    + destruct (wf_page sk (pos sk 1) Hwfk) as [pg Hpg]; [by apply pos_lt|].
      unfold page_at, writePage_via, file_writePage, ret; simpl.
      fold (pos sk 1). rewrite Hpg. simpl. fold (pos sk 1). rewrite Hd, Hfn.
      eexists. split_and!; try done.
      exists f, p. rewrite <- Hhk. split_and!; try done.
      exists pg. rewrite <- Hpk, <- Hdk, <- Hiok. done.
    + unfold put_desc, ret; simpl. fold (pos sk 1).
      rewrite list_lookup_insert_eq, Hfn by (by eapply lookup_lt_Some).
      eexists. split_and!; try done.
      * simpl. by rewrite list_insert_insert_eq.
      * exists f, p. rewrite <- Hhk. split_and!; done.
  - unfold ret. simpl. fold (pos sk 1). rewrite Hd, Hfn.
    eexists. split_and!; done.
Qed.

(** What [allocBuf] does from a well-formed state that satisfies the
    invariant: it stops at a usable frame as above, or it gives up back
    at the frame it started from. *)
Lemma allocBuf_spec s :
  wf s → Inv s →
  (∃ k d s', let sk := Nat.iter k skip_step s in let c := pos sk 1 in
     bufDescTable sk !! c = Some d ∧ usable d = true ∧
     allocBuf s = (s', Ok c) ∧
     numBufs s' = numBufs s ∧ clockHand s' = c ∧ bufPool s' = bufPool s ∧
     bufDescTable s' = <[c := Clear d]> (bufDescTable sk) ∧
     if valid d then
       ∃ f p, file d = Some f ∧ pageNo d = Some p ∧
         hashTable s !! (f, p) = Some c ∧
         hashTable s' = delete (f, p) (hashTable s) ∧
         if dirty d then
           ∃ pg, bufPool s !! c = Some pg ∧
             disk s' = <[(f, page_number pg) := pg]> (disk s) ∧
             io s' = io s ++ [EvWrite f pg]
         else disk s' = disk s ∧ io s' = io s
     else hashTable s' = hashTable s ∧ disk s' = disk s ∧ io s' = io s) ∨
  (∃ k, let sk := advanceClock (Nat.iter k skip_step s) in
     clockHand sk = clockHand s ∧
     allocBuf s = (sk, Throw BufferExceededException)).
Proof.
  intros Hwf HI. destruct (allocBuf_loop_cases s Hwf) as [k Hk].
  cbv zeta in Hk. destruct Hk as [(d & Hd & Hu & Hloop)|[Hc Hloop]].
  2:{ right. exists k. rewrite allocBuf_unfold, Hloop. done. }
  left.
  destruct (allocBuf_finish s k d Hwf HI Hd Hu Hloop) as (s' & Hs').
  by exists k, d, s'.
Qed.

(** [allocBuf] keeps well-formedness and the invariant, returns or gives
    up, and hands out an empty frame of the pool. *)
Lemma allocBuf_post s s' r :
  wf s → Inv s → allocBuf s = (s', r) →
  wf s' ∧ Inv s' ∧ numBufs s' = numBufs s ∧ bufPool s' = bufPool s ∧
  hashTable s' ⊆ hashTable s ∧
  match r with
  | Ok c => c < numBufs s ∧ clockHand s' = c ∧
            ∃ d, bufDescTable s' !! c = Some d ∧ d = Clear d
  | Throw e => e = BufferExceededException
  | Abort => False
  end.
Proof.
  intros Hwf HI Hr.
  destruct (allocBuf_spec s Hwf HI)
    as [(k & d & s1 & Hd & Hu & Ha & Hn & Hc & Hp & Ht & Hrest)|(k & Hc & Ha)];
    simpl in *; rewrite Ha in Hr; injection Hr as <- <-.
  - destruct (iter_fields k s Hwf)
      as (Hwfk & Hnk & Hhk & Hpk & Hdk & Hiok & Hck & _).
    pose proof (Inv_iter k s Hwf HI) as HIk.
    set (sk := Nat.iter k skip_step s) in *.
    assert (pos sk 1 < numBufs s) as Hlt
      by (rewrite <- Hnk; by apply pos_lt).
    assert (wf s1) as Hwf1.
    { destruct Hwfk as (? & Hl & Hpl & ? & Hfr).
      unfold wf. rewrite Hn, Hc, Hp, Ht, length_insert, <- Hpk, <- Hnk.
      split_and!; try done; [by apply pos_lt|].
      rewrite list_fmap_insert, list_insert_id; [done|].
      by rewrite list_lookup_fmap, Hd. }
    split_and!; try done.
    + destruct (valid d) eqn:Hv.
      * destruct Hrest as (f & p & Hf & Hpn & Hh & Hh' & _).
        eapply Inv_ext; [| |exact (Inv_evict sk _ d f p Hwfk HIk Hd Hv Hf Hpn)];
          simpl; congruence.
      * destruct Hrest as (Hh' & _).
        eapply Inv_ext; [| |exact HIk]; [|congruence].
        rewrite Ht, <- (Inv_empty sk _ d HIk Hd Hv).
        by apply list_insert_id.
    + destruct (valid d) eqn:Hv.
      * destruct Hrest as (f & p & Hf & Hpn & Hh & -> & _).
        apply delete_subseteq.
      * by destruct Hrest as (-> & _).
    + exists (Clear d). split; [|done]. rewrite Ht.
      apply list_lookup_insert_eq. by eapply lookup_lt_Some.
  - destruct (iter_fields k s Hwf)
      as (Hwfk & Hnk & Hhk & Hpk & Hdk & Hiok & Hck & _).
    pose proof (Inv_iter k s Hwf HI) as HIk.
    split_and!;
      first [done | by apply wf_advanceClock | by eapply Inv_ext
            | simpl; by rewrite Hhk].
Qed.
End sweep.

(** ** Fetch and release *)

Section fetch_release.
Implicit Types (s : State) (d : BufDesc) (i j : nat).

Lemma readPage_hit s f p i d :
  hashTable s !! (f, p) = Some i → bufDescTable s !! i = Some d →
  readPage f p s =
  (set_desc i (with_pinCnt (pinCnt d + 1) (with_refbit true d)) s, Ok i).
Proof.
  intros Hh Hd. unfold readPage, ht_lookup, bind, desc_at, put_desc, ret.
  by rewrite Hh, Hd.
Qed.

Lemma readPage_miss s f p :
  hashTable s !! (f, p) = None →
  readPage f p s =
  (do fid <- allocBuf ;;
   do tPage <- file_readPage f p ;;
   do_ set_page fid tPage ;;
   do_ hashTable_insert f p fid ;;
   do d <- desc_at fid ;;
   do_ put_desc fid (Set_ d f p) ;;
   ret fid) s.
Proof. intros Hh. unfold readPage, ht_lookup. by rewrite Hh. Qed.

Lemma readPage_miss_fail s f p s1 e :
  hashTable s !! (f, p) = None → allocBuf s = (s1, Throw e) →
  readPage f p s = (s1, Throw e).
Proof. intros Hh Ha. rewrite readPage_miss by done. unfold bind. by rewrite Ha. Qed.

Lemma readPage_miss_noread s f p s1 c :
  hashTable s !! (f, p) = None → allocBuf s = (s1, Ok c) →
  disk s1 !! (f, p) = None →
  readPage f p s = (log (EvRead f p) s1, Throw InvalidPageException).
Proof.
  intros Hh Ha Hd. rewrite readPage_miss by done.
  unfold bind at 1. rewrite Ha. unfold bind, file_readPage. by rewrite Hd.
Qed.

Lemma readPage_miss_ok s f p s1 c pg d :
  hashTable s !! (f, p) = None → allocBuf s = (s1, Ok c) →
  disk s1 !! (f, p) = Some pg → hashTable s1 !! (f, p) = None →
  bufDescTable s1 !! c = Some d →
  readPage f p s =
  (set_desc c (Set_ d f p)
     (set_hashTable (<[(f, p) := c]> (hashTable s1))
        (set_bufPool (<[c := pg]> (bufPool s1)) (log (EvRead f p) s1))),
   Ok c).
Proof.
  intros Hh Ha Hd Hh1 Hc. rewrite readPage_miss by done.
  unfold bind at 1. rewrite Ha.
  unfold bind, file_readPage, set_page, hashTable_insert, ht_insert,
    desc_at, put_desc, ret.
  rewrite Hd. simpl. rewrite Hh1. simpl. by rewrite Hc.
Qed.

Lemma readPage_post s f p s' r :
  wf s → Inv s → readPage f p s = (s', r) →
  wf s' ∧ Inv s' ∧ numBufs s' = numBufs s ∧ r ≠ Abort.
Proof.
  intros Hwf HI Hr. destruct (hashTable s !! (f, p)) as [i|] eqn:Hh.
  - destruct (Inv_sound s f p i HI Hh) as (d & Hd & Hv & Hf & Hp).
    rewrite (readPage_hit s f p i d) in Hr by done.
    injection Hr as <- <-. split_and!; [| |done|done].
    + by eapply wf_set_desc.
    + by eapply Inv_update_valid.
  - destruct (allocBuf s) as [s1 r1] eqn:Ha.
    destruct (allocBuf_post s s1 r1 Hwf HI Ha)
      as (Hwf1 & HI1 & Hn1 & Hp1 & Hsub & Hr1).
    destruct r1 as [c|e|]; [|subst e|done].
    2:{ rewrite (readPage_miss_fail s f p s1 _ Hh Ha) in Hr.
        by injection Hr as <- <-. }
    destruct Hr1 as (Hc & Hhand & d & Hd & Hcl).
    destruct (disk s1 !! (f, p)) as [pg|] eqn:Hdisk.
    2:{ rewrite (readPage_miss_noread s f p s1 c Hh Ha Hdisk) in Hr.
        injection Hr as <- <-.
        split_and!; first [done | by eapply Inv_ext]. }
    assert (hashTable s1 !! (f, p) = None) as Hh1
      by (by eapply lookup_weaken_None).
    rewrite (readPage_miss_ok s f p s1 c pg d Hh Ha Hdisk Hh1 Hd) in Hr.
    injection Hr as <- <-. split_and!; [| |done|done].
    + eapply wf_set_desc; [|exact Hd|done].
      apply wf_set_hashTable.
      apply (wf_set_bufPool (log (EvRead f p) s1)). by apply wf_set_world.
    + assert (valid d = false) as Hv by (by rewrite Hcl).
      eapply Inv_ext;
        [| |exact (Inv_install s1 c d f p Hwf1 HI1 Hd Hh1
                     (Inv_invalid_free s1 c d HI1 Hd Hv))]; done.
Qed.

Lemma unPinPage_absent s f p b :
  hashTable s !! (f, p) = None → unPinPage f p b s = (s, Ok tt).
Proof. intros Hh. unfold unPinPage, ht_lookup. by rewrite Hh. Qed.

Lemma unPinPage_unpinned s f p b i d :
  hashTable s !! (f, p) = Some i → bufDescTable s !! i = Some d →
  pinCnt d = 0 → unPinPage f p b s = (s, Throw PageNotPinnedException).
Proof.
  intros Hh Hd Hp. unfold unPinPage, ht_lookup, bind, desc_at.
  by rewrite Hh, Hd, Hp.
Qed.

Lemma unPinPage_pinned s f p b i d :
  hashTable s !! (f, p) = Some i → bufDescTable s !! i = Some d →
  0 < pinCnt d →
  unPinPage f p b s =
  (set_desc i (mkBufDesc (frameNo d) (valid d) (b || dirty d) (refbit d)
                 (pinCnt d - 1) (file d) (pageNo d)) s, Ok tt).
Proof.
  intros Hh Hd Hp. unfold unPinPage, ht_lookup, bind, desc_at, put_desc.
  rewrite Hh, Hd. destruct (Nat.eqb_spec (pinCnt d) 0); [lia|].
  by destruct b.
Qed.

Lemma unPinPage_post s f p b s' r :
  wf s → Inv s → unPinPage f p b s = (s', r) →
  wf s' ∧ Inv s' ∧ numBufs s' = numBufs s ∧ r ≠ Abort.
Proof.
  intros Hwf HI Hr. destruct (hashTable s !! (f, p)) as [i|] eqn:Hh.
  - destruct (Inv_sound s f p i HI Hh) as (d & Hd & Hv & Hf & Hp).
    destruct (decide (pinCnt d = 0)) as [Hz|Hnz].
    + rewrite (unPinPage_unpinned s f p b i d) in Hr by done.
      by injection Hr as <- <-.
    + rewrite (unPinPage_pinned s f p b i d) in Hr by (done || lia).
      injection Hr as <- <-. split_and!; [| |done|done].
      * by eapply wf_set_desc.
      * by eapply Inv_update_valid.
  - rewrite unPinPage_absent in Hr by done. by injection Hr as <- <-.
Qed.
End fetch_release.

(** ** Flush *)

Section flush.
Implicit Types (s : State) (d : BufDesc) (i j n : nat).

Lemma flush_step_other n i f s d :
  bufDescTable s !! i = Some d → file d ≠ Some f →
  flushFile_loop (S n) i f s = flushFile_loop n (S i) f s.
Proof.
  intros Hd Hf. simpl. unfold bind at 1. unfold desc_at. rewrite Hd.
  unfold bind at 1. by rewrite bool_decide_eq_false_2.
Qed.

Lemma flush_step_pinned n i f s d :
  bufDescTable s !! i = Some d → file d = Some f → pinCnt d ≠ 0 →
  flushFile_loop (S n) i f s = (s, Throw PagePinnedException).
Proof.
  intros Hd Hf Hp. simpl. unfold bind at 1. unfold desc_at. rewrite Hd.
  unfold bind at 1. rewrite bool_decide_eq_true_2 by done.
  by destruct (Nat.eqb_spec (pinCnt d) 0).
Qed.

Lemma flush_step_invalid n i f s d :
  bufDescTable s !! i = Some d → file d = Some f → pinCnt d = 0 →
  valid d = false →
  flushFile_loop (S n) i f s = (s, Throw BadBufferException).
Proof.
  intros Hd Hf Hp Hv. simpl. unfold bind at 1. unfold desc_at. rewrite Hd.
  unfold bind at 1. rewrite bool_decide_eq_true_2 by done.
  by rewrite Hp, Hv.
Qed.

Lemma flush_step_ok n i f s d p pg j :
  bufDescTable s !! i = Some d → file d = Some f → pinCnt d = 0 →
  valid d = true → pageNo d = Some p → hashTable s !! (f, p) = Some j →
  bufPool s !! i = Some pg →
  flushFile_loop (S n) i f s = flushFile_loop n (S i) f (flush_slot i d f p pg s).
Proof.
  intros Hd Hf Hp Hv Hpn Hh Hpg. simpl. unfold bind at 1. unfold desc_at.
  rewrite Hd. unfold bind at 1. rewrite bool_decide_eq_true_2 by done.
  rewrite Hp, Hv. simpl.
  unfold flush_slot, bind, page_at, writePage_via, file_writePage, put_desc,
    hashTable_remove, ht_remove, ret.
  rewrite Hf, Hpn. destruct (dirty d); simpl.
  - rewrite Hpg. simpl. rewrite Hh. f_equal.
    unfold set_desc, set_bufDescTable, set_hashTable; simpl.
    by rewrite list_insert_insert_eq.
  - by rewrite Hh.
Qed.

Lemma flush_writes_ext n i f t t' pl :
  (∀ j, i ≤ j → t !! j = t' !! j) →
  flush_writes n i f t pl = flush_writes n i f t' pl.
Proof.
  revert i. induction n as [|n IH]; intros i Ht; [done|]. simpl.
  rewrite (Ht i) by lia. f_equal. apply IH. intros j Hj. apply Ht. lia.
Qed.

Lemma wf_flush_slot s i d f p pg :
  wf s → bufDescTable s !! i = Some d → wf (flush_slot i d f p pg s).
Proof.
  intros Hwf Hd. unfold flush_slot.
  destruct (dirty d); (eapply wf_set_desc; [|exact Hd|done]);
    by apply wf_set_hashTable.
Qed.

Lemma Inv_flush_slot s i d f p pg :
  wf s → Inv s → bufDescTable s !! i = Some d → valid d = true →
  file d = Some f → pageNo d = Some p → Inv (flush_slot i d f p pg s).
Proof.
  intros Hwf HI Hd Hv Hf Hp.
  eapply Inv_ext; [| |exact (Inv_evict s i d f p Hwf HI Hd Hv Hf Hp)];
    unfold flush_slot; by destruct (dirty d).
Qed.

(** A frame of file [f] is valid, in a state that satisfies the
    invariant. *)
Lemma Inv_owned s i d f :
  wf s → Inv s → bufDescTable s !! i = Some d → file d = Some f →
  valid d = true ∧ ∃ p, pageNo d = Some p ∧ hashTable s !! (f, p) = Some i.
Proof.
  intros Hwf HI Hd Hf. destruct (valid d) eqn:Hv.
  - split; [done|].
    destruct (Inv_complete s i d Hwf HI Hd Hv) as (f' & p & ? & ? & ?).
    exists p. split; [done|]. congruence.
  - rewrite (Inv_empty s i d HI Hd Hv) in Hf. done.
Qed.

Lemma flushFile_loop_ok n i f s :
  wf s → Inv s → i + n = numBufs s →
  (∀ j d, i ≤ j → bufDescTable s !! j = Some d → file d = Some f →
          pinCnt d = 0) →
  ∃ s', flushFile_loop n i f s = (s', Ok tt) ∧ wf s' ∧ Inv s' ∧
    numBufs s' = numBufs s ∧ bufPool s' = bufPool s ∧
    clockHand s' = clockHand s ∧
    (∀ j d, bufDescTable s !! j = Some d →
       bufDescTable s' !! j =
       Some (if decide (i ≤ j ∧ file d = Some f) then Clear d else d)) ∧
    (∀ k, hashTable s' !! k =
       match hashTable s !! k with
       | Some j => if decide (i ≤ j ∧ k.1 = f) then None else Some j
       | None => None
       end) ∧
    io s' = io s ++ flush_writes n i f (bufDescTable s) (bufPool s).
Proof.
  revert i s. induction n as [|n IH]; intros i s Hwf HI Hn Hpin.
  { exists s. simpl. split_and!; try done.
    - intros j d Hd. rewrite decide_False; [done|].
      intros [? _]. apply (wf_desc_lt s j d Hwf) in Hd. lia.
    - intros [kf kp]. destruct (hashTable s !! (kf, kp)) as [j|] eqn:Hk; [|done].
      rewrite decide_False; [done|]. intros [? _].
      destruct (Inv_sound s kf kp j HI Hk) as (d & Hd & _).
      apply (wf_desc_lt s j d Hwf) in Hd. lia.
    - by rewrite app_nil_r. }
  destruct (wf_desc s i Hwf) as [d Hd]; [lia|].
  destruct (decide (file d = Some f)) as [Hf|Hf].
  - destruct (Inv_owned s i d f Hwf HI Hd Hf) as (Hv & p & Hp & Hh).
    destruct (wf_page s i Hwf) as [pg Hpg]; [lia|].
    pose proof (Hpin i d ltac:(lia) Hd Hf) as Hz.
    rewrite (flush_step_ok n i f s d p pg i) by done.
    set (s2 := flush_slot i d f p pg s).
    assert (∀ j, j ≠ i → bufDescTable s2 !! j = bufDescTable s !! j) as Ht2.
    { intros j Hj. unfold s2, flush_slot; simpl.
      rewrite list_lookup_insert_ne by done. by destruct (dirty d). }
    assert (bufDescTable s2 !! i = Some (Clear d)) as Ht2i.
    { unfold s2, flush_slot; simpl.
      rewrite list_lookup_insert_eq; [done|].
      destruct (dirty d); by eapply lookup_lt_Some. }
    assert (hashTable s2 = delete (f, p) (hashTable s)) as Hh2
      by (unfold s2, flush_slot; by destruct (dirty d)).
    assert (numBufs s2 = numBufs s ∧ bufPool s2 = bufPool s ∧
            clockHand s2 = clockHand s) as (Hn2 & Hp2 & Hc2)
      by (unfold s2, flush_slot; by destruct (dirty d)).
    assert (io s2 = io s ++ if dirty d then [EvWrite f pg] else []) as Hio2.
    { unfold s2, flush_slot. destruct (dirty d); simpl; [done|].
      by rewrite app_nil_r. }
    destruct (IH (S i) s2) as (s' & Hl & Hwf' & HI' & Hn' & Hp' & Hc' & Ht' & Hh' & Hio').
    { by apply wf_flush_slot. }
    { by apply Inv_flush_slot. }
    { rewrite Hn2. lia. }
    { intros j dj Hj Hdj. rewrite Ht2 in Hdj by lia.
      apply (Hpin j dj); [lia|done]. }
    exists s'. split_and!; try congruence.
    + intros j dj Hdj. destruct (decide (j = i)) as [->|Hne].
      * assert (dj = d) as -> by congruence.
        rewrite (Ht' i (Clear d) Ht2i). f_equal.
        rewrite decide_False by (intros [? _]; lia).
        by rewrite decide_True.
      * rewrite (Ht' j dj) by (by rewrite Ht2). f_equal.
        destruct (decide (S i ≤ j ∧ file dj = Some f)) as [[? ?]|Hno].
        -- by rewrite decide_True by (split; [lia|done]).
        -- rewrite decide_False; [done|]. intros [? ?]. apply Hno.
           split; [lia|done].
    + intros k. rewrite Hh', Hh2.
      destruct (decide (k = (f, p))) as [->|Hne].
      * rewrite lookup_delete_eq, Hh. by rewrite decide_True.
      * rewrite lookup_delete_ne by done.
        destruct (hashTable s !! k) as [j|] eqn:Hk; [|done].
        assert (j ≠ i) as Hji.
        { intros ->. destruct k as [kf kp].
          destruct (Inv_sound s kf kp i HI Hk) as (d' & ? & _ & ? & ?).
          apply Hne. f_equal; congruence. }
        destruct (decide (S i ≤ j ∧ k.1 = f)) as [[? ?]|Hno].
        -- by rewrite decide_True by (split; [lia|done]).
        -- rewrite decide_False; [done|]. intros [? ?]. apply Hno.
           split; [lia|done].
    + rewrite Hio', Hio2, Hp2. simpl. rewrite Hd, Hpg.
      rewrite bool_decide_eq_true_2 by done. simpl.
      rewrite <- app_assoc. f_equal. f_equal.
      apply flush_writes_ext. intros j Hj. apply Ht2. lia.
  - rewrite (flush_step_other n i f s d) by done.
    destruct (IH (S i) s) as (s' & Hl & Hwf' & HI' & Hn' & Hp' & Hc' & Ht' & Hh' & Hio');
      [done|done|lia|intros j dj ? ? ?; apply (Hpin j dj); [lia|done|done]|].
    exists s'. split_and!; try done.
    + intros j dj Hdj. rewrite (Ht' j dj Hdj). f_equal.
      destruct (decide (S i ≤ j ∧ file dj = Some f)) as [[? ?]|Hno].
      * by rewrite decide_True by (split; [lia|done]).
      * rewrite decide_False; [done|]. intros [? ?]. apply Hno.
        split; [|done]. destruct (decide (j = i)) as [->|]; [congruence|lia].
    + intros k. rewrite Hh'.
      destruct (hashTable s !! k) as [j|] eqn:Hk; [|done].
      destruct (decide (S i ≤ j ∧ k.1 = f)) as [[? ?]|Hno].
      * by rewrite decide_True by (split; [lia|done]).
      * rewrite decide_False; [done|]. intros [? ?]. apply Hno.
        split; [|done]. destruct (decide (j = i)) as [->|]; [|lia].
        destruct k as [kf kp].
        destruct (Inv_sound s kf kp i HI Hk) as (d' & ? & _ & ? & ?).
        simpl in *. congruence.
    + rewrite Hio'. simpl. rewrite Hd.
      rewrite bool_decide_eq_false_2 by done. simpl.
      by destruct (bufPool s !! i).
Qed.

(** A pinned frame of the file stops the flush at the first such frame
    [m]; the frames of the file below [m] have been flushed by then and
    nothing else has changed. *)
Lemma flushFile_loop_pinned n i f s :
  wf s → Inv s → i + n = numBufs s →
  (∃ j d, i ≤ j ∧ bufDescTable s !! j = Some d ∧ file d = Some f ∧
          pinCnt d ≠ 0) →
  ∃ s' m dm, flushFile_loop n i f s = (s', Throw PagePinnedException) ∧
    wf s' ∧ Inv s' ∧ numBufs s' = numBufs s ∧ bufPool s' = bufPool s ∧
    clockHand s' = clockHand s ∧
    i ≤ m ∧ bufDescTable s !! m = Some dm ∧ file dm = Some f ∧
    pinCnt dm ≠ 0 ∧
    (∀ j d, bufDescTable s !! j = Some d →
       bufDescTable s' !! j =
       Some (if decide (i ≤ j < m ∧ file d = Some f) then Clear d else d)) ∧
    (∀ k, hashTable s' !! k =
       match hashTable s !! k with
       | Some j => if decide (i ≤ j < m ∧ k.1 = f) then None else Some j
       | None => None
       end) ∧
    io s' = io s ++ flush_writes (m - i) i f (bufDescTable s) (bufPool s) ∧
    (∀ j d, i ≤ j < m → bufDescTable s !! j = Some d → file d = Some f →
       pinCnt d = 0).
Proof.
  revert i s. induction n as [|n IH];
    intros i s Hwf HI Hn (j0 & dj0 & Hj0 & Hdj0 & Hfj0 & Hpj0).
  { apply (wf_desc_lt s j0 dj0 Hwf) in Hdj0. lia. }
  destruct (wf_desc s i Hwf) as [d Hd]; [lia|].
  destruct (decide (file d = Some f)) as [Hf|Hf].
  - destruct (decide (pinCnt d = 0)) as [Hz|Hnz].
    2:{ exists s, i, d. rewrite (flush_step_pinned n i f s d) by done.
        split_and!; try done.
        - intros j dj Hdj. by rewrite decide_False by lia.
        - intros k. destruct (hashTable s !! k); [|done].
          by rewrite decide_False by lia.
        - by rewrite Nat.sub_diag, app_nil_r.
        - intros j dj Hj. lia. }
    destruct (Inv_owned s i d f Hwf HI Hd Hf) as (Hv & p & Hp & Hh).
    destruct (wf_page s i Hwf) as [pg Hpg]; [lia|].
    rewrite (flush_step_ok n i f s d p pg i) by done.
    assert (j0 ≠ i) as Hji by (intros ->; congruence).
    set (s2 := flush_slot i d f p pg s).
    assert (∀ j, j ≠ i → bufDescTable s2 !! j = bufDescTable s !! j) as Ht2.
    { intros j Hj. unfold s2, flush_slot; simpl.
      rewrite list_lookup_insert_ne by done. by destruct (dirty d). }
    assert (bufDescTable s2 !! i = Some (Clear d)) as Ht2i.
    { unfold s2, flush_slot; simpl.
      rewrite list_lookup_insert_eq; [done|].
      destruct (dirty d); by eapply lookup_lt_Some. }
    assert (hashTable s2 = delete (f, p) (hashTable s)) as Hh2
      by (unfold s2, flush_slot; by destruct (dirty d)).
    assert (numBufs s2 = numBufs s ∧ bufPool s2 = bufPool s ∧
            clockHand s2 = clockHand s) as (Hn2 & Hp2 & Hc2)
      by (unfold s2, flush_slot; by destruct (dirty d)).
    assert (io s2 = io s ++ if dirty d then [EvWrite f pg] else []) as Hio2.
    { unfold s2, flush_slot. destruct (dirty d); simpl; [done|].
      by rewrite app_nil_r. }
    destruct (IH (S i) s2)
      as (s' & m & dm & Hl & Hwf' & HI' & Hn' & Hp' & Hc' & Hm & Hdm & Hfm
          & Hpm & Ht' & Hh' & Hio' & Hfirst').
    { by apply wf_flush_slot. }
    { by apply Inv_flush_slot. }
    { rewrite Hn2. lia. }
    { exists j0, dj0. split_and!; [lia| |done|done]. by rewrite Ht2. }
    rewrite Ht2 in Hdm by lia.
    exists s', m, dm. split_and!; try congruence; try lia.
    + intros j dj Hdj. destruct (decide (j = i)) as [->|Hne].
      * assert (dj = d) as -> by congruence.
        rewrite (Ht' i (Clear d) Ht2i). f_equal.
        rewrite decide_False by (intros [? _]; lia).
        by rewrite decide_True by (split; [lia|done]).
      * rewrite (Ht' j dj) by (by rewrite Ht2). f_equal.
        destruct (decide (S i ≤ j < m ∧ file dj = Some f)) as [[? ?]|Hno].
        -- by rewrite decide_True by (split; [lia|done]).
        -- rewrite decide_False; [done|]. intros [? ?]. apply Hno.
           split; [lia|done].
    + intros k. rewrite Hh', Hh2.
      destruct (decide (k = (f, p))) as [->|Hne].
      * rewrite lookup_delete_eq, Hh.
        by rewrite decide_True by (split; [lia|done]).
      * rewrite lookup_delete_ne by done.
        destruct (hashTable s !! k) as [j|] eqn:Hk; [|done].
        assert (j ≠ i) as Hji'.
        { intros ->. destruct k as [kf kp].
          destruct (Inv_sound s kf kp i HI Hk) as (d' & ? & _ & ? & ?).
          apply Hne. f_equal; congruence. }
        destruct (decide (S i ≤ j < m ∧ k.1 = f)) as [[? ?]|Hno].
        -- by rewrite decide_True by (split; [lia|done]).
        -- rewrite decide_False; [done|]. intros [? ?]. apply Hno.
           split; [lia|done].
    + rewrite Hio', Hio2, Hp2.
      replace (m - i) with (S (m - S i)) by lia. simpl. rewrite Hd, Hpg.
      rewrite bool_decide_eq_true_2 by done. simpl.
      rewrite <- app_assoc. f_equal. f_equal.
      apply flush_writes_ext. intros j Hj. apply Ht2. lia.
    + intros j dj Hj Hdj Hfj. destruct (decide (j = i)) as [->|Hne].
      * congruence.
      * apply (Hfirst' j dj); [lia| |done]. by rewrite Ht2.
  - rewrite (flush_step_other n i f s d) by done.
    destruct (IH (S i) s)
      as (s' & m & dm & Hl & Hwf' & HI' & Hn' & Hp' & Hc' & Hm & Hdm & Hfm
          & Hpm & Ht' & Hh' & Hio' & Hfirst'); [done|done|lia| |].
    { exists j0, dj0. split_and!; try done.
      destruct (decide (j0 = i)) as [->|]; [congruence|lia]. }
    exists s', m, dm. split_and!; try done; try lia.
    + intros j dj Hdj. rewrite (Ht' j dj Hdj). f_equal.
      destruct (decide (S i ≤ j < m ∧ file dj = Some f)) as [[? ?]|Hno].
      * by rewrite decide_True by (split; [lia|done]).
      * rewrite decide_False; [done|]. intros [? ?]. apply Hno.
        split; [|done]. destruct (decide (j = i)) as [->|]; [congruence|lia].
    + intros k. rewrite Hh'.
      destruct (hashTable s !! k) as [j|] eqn:Hk; [|done].
      destruct (decide (S i ≤ j < m ∧ k.1 = f)) as [[? ?]|Hno].
      * by rewrite decide_True by (split; [lia|done]).
      * rewrite decide_False; [done|]. intros [? ?]. apply Hno.
        split; [|done]. destruct (decide (j = i)) as [->|]; [|lia].
        destruct k as [kf kp].
        destruct (Inv_sound s kf kp i HI Hk) as (d' & ? & _ & ? & ?).
        simpl in *. congruence.
    + rewrite Hio'. replace (m - i) with (S (m - S i)) by lia. simpl.
      rewrite Hd. rewrite bool_decide_eq_false_2 by done. simpl.
      by destruct (bufPool s !! i).
    + intros j dj Hj Hdj Hfj. destruct (decide (j = i)) as [->|Hne].
      * congruence.
      * apply (Hfirst' j dj); [lia|done|done].
Qed.

(** Without a frame of the file the flush does nothing. *)
Lemma flushFile_loop_none n i f s :
  i + n ≤ length (bufDescTable s) →
  (∀ j d, i ≤ j → bufDescTable s !! j = Some d → file d ≠ Some f) →
  flushFile_loop n i f s = (s, Ok tt).
Proof.
  revert i. induction n as [|n IH]; intros i Hn Hno; [done|].
  destruct (lookup_lt_is_Some_2 (bufDescTable s) i) as [d Hd]; [lia|].
  rewrite (flush_step_other n i f s d); [|done|by eapply Hno].
  apply IH; [lia|]. intros j dj Hj. apply Hno. lia.
Qed.

(** The first frame of the file, when unpinned and invalid, makes the
    flush fail with [BadBufferException]. *)
Lemma flushFile_loop_invalid n i f s m d :
  i ≤ m → m < i + n → i + n ≤ length (bufDescTable s) →
  (∀ j dj, i ≤ j < m → bufDescTable s !! j = Some dj → file dj ≠ Some f) →
  bufDescTable s !! m = Some d → file d = Some f → pinCnt d = 0 →
  valid d = false →
  flushFile_loop n i f s = (s, Throw BadBufferException).
Proof.
  revert i. induction n as [|n IH]; intros i Him Hmn Hn Hno Hd Hf Hp Hv; [lia|].
  destruct (decide (i = m)) as [->|Hne].
  - by apply flush_step_invalid with d.
  - destruct (lookup_lt_is_Some_2 (bufDescTable s) i) as [di Hdi]; [lia|].
    rewrite (flush_step_other n i f s di); [|done|eapply Hno; [|done]; lia].
    apply IH; try done; try lia. intros j dj Hj. apply Hno. lia.
Qed.

Lemma flushFile_unfold f s :
  flushFile f s = flushFile_loop (numBufs s) 0 f s.
Proof. done. Qed.

Lemma flushFile_post s f s' r :
  wf s → Inv s → flushFile f s = (s', r) →
  wf s' ∧ Inv s' ∧ numBufs s' = numBufs s ∧ r ≠ Abort.
Proof.
  intros Hwf HI Hr. rewrite flushFile_unfold in Hr.
  destruct (decide (Exists (λ d, file d = Some f ∧ pinCnt d ≠ 0)
                      (bufDescTable s))) as [Hex|Hno].
  - apply Exists_exists in Hex as (d & Hin & Hf & Hp).
    apply list_elem_of_lookup in Hin as [j Hj].
    destruct (flushFile_loop_pinned (numBufs s) 0 f s Hwf HI)
      as (s1 & m & dm & Hl & ? & ? & ? & _); [done| |].
    { exists j, d. split_and!; [lia|done..]. }
    rewrite Hl in Hr. by injection Hr as <- <-.
  - destruct (flushFile_loop_ok (numBufs s) 0 f s Hwf HI)
      as (s1 & Hl & ? & ? & ? & _); [done| |].
    { intros j d _ Hd Hf. destruct (decide (pinCnt d = 0)); [done|].
      exfalso. apply Hno, Exists_exists. exists d. split; [|done].
      apply list_elem_of_lookup. by exists j. }
    rewrite Hl in Hr. by injection Hr as <- <-.
Qed.
End flush.

(** ** Dispose and allocate *)

Section dispose_alloc.
Implicit Types (s : State) (d : BufDesc) (i j n : nat).

Lemma dispose_step_other n i f p s d :
  bufDescTable s !! i = Some d →
  ¬ (file d = Some f ∧ pageNo d = Some p) →
  disposePage_loop (S n) i f p s = disposePage_loop n (S i) f p s.
Proof.
  intros Hd Hno. simpl. unfold bind at 1. unfold desc_at. rewrite Hd.
  unfold bind at 1. case_bool_decide as Hf; [|done].
  case_bool_decide as Hp; [|done]. by destruct Hno.
Qed.

Lemma dispose_step_pinned n i f p s d :
  bufDescTable s !! i = Some d → file d = Some f → pageNo d = Some p →
  0 < pinCnt d →
  disposePage_loop (S n) i f p s = (s, Throw PagePinnedException).
Proof.
  intros Hd Hf Hp Hpin. simpl. unfold bind at 1. unfold desc_at. rewrite Hd.
  unfold bind at 1. rewrite !bool_decide_eq_true_2 by done.
  by destruct (Nat.ltb_spec 0 (pinCnt d)); [|lia].
Qed.

Lemma dispose_step_ok n i f p s d j :
  bufDescTable s !! i = Some d → file d = Some f → pageNo d = Some p →
  pinCnt d = 0 → hashTable s !! (f, p) = Some j →
  disposePage_loop (S n) i f p s =
  disposePage_loop n (S i) f p
    (set_hashTable (delete (f, p) (hashTable s)) (set_desc i (Clear d) s)).
Proof.
  intros Hd Hf Hp Hpin Hh. simpl. unfold bind at 1. unfold desc_at.
  rewrite Hd. unfold bind at 1. rewrite !bool_decide_eq_true_2 by done.
  rewrite Hpin. simpl.
  unfold bind, put_desc, hashTable_remove, ht_remove. simpl. by rewrite Hh.
Qed.

Lemma disposePage_loop_none n i f p s :
  i + n ≤ length (bufDescTable s) →
  (∀ j d, i ≤ j → bufDescTable s !! j = Some d →
          ¬ (file d = Some f ∧ pageNo d = Some p)) →
  disposePage_loop n i f p s = (s, Ok tt).
Proof.
  revert i. induction n as [|n IH]; intros i Hn Hno; [done|].
  destruct (lookup_lt_is_Some_2 (bufDescTable s) i) as [d Hd]; [lia|].
  rewrite (dispose_step_other n i f p s d); [|done|by eapply Hno].
  apply IH; [lia|]. intros j dj Hj. apply Hno. lia.
Qed.

(** With exactly one frame [m] holding the page, the loop throws there
    when the frame is pinned and otherwise empties it and drops its
    entry. *)
Lemma disposePage_loop_hit n i f p s m d :
  i ≤ m → m < i + n → i + n ≤ length (bufDescTable s) →
  bufDescTable s !! m = Some d → file d = Some f → pageNo d = Some p →
  (∀ j dj, i ≤ j → j ≠ m → bufDescTable s !! j = Some dj →
           ¬ (file dj = Some f ∧ pageNo dj = Some p)) →
  is_Some (hashTable s !! (f, p)) →
  disposePage_loop n i f p s =
  if 0 <? pinCnt d then (s, Throw PagePinnedException)
  else (set_hashTable (delete (f, p) (hashTable s)) (set_desc m (Clear d) s),
        Ok tt).
Proof.
  revert i. induction n as [|n IH]; intros i Him Hmn Hn Hd Hf Hp Hno [j Hh]; [lia|].
  destruct (decide (i = m)) as [->|Hne].
  - destruct (Nat.ltb_spec 0 (pinCnt d)).
    + by apply dispose_step_pinned with d.
    + rewrite (dispose_step_ok n m f p s d j) by (done || lia).
      apply disposePage_loop_none; simpl.
      * rewrite length_insert. lia.
      * intros j' dj Hj' Hdj. rewrite list_lookup_insert_ne in Hdj by lia.
        apply (Hno j' dj); [lia|lia|done].
  - destruct (lookup_lt_is_Some_2 (bufDescTable s) i) as [di Hdi]; [lia|].
    rewrite (dispose_step_other n i f p s di); [|done|by apply (Hno i di)].
    apply IH; try done; try lia. intros j' dj Hj'. apply Hno. lia.
Qed.

Lemma disposePage_unfold f p s :
  disposePage f p s =
  match disposePage_loop (numBufs s) 0 f p s with
  | (s', Ok _) => file_deletePage f p s'
  | (s', Throw e) => (s', Throw e)
  | (s', Abort) => (s', Abort)
  end.
Proof. unfold disposePage, bind, get_numBufs. by destruct (disposePage_loop _ _ _ _ _) as [? [[]| |]]. Qed.

(** The page is not cached: only the file is told to delete it. *)
Lemma disposePage_absent s f p :
  wf s → Inv s → hashTable s !! (f, p) = None →
  disposePage f p s = file_deletePage f p s.
Proof.
  intros Hwf HI Hh. rewrite disposePage_unfold.
  rewrite disposePage_loop_none; [done|destruct Hwf as (_ & -> & _); lia|].
  intros j d _ Hd [Hf Hp].
  destruct (Inv_owned s j d f Hwf HI Hd Hf) as (_ & p' & ? & ?). congruence.
Qed.

(** The page is cached in frame [m]. *)
Lemma disposePage_cached s f p m :
  wf s → Inv s → hashTable s !! (f, p) = Some m →
  ∃ d, bufDescTable s !! m = Some d ∧ valid d = true ∧
       file d = Some f ∧ pageNo d = Some p ∧
    disposePage f p s =
    if 0 <? pinCnt d then (s, Throw PagePinnedException)
    else file_deletePage f p
           (set_hashTable (delete (f, p) (hashTable s))
              (set_desc m (Clear d) s)).
Proof.
  intros Hwf HI Hh.
  destruct (Inv_sound s f p m HI Hh) as (d & Hd & Hv & Hf & Hp).
  exists d. split_and!; try done. rewrite disposePage_unfold.
  rewrite (disposePage_loop_hit (numBufs s) 0 f p s m d); try done.
  - by destruct (0 <? pinCnt d).
  - lia.
  - simpl. by eapply wf_desc_lt.
  - destruct Hwf as (_ & -> & _). lia.
  - intros j dj _ Hne Hdj [Hfj Hpj].
    destruct (Inv_owned s j dj f Hwf HI Hdj Hfj) as (_ & p' & ? & ?).
    congruence.
Qed.

Lemma disposePage_post s f p s' r :
  wf s → Inv s → disposePage f p s = (s', r) →
  wf s' ∧ Inv s' ∧ numBufs s' = numBufs s ∧ r ≠ Abort.
Proof.
  intros Hwf HI Hr. destruct (hashTable s !! (f, p)) as [m|] eqn:Hh.
  - destruct (disposePage_cached s f p m Hwf HI Hh)
      as (d & Hd & Hv & Hf & Hp & He).
    rewrite He in Hr. destruct (0 <? pinCnt d).
    + by injection Hr as <- <-.
    + injection Hr as <- <-. split_and!; [| |done|done].
      * apply wf_set_world. apply wf_set_hashTable. by eapply wf_set_desc.
      * eapply Inv_ext; [| |exact (Inv_evict s m d f p Hwf HI Hd Hv Hf Hp)];
          done.
  - rewrite disposePage_absent in Hr by done.
    injection Hr as <- <-. split_and!; first [done | by eapply Inv_ext].
Qed.

Lemma allocPage_post s f s' r :
  wf s → Inv s → allocPage f s = (s', r) →
  wf s' ∧ Inv s' ∧ numBufs s' = numBufs s ∧ r ≠ Abort.
Proof.
  intros Hwf HI Hr. unfold allocPage in Hr.
  unfold bind at 1 in Hr. unfold file_allocatePage in Hr.
  set (s0 := set_world _ _ s) in Hr. set (newPage := mkPage _ _) in Hr.
  assert (wf s0) as Hwf0 by (by apply wf_set_world).
  assert (Inv s0) as HI0 by (by eapply Inv_ext).
  unfold bind at 1 in Hr. destruct (allocBuf s0) as [s1 r1] eqn:Ha.
  destruct (allocBuf_post s0 s1 r1 Hwf0 HI0 Ha)
    as (Hwf1 & HI1 & Hn1 & Hp1 & Hsub & Hr1).
  destruct r1 as [c|e|]; [|by injection Hr as <- <-|done].
  destruct Hr1 as (Hc & Hhand & d & Hd & Hcl).
  unfold bind, set_page, page_at, hashTable_insert, ht_insert, desc_at,
    put_desc, ret in Hr. simpl in Hr.
  assert (c < length (bufPool s1)) as Hcl1
    by (destruct Hwf1 as (_ & _ & -> & _); lia).
  rewrite list_lookup_insert_eq in Hr by done. simpl in Hr.
  assert (wf (set_bufPool (<[c := newPage]> (bufPool s1)) s1)) as Hwf2
    by (by apply wf_set_bufPool).
  destruct (hashTable s1 !! (f, fresh_page f (disk s))) as [j|] eqn:Hh1.
  { injection Hr as <- <-. split_and!; first [done | by eapply Inv_ext]. }
  simpl in Hr. rewrite Hd in Hr. injection Hr as <- <-.
  split_and!; [| |done|done].
  - eapply wf_set_desc; [|exact Hd|done]. by apply wf_set_hashTable.
  - assert (valid d = false) as Hv by (by rewrite Hcl).
    eapply Inv_ext;
      [| |exact (Inv_install s1 c d f _ Hwf1 HI1 Hd Hh1
                   (Inv_invalid_free s1 c d HI1 Hd Hv))]; done.
Qed.
End dispose_alloc.

(** ** The sweep, visit by visit *)

Section visits.
Implicit Types (s : State) (d : BufDesc) (i j k : nat).

Lemma skip_step_table s d :
  bufDescTable s !! pos s 1 = Some d →
  bufDescTable (skip_step s) =
  <[pos s 1 := with_refbit false d]> (bufDescTable s).
Proof.
  intros Hd. unfold skip_step; simpl. fold (pos s 1). by rewrite Hd.
Qed.

(** [k] visits that move on, each judged on the state the sweep has
    reached by then. *)
Lemma loop_skips k fuel st s :
  wf s →
  (∀ j, j < k →
     ∃ dj, bufDescTable (Nat.iter j skip_step s) !! pos s (S j) = Some dj ∧
           usable dj = false ∧ (refbit dj = true ∨ st ≠ pos s (S j))) →
  allocBuf_loop (k + fuel) st s =
  allocBuf_loop fuel st (Nat.iter k skip_step s).
Proof.
  intros Hwf. revert fuel. induction k as [|k IH]; intros fuel Hs; [done|].
  replace (S k + fuel) with (k + S fuel) by lia.
  rewrite IH by (intros j Hj; apply Hs; lia).
  destruct (Hs k ltac:(lia)) as (d & Hd & Hu & Hc).
  destruct (iter_fields k s Hwf) as (_ & _ & _ & _ & _ & _ & _ & Hp).
  simpl. apply loop_skip with d; rewrite ?Hp;
    replace (k + 1) with (S k) by lia; done.
Qed.

(** Among the first [m] visits, the sweep moves on until it meets a
    usable frame or, unreferenced and pinned, the frame it started
    from. *)
Lemma sweep_trace m st s :
  wf s →
  ∃ k, k ≤ m ∧
    (∀ j, j < k →
       ∃ dj, bufDescTable (Nat.iter j skip_step s) !! pos s (S j) = Some dj ∧
             usable dj = false ∧ (refbit dj = true ∨ st ≠ pos s (S j))) ∧
    (k = m ∨
     ∃ d, bufDescTable (Nat.iter k skip_step s) !! pos s (S k) = Some d ∧
          (usable d = true ∨
           (usable d = false ∧ refbit d = false ∧ st = pos s (S k)))).
Proof.
  intros Hwf. induction m as [|m (k & Hk & Hs & Hstop)].
  { exists 0. split_and!; [lia| |by left]. intros j Hj. lia. }
  destruct Hstop as [->|Hstop].
  2:{ exists k. split_and!; [lia|done|by right]. }
  destruct (iter_fields m s Hwf) as (Hwfm & Hnm & _).
  destruct (wf_desc (Nat.iter m skip_step s) (pos s (S m)) Hwfm) as [d Hd].
  { rewrite Hnm. by apply pos_lt. }
  assert (∀ j, j < S m → j ≠ m → j < m) as Hlt by lia.
  destruct (usable d) eqn:Hu.
  { exists m. split_and!; [lia|done|]. right. exists d. split; [done|].
    by left. }
  destruct (refbit d) eqn:Hr.
  { exists (S m). split_and!; [lia| |by left].
    intros j Hj. destruct (decide (j = m)) as [->|Hne]; [|by apply Hs, Hlt].
    exists d. split_and!; [done|done|by left]. }
  destruct (decide (st = pos s (S m))) as [He|Hne].
  { exists m. split_and!; [lia|done|]. right. exists d. split; [done|].
    by right. }
  exists (S m). split_and!; [lia| |by left].
  intros j Hj. destruct (decide (j = m)) as [->|Hne']; [|by apply Hs, Hlt].
  exists d. split_and!; [done|done|by right].
Qed.

(** Every call of [allocBuf] is a run of visits that move on, followed
    by one visit that ends the sweep: at a usable frame, or back at the
    starting frame, found unreferenced and pinned. *)
Lemma allocBuf_visits s :
  wf s → Inv s →
  ∃ k d, k < 2 * numBufs s ∧
    (∀ j, j < k →
       ∃ dj, bufDescTable (Nat.iter j skip_step s) !! pos s (S j) = Some dj ∧
             usable dj = false ∧
             (refbit dj = true ∨ clockHand s ≠ pos s (S j))) ∧
    bufDescTable (Nat.iter k skip_step s) !! pos s (S k) = Some d ∧
    ((usable d = true ∧
      allocBuf_loop (2 * numBufs s) (clockHand s) s =
        finish d (advanceClock (Nat.iter k skip_step s))) ∨
     (usable d = false ∧ refbit d = false ∧ clockHand s = pos s (S k) ∧
      allocBuf s =
        (advanceClock (Nat.iter k skip_step s),
         Throw BufferExceededException))).
Proof.
  intros Hwf HI.
  destruct (sweep_trace (2 * numBufs s) (clockHand s) s Hwf)
    as (k & Hk & Hs & Hstop).
  pose proof (loop_skips k (2 * numBufs s - k) (clockHand s) s Hwf Hs)
    as Hloop.
  replace (k + (2 * numBufs s - k)) with (2 * numBufs s) in Hloop by lia.
  assert (k < 2 * numBufs s) as Hlt.
  { destruct (decide (k = 2 * numBufs s)) as [He|]; [|lia]. exfalso.
    rewrite He, Nat.sub_diag in Hloop.
    pose proof (allocBuf_unfold s) as Ha. rewrite Hloop in Ha.
    cbn [allocBuf_loop] in Ha. unfold abort in Ha.
    by destruct (allocBuf_post s _ _ Hwf HI Ha) as (_ & _ & _ & _ & _ & ?). }
  destruct Hstop as [->|(d & Hd & Hstop)]; [lia|].
  exists k, d. split_and!; [done|done|done|].
  destruct (iter_fields k s Hwf) as (_ & _ & _ & _ & _ & _ & _ & Hp).
  assert (pos (Nat.iter k skip_step s) 1 = pos s (S k)) as Hpos
    by (rewrite Hp; f_equal; lia).
  replace (2 * numBufs s - k) with (S (2 * numBufs s - S k)) in Hloop by lia.
  destruct Hstop as [Hu|(Hu & Hr & He)].
  - left. split; [done|]. rewrite Hloop.
    apply loop_usable; [|done]. by rewrite Hpos.
  - right. split_and!; [done..|].
    rewrite allocBuf_unfold, Hloop, He, <- Hpos.
    rewrite (loop_throw _ _ d); [done| |done|done]. by rewrite Hpos.
Qed.

(** The frame [allocBuf] hands out, seen from the state before the call:
    a frame of the pool that was invalid or unpinned; it is empty
    afterwards and no page is mapped to it; a valid victim has lost its
    index entry and, when dirty, has been written out; the other frames
    are as they were up to reference bits. *)
Lemma allocBuf_frame s s1 c :
  wf s → Inv s → allocBuf s = (s1, Ok c) →
  ∃ d0, c < numBufs s ∧ bufDescTable s !! c = Some d0 ∧
    (valid d0 = false ∨ pinCnt d0 = 0) ∧
    bufDescTable s1 !! c = Some (mkBufDesc c false false false 0 None None) ∧
    (∀ key, hashTable s1 !! key ≠ Some c) ∧
    (∀ j dj, j ≠ c → bufDescTable s !! j = Some dj →
       bufDescTable s1 !! j = Some dj ∨
       bufDescTable s1 !! j = Some (with_refbit false dj)) ∧
    bufPool s1 = bufPool s ∧ clockHand s1 = c ∧
    if valid d0 then
      ∃ fv pv, file d0 = Some fv ∧ pageNo d0 = Some pv ∧
        hashTable s1 = delete (fv, pv) (hashTable s) ∧
        if dirty d0 then
          ∃ pg0, bufPool s !! c = Some pg0 ∧
            io s1 = io s ++ [EvWrite fv pg0] ∧
            disk s1 = <[(fv, page_number pg0) := pg0]> (disk s)
        else io s1 = io s ∧ disk s1 = disk s
    else hashTable s1 = hashTable s ∧ io s1 = io s ∧ disk s1 = disk s.
Proof.
  intros Hwf HI Ha.
  destruct (allocBuf_post s s1 _ Hwf HI Ha)
    as (Hwf1 & HI1 & _ & _ & _ & Hc & _ & dc & Hdc & Hcl).
  destruct (allocBuf_spec s Hwf HI)
    as [(k & d & s' & Hd & Hu & Ha' & _ & Hhand & Hpool & Ht & Hrest)
       |(k & _ & Ha')];
    cbv zeta in *; rewrite Ha' in Ha; [|done].
  injection Ha as -> Hce. rewrite Hce in *.
  destruct (iter_fields k s Hwf) as (Hwfk & _).
  destruct (iter_refs_cleared k s) as [_ Hrc].
  destruct (wf_desc s c Hwf Hc) as [d0 Hd0].
  assert (valid d = valid d0 ∧ pinCnt d = pinCnt d0 ∧ dirty d = dirty d0 ∧
          file d = file d0 ∧ pageNo d = pageNo d0)
    as (Hv & Hp & Hdirty & Hf & Hpn).
  { destruct (Hrc c d0 Hd0) as [He|He]; rewrite He in Hd;
      by injection Hd as <-. }
  exists d0. split_and!; try done.
  - unfold usable in Hu. rewrite Hv, Hp in Hu.
    destruct (valid d0); [right|by left].
    destruct (refbit d); simpl in Hu; [done|]. by apply Nat.eqb_eq.
  - rewrite Ht, list_lookup_insert_eq by (by eapply lookup_lt_Some).
    unfold Clear. by rewrite (wf_frameNo _ c d Hwfk Hd).
  - intros [kf kp] Hk.
    destruct (Inv_sound s1 kf kp c HI1 Hk) as (d' & Hd' & Hv' & _).
    assert (d' = dc) as -> by congruence. by rewrite Hcl in Hv'.
  - intros j dj Hj Hdj. rewrite Ht, list_lookup_insert_ne by done.
    apply (Hrc j dj Hdj).
  - rewrite <- Hv, <- Hdirty, <- Hf, <- Hpn.
    destruct (valid d); [|by destruct Hrest as (? & ? & ?)].
    destruct Hrest as (fv & pv & ? & ? & _ & ? & Hrest).
    exists fv, pv. split_and!; try done.
    destruct (dirty d); [|by destruct Hrest].
    destruct Hrest as (pg0 & ? & ? & ?). by exists pg0.
Qed.

(** [allocBuf] throws from the exhausted states and from no other. *)
Lemma allocBuf_exhausted s :
  wf s → Inv s → exhausted s →
  ∃ s', allocBuf s = (s', Throw BufferExceededException) ∧
    bufPool s' = bufPool s ∧ hashTable s' = hashTable s ∧
    clockHand s' = clockHand s ∧ io s' = io s ∧ disk s' = disk s ∧
    refs_cleared (bufDescTable s) (bufDescTable s').
Proof.
  intros Hwf HI He.
  destruct (loop_exceeded_complete s Hwf He) as [s' Hl].
  assert (allocBuf s = (s', Throw BufferExceededException)) as Ha
    by (by rewrite allocBuf_unfold, Hl).
  exists s'. split; [done|].
  destruct (allocBuf_spec s Hwf HI)
    as [(k & d & s1 & _ & _ & Ha' & _)|(k & Hc & Ha')];
    cbv zeta in *; rewrite Ha' in Ha; [done|].
  injection Ha as <-.
  destruct (iter_fields k s Hwf) as (_ & ? & ? & ? & ? & ? & _).
  split_and!; try done. apply iter_refs_cleared.
Qed.

Lemma allocBuf_not_exhausted s :
  wf s → Inv s → ¬ exhausted s → ∃ s1 c, allocBuf s = (s1, Ok c).
Proof.
  intros Hwf HI Hne.
  destruct (allocBuf_spec s Hwf HI)
    as [(k & d & s1 & _ & _ & Ha & _)|(k & _ & Ha)]; cbv zeta in *.
  { by eexists _, _. }
  exfalso. apply Hne. rewrite allocBuf_unfold in Ha.
  destruct (allocBuf_loop _ _ s) as [s1 [c|e|]] eqn:Hl;
    [|injection Ha as -> ->|done].
  - by destruct (bufDescTable s1 !! clockHand s1).
  - by eapply loop_exceeded_sound.
Qed.

(** From a state with a usable frame the sweep stops within the first
    turn, at the first usable frame the hand meets. *)
Lemma allocBuf_first_turn s j d :
  wf s → Inv s → 1 ≤ j ≤ numBufs s →
  bufDescTable s !! pos s j = Some d → usable d = true →
  (∀ j', 1 ≤ j' < j →
     ∃ d', bufDescTable s !! pos s j' = Some d' ∧ usable d' = false) →
  ∃ s', allocBuf s = (s', Ok (pos s j)) ∧
    bufDescTable s' !! pos s j = Some (Clear d) ∧
    (∀ j' d', 1 ≤ j' < j → bufDescTable s !! pos s j' = Some d' →
       bufDescTable s' !! pos s j' = Some (with_refbit false d')) ∧
    (∀ i, (∀ j', 1 ≤ j' ≤ j → pos s j' ≠ i) →
       bufDescTable s' !! i = bufDescTable s !! i) ∧
    (valid d = false → hashTable s' = hashTable s) ∧
    (valid d = true →
       ∃ f p, file d = Some f ∧ pageNo d = Some p ∧
         hashTable s !! (f, p) = Some (pos s j) ∧
         hashTable s' = delete (f, p) (hashTable s)).
Proof.
  intros Hwf HI Hj Hd Hu Hbefore.
  pose proof (sweep_first_usable j (2 * numBufs s - j) s d Hwf Hj Hbefore
                Hd Hu) as Hloop.
  replace (j + (2 * numBufs s - j)) with (2 * numBufs s) in Hloop by lia.
  destruct (iter_fields (j - 1) s Hwf) as (_ & _ & _ & _ & _ & _ & _ & Hp).
  assert (pos (Nat.iter (j - 1) skip_step s) 1 = pos s j) as Hpos
    by (rewrite Hp; f_equal; lia).
  assert (∀ j', 1 ≤ j' ≤ j - 1 → pos s j' ≠ pos s j) as Hne.
  { intros j' Hj' He. apply pos_inj in He; [lia|done|lia|lia]. }
  assert (bufDescTable (Nat.iter (j - 1) skip_step s) !! pos s j = Some d)
    as Hdk by (by rewrite iter_lookup_unvisited).
  destruct (allocBuf_finish s (j - 1) d Hwf HI)
    as (s' & Ha & _ & Hc & _ & Ht & Hrest); [by rewrite Hpos|done|done|].
  cbv zeta in *. rewrite Hpos in *.
  exists s'. split_and!; try done.
  - rewrite Ht. apply list_lookup_insert_eq. by eapply lookup_lt_Some.
  - intros j' d' Hj' Hd'. rewrite Ht.
    rewrite list_lookup_insert_ne by (apply not_eq_sym, Hne; lia).
    rewrite iter_lookup_visited by (done || lia). by rewrite Hd'.
  - intros i Hi. rewrite Ht.
    rewrite list_lookup_insert_ne by (apply Hi; lia).
    apply iter_lookup_unvisited; [done|]. intros j' Hj'. apply Hi. lia.
  - intros Hv. rewrite Hv in Hrest. by destruct Hrest.
  - intros Hv. rewrite Hv in Hrest.
    destruct Hrest as (f & p & Hf & Hpn & Hh0 & Hh & _).
    by exists f, p.
Qed.
End visits.

(** ** The constructor *)

Section constructor.
Lemma wf_new bufs dk : 0 < bufs → wf (BufMgr_new bufs dk).
Proof.
  intros Hb. unfold wf; simpl.
  rewrite length_fmap, length_seq, length_replicate.
  split_and!; [done|done|done|lia|].
  rewrite <- list_fmap_compose. apply list_fmap_id.
Qed.

Lemma Inv_new bufs dk : Inv (BufMgr_new bufs dk).
Proof.
  split; simpl; [apply map_Forall_empty|].
  apply Forall_fmap, Forall_forall. by intros i _.
Qed.
End constructor.

(** Closed instances of decidable statements, by evaluation. *)
Ltac by_eval :=
  lazymatch goal with
  | |- ?P => apply (bool_decide_eq_true_1 P); vm_compute; reflexivity
  end.

(** ** The operations, claim by claim *)

(** C2. Fetch.  On a hit (the index maps the page to frame [i]) [readPage]
    sets the frame's reference bit, adds one to its pin count, calls no file
    operation and returns that frame.  On a miss it asks the clock sweep
    for a frame.  From an exhausted state the sweep gives up and
    [readPage] passes [BufferExceededException] on, pool and index
    untouched.  From any other state the sweep hands out a frame [c] of
    the pool that was invalid or unpinned before the call: its old page,
    if it held one, has lost its index entry and has been written to its
    file when dirty; no page is mapped to [c]; the other frames are as they
    were, up to reference bits the sweep cleared.  [readPage] then reads
    the page from the file into the pool slot [c], enters the mapping in
    the index and sets the descriptor to valid, clean, unreferenced, pin
    count 1, with the file and page number; it returns [c]. *)
Theorem readPage_hit_miss s f p :
  wf s → Inv s →
  (∀ i, hashTable s !! (f, p) = Some i →
     ∃ d s', bufDescTable s !! i = Some d ∧
       readPage f p s = (s', Ok i) ∧
       bufDescTable s' !! i =
         Some (mkBufDesc (frameNo d) (valid d) (dirty d) true (pinCnt d + 1)
                 (file d) (pageNo d)) ∧
       (∀ j, j ≠ i → bufDescTable s' !! j = bufDescTable s !! j) ∧
       io s' = io s ∧ disk s' = disk s ∧ bufPool s' = bufPool s ∧
       hashTable s' = hashTable s ∧ clockHand s' = clockHand s) ∧
  (hashTable s !! (f, p) = None →
     (exhausted s →
        ∃ s', readPage f p s = (s', Throw BufferExceededException) ∧
          allocBuf s = (s', Throw BufferExceededException) ∧
          bufPool s' = bufPool s ∧ hashTable s' = hashTable s ∧
          clockHand s' = clockHand s ∧ io s' = io s ∧ disk s' = disk s ∧
          refs_cleared (bufDescTable s) (bufDescTable s')) ∧
     (¬ exhausted s →
        ∃ s1 c d0, allocBuf s = (s1, Ok c) ∧ c < numBufs s ∧
          bufDescTable s !! c = Some d0 ∧
          (valid d0 = false ∨ pinCnt d0 = 0) ∧
          bufDescTable s1 !! c =
            Some (mkBufDesc c false false false 0 None None) ∧
          (∀ key, hashTable s1 !! key ≠ Some c) ∧
          (∀ j dj, j ≠ c → bufDescTable s !! j = Some dj →
             bufDescTable s1 !! j = Some dj ∨
             bufDescTable s1 !! j = Some (with_refbit false dj)) ∧
          bufPool s1 = bufPool s ∧
          (if valid d0 then
             ∃ fv pv, file d0 = Some fv ∧ pageNo d0 = Some pv ∧
               hashTable s1 = delete (fv, pv) (hashTable s) ∧
               if dirty d0 then
                 ∃ pg0, bufPool s !! c = Some pg0 ∧
                   io s1 = io s ++ [EvWrite fv pg0] ∧
                   disk s1 = <[(fv, page_number pg0) := pg0]> (disk s)
               else io s1 = io s ∧ disk s1 = disk s
           else hashTable s1 = hashTable s ∧ io s1 = io s ∧
                disk s1 = disk s) ∧
          match disk s1 !! (f, p) with
          | Some pg =>
              ∃ s', readPage f p s = (s', Ok c) ∧
                io s' = io s1 ++ [EvRead f p] ∧ disk s' = disk s1 ∧
                bufPool s' = <[c := pg]> (bufPool s) ∧
                bufPool s' !! c = Some pg ∧
                hashTable s' = <[(f, p) := c]> (hashTable s1) ∧
                bufDescTable s' !! c =
                  Some (mkBufDesc c true false false 1 (Some f) (Some p)) ∧
                (∀ j, j ≠ c → bufDescTable s' !! j = bufDescTable s1 !! j) ∧
                clockHand s' = c
          | None =>
              readPage f p s =
              (log (EvRead f p) s1, Throw InvalidPageException)
          end)).
Proof.
  intros Hwf HI. split.
  - intros i Hh. destruct (Inv_sound s f p i HI Hh) as (d & Hd & _).
    exists d. eexists. split; [done|]. split; [by apply readPage_hit|].
    simpl. split_and!; try done.
    + apply list_lookup_insert_eq. by eapply lookup_lt_Some.
    + intros j Hj. by apply list_lookup_insert_ne.
  - intros Hh. split.
    + intros He.
      destruct (allocBuf_exhausted s Hwf HI He)
        as (s' & Ha & ? & ? & ? & ? & ? & ?).
      exists s'. split_and!; try done. by apply readPage_miss_fail.
    + intros Hne.
      destruct (allocBuf_not_exhausted s Hwf HI Hne) as (s1 & c & Ha).
      destruct (allocBuf_frame s s1 c Hwf HI Ha)
        as (d0 & Hc & Hd0 & Hfree & Hdc & Hnokey & Hothers & Hpool & Hhand
            & Hvictim).
      destruct (allocBuf_post s s1 _ Hwf HI Ha)
        as (Hwf1 & HI1 & Hn1 & _ & Hsub & _).
      exists s1, c, d0. split_and!; try done.
      destruct (disk s1 !! (f, p)) as [pg|] eqn:Hdisk.
      * assert (hashTable s1 !! (f, p) = None) as Hh1
          by (by eapply lookup_weaken_None).
        eexists. split; [by eapply readPage_miss_ok|]. simpl.
        assert (c < length (bufPool s1)) as Hcp
          by (destruct Hwf1 as (_ & _ & -> & _); lia).
        split_and!; try done.
        -- by rewrite Hpool.
        -- by apply list_lookup_insert_eq.
        -- by rewrite list_lookup_insert_eq by (by eapply lookup_lt_Some).
        -- intros j Hj. by apply list_lookup_insert_ne.
      * by eapply readPage_miss_noread.
Qed.

Lemma readPage_hit_miss_witness :
  (∃ s', readPage 1 1 pool3_pinned = (s', Ok 0) ∧ io s' = io pool3_pinned) ∧
  (∃ s', readPage 1 4 pool3_pinned = (s', Throw BufferExceededException)) ∧
  (∃ s1 c d0, allocBuf one_dirty = (s1, Ok c) ∧
     bufDescTable one_dirty !! c = Some d0 ∧
     (valid d0 = false ∨ pinCnt d0 = 0)).
Proof.
  split_and!.
  - destruct (readPage_hit_miss pool3_pinned 1 1) as [Hhit _];
      [by_eval|by_eval|].
    destruct (Hhit 0) as (d & s' & _ & Hr & _ & _ & Hio & _);
      [by vm_compute|].
    exists s'. by split.
  - destruct (readPage_hit_miss pool3_pinned 1 4) as [_ Hmiss];
      [by_eval|by_eval|].
    destruct Hmiss as [Hfull _]; [by vm_compute|].
    destruct Hfull as (s' & Hr & _).
    + split.
      * vm_compute. repeat constructor; lia.
      * left. eexists. vm_compute. done.
    + by exists s'.
  - destruct (readPage_hit_miss one_dirty 1 2) as [_ Hmiss];
      [by_eval|by_eval|].
    destruct Hmiss as [_ Hfree]; [by vm_compute|].
    destruct Hfree as (s1 & c & d0 & Ha & _ & Hd0 & Hfr & _).
    + intros [Hall _].
      pose proof (Forall_lookup_1 _ _ 0
                    (mkBufDesc 0 true true false 0 (Some 1) (Some 1)) Hall
                    ltac:(by vm_compute)) as [_ [Hr|Hp]]; simpl in *;
        [done|lia].
    + by exists s1, c, d0.
Defined.

(** C7, as the code has it.  When the index holds no frame for the page,
    [unPinPage] catches the failed lookup and returns normally: the call is
    a silent no-op that leaves every part of the state as it was. *)
Theorem unPinPage_absent_noop s f p b :
  hashTable s !! (f, p) = None → unPinPage f p b s = (s, Ok tt).
Proof. apply unPinPage_absent. Qed.

Lemma unPinPage_absent_noop_witness :
  unPinPage 1 4 true pool3_pinned = (pool3_pinned, Ok tt).
Proof. apply unPinPage_absent_noop. by vm_compute. Defined.

(** C7 as stated fails: in a fresh pool no frame holds page 1 of file 1,
    and releasing it returns normally instead of throwing. *)
Lemma unPinPage_absent_counterexample :
  hashTable (BufMgr_new 3 disk0) !! (1, 1) = None ∧
  unPinPage 1 1 false (BufMgr_new 3 disk0) = (BufMgr_new 3 disk0, Ok tt) ∧
  (unPinPage 1 1 false (BufMgr_new 3 disk0)).2 ≠
    Throw PageNotPinnedException.
Proof. split_and!; by vm_compute. Qed.

(** C8. Release of a page held by frame [i].  With pin count 0 [unPinPage]
    throws [PageNotPinnedException] and changes nothing; with a positive
    pin count it takes one off, sets the dirty flag when asked to and
    otherwise keeps it, so a dirty frame stays dirty. *)
Theorem unPinPage_cached s f p b i d :
  hashTable s !! (f, p) = Some i → bufDescTable s !! i = Some d →
  (pinCnt d = 0 → unPinPage f p b s = (s, Throw PageNotPinnedException)) ∧
  (0 < pinCnt d →
     ∃ s' d', unPinPage f p b s = (s', Ok tt) ∧
       bufDescTable s' = <[i := d']> (bufDescTable s) ∧
       bufDescTable s' !! i = Some d' ∧
       pinCnt d' = pinCnt d - 1 ∧ pinCnt d' + 1 = pinCnt d ∧
       dirty d' = (b || dirty d) ∧ (dirty d = true → dirty d' = true) ∧
       valid d' = valid d ∧ refbit d' = refbit d ∧ file d' = file d ∧
       pageNo d' = pageNo d ∧ frameNo d' = frameNo d ∧
       bufPool s' = bufPool s ∧ hashTable s' = hashTable s ∧
       clockHand s' = clockHand s ∧ disk s' = disk s ∧ io s' = io s).
Proof.
  intros Hh Hd. split; intros Hp.
  - by eapply unPinPage_unpinned.
  - eexists _, _. split; [by eapply unPinPage_pinned|]. simpl.
    split_and!; try done; cbn; try lia;
      first [ apply list_lookup_insert_eq; by eapply lookup_lt_Some
            | intros ->; by destruct b ].
Qed.

Lemma unPinPage_cached_witness :
  unPinPage 1 1 false one_clean = (one_clean, Throw PageNotPinnedException) ∧
  ∃ s', unPinPage 1 1 true pool3_pinned = (s', Ok tt).
Proof.
  split.
  - apply (unPinPage_cached one_clean 1 1 false 0
             (mkBufDesc 0 true false false 0 (Some 1) (Some 1)));
      by vm_compute.
  - destruct (unPinPage_cached pool3_pinned 1 1 true 0
                (mkBufDesc 0 true false false 1 (Some 1) (Some 1)))
      as [_ Hpos]; [by vm_compute|by vm_compute|].
    destruct Hpos as (s' & d' & Hr & _); [cbn; lia|]. by exists s'.
Defined.

(** C10. Dispose.  When a valid frame holds the page and is pinned,
    [disposePage] throws [PagePinnedException], having changed nothing.
    When the frame is unpinned its descriptor is emptied and its entry
    removed from the index; then, as when no frame holds the page, the file
    is told to delete the page.  The only file call is that [deletePage]:
    the frame's page is not written out, dirty or not. *)
Theorem disposePage_cases s f p :
  wf s → Inv s →
  (∀ m d, bufDescTable s !! m = Some d → valid d = true →
          file d = Some f → pageNo d = Some p → 0 < pinCnt d →
     disposePage f p s = (s, Throw PagePinnedException)) ∧
  (∀ m d, bufDescTable s !! m = Some d → valid d = true →
          file d = Some f → pageNo d = Some p → pinCnt d = 0 →
     ∃ s', disposePage f p s = (s', Ok tt) ∧
       bufDescTable s' = <[m := Clear d]> (bufDescTable s) ∧
       hashTable s' = delete (f, p) (hashTable s) ∧
       hashTable s' !! (f, p) = None ∧
       io s' = io s ++ [EvDelete f p] ∧
       disk s' = delete (f, p) (disk s) ∧
       bufPool s' = bufPool s ∧ clockHand s' = clockHand s) ∧
  ((∀ m d, bufDescTable s !! m = Some d → valid d = true →
           ¬ (file d = Some f ∧ pageNo d = Some p)) →
     disposePage f p s =
     (set_world (delete (f, p) (disk s)) (io s ++ [EvDelete f p]) s, Ok tt)).
Proof.
  intros Hwf HI.
  assert (∀ m d, bufDescTable s !! m = Some d → valid d = true →
            file d = Some f → pageNo d = Some p →
            disposePage f p s =
            if 0 <? pinCnt d then (s, Throw PagePinnedException)
            else file_deletePage f p
                   (set_hashTable (delete (f, p) (hashTable s))
                      (set_desc m (Clear d) s))) as Hcached.
  { intros m d Hd Hv Hf Hp.
    destruct (Inv_complete s m d Hwf HI Hd Hv) as (f' & p' & ? & ? & Hh).
    assert (f' = f ∧ p' = p) as [-> ->] by (split; congruence).
    destruct (disposePage_cached s f p m Hwf HI Hh) as (d' & Hd' & _ & _ & _ & He).
    by assert (d' = d) as -> by congruence. }
  split_and!.
  - intros m d Hd Hv Hf Hp Hpin. rewrite (Hcached m d) by done.
    by destruct (Nat.ltb_spec 0 (pinCnt d)); [|lia].
  - intros m d Hd Hv Hf Hp Hpin. rewrite (Hcached m d) by done.
    rewrite Hpin. simpl. eexists. split; [done|]. simpl.
    split_and!; try done. apply lookup_delete_eq.
  - intros Hno. rewrite disposePage_absent; [done|done|done|].
    destruct (hashTable s !! (f, p)) as [m|] eqn:Hh; [|done].
    destruct (Inv_sound s f p m HI Hh) as (d & Hd & Hv & Hf & Hp).
    by destruct (Hno m d Hd Hv).
Qed.

Lemma disposePage_cases_witness :
  disposePage 1 1 pool3_pinned = (pool3_pinned, Throw PagePinnedException) ∧
  ∃ s', disposePage 1 1 one_dirty = (s', Ok tt) ∧
        hashTable s' !! (1, 1) = None ∧
        io s' = io one_dirty ++ [EvDelete 1 1].
Proof.
  split.
  - destruct (disposePage_cases pool3_pinned 1 1) as (Hpin & _);
      [by_eval|by_eval|].
    apply (Hpin 0 (mkBufDesc 0 true false false 1 (Some 1) (Some 1)));
      by vm_compute.
  - destruct (disposePage_cases one_dirty 1 1) as (_ & Hok & _);
      [by_eval|by_eval|].
    destruct (Hok 0 (mkBufDesc 0 true true false 0 (Some 1) (Some 1)))
      as (s' & Hr & _ & _ & Hh & Hio & _); try by vm_compute.
    by exists s'.
Defined.

(** C9. Flush.  In a well-formed state that satisfies the invariant:
    when some frame of the file is pinned, [flushFile] throws
    [PagePinnedException]; when none is, it returns, and by then every
    frame of the file has had its page written to the file if it was dirty
    (the [writePage] calls are exactly [flush_writes], one per dirty frame
    with that frame's page), has lost its index entry and has an empty
    descriptor, dirty or not; no frame names the file any more, and flushing
    the file again changes nothing.  A frame that names the file as owner
    without being valid makes [flushFile] throw [BadBufferException] when
    the loop reaches it (it is unpinned and no frame below it belongs to
    the file). *)
Theorem flushFile_cases s f :
  (wf s → Inv s →
   ((∃ i d, bufDescTable s !! i = Some d ∧ file d = Some f ∧ pinCnt d ≠ 0) →
      ∃ s', flushFile f s = (s', Throw PagePinnedException)) ∧
   ((∀ i d, bufDescTable s !! i = Some d → file d = Some f → pinCnt d = 0) →
      ∃ s', flushFile f s = (s', Ok tt) ∧
        (∀ i d, bufDescTable s !! i = Some d →
           bufDescTable s' !! i =
           Some (if decide (file d = Some f) then Clear d else d)) ∧
        (∀ k, hashTable s' !! k =
           if decide (k.1 = f) then None else hashTable s !! k) ∧
        io s' = io s ++ flush_writes (numBufs s) 0 f (bufDescTable s) (bufPool s) ∧
        bufPool s' = bufPool s ∧ clockHand s' = clockHand s ∧
        (∀ i d', bufDescTable s' !! i = Some d' → file d' ≠ Some f) ∧
        flushFile f s' = (s', Ok tt))) ∧
  (∀ m d, m < numBufs s → numBufs s ≤ length (bufDescTable s) →
     bufDescTable s !! m = Some d → file d = Some f → pinCnt d = 0 →
     valid d = false →
     (∀ j dj, j < m → bufDescTable s !! j = Some dj → file dj ≠ Some f) →
     flushFile f s = (s, Throw BadBufferException)).
Proof.
  split.
  - intros Hwf HI. split.
    + intros (i & d & Hd & Hf & Hp).
      destruct (flushFile_loop_pinned (numBufs s) 0 f s Hwf HI)
        as (s' & m & dm & Hl & _); [done| |by exists s'].
      exists i, d. split_and!; [lia|done..].
    + intros Hpin.
      destruct (flushFile_loop_ok (numBufs s) 0 f s Hwf HI)
        as (s' & Hl & Hwf' & HI' & Hn' & Hp' & Hc' & Ht' & Hh' & Hio');
        [done|by intros j d _; apply Hpin|].
      assert (∀ i d', bufDescTable s' !! i = Some d' → file d' ≠ Some f)
        as Hnone.
      { intros i d' Hd'.
        destruct (bufDescTable s !! i) as [d|] eqn:Hd.
        2:{ apply lookup_ge_None in Hd. apply lookup_lt_Some in Hd'.
            destruct Hwf as (_ & Hl1 & _), Hwf' as (_ & Hl2 & _). lia. }
        rewrite (Ht' i d Hd) in Hd'. injection Hd' as <-.
        destruct (decide (0 ≤ i ∧ file d = Some f)) as [_|Hno]; [done|].
        intros Hf. apply Hno. split; [lia|done]. }
      exists s'. split_and!; try done.
      * intros i d Hd. rewrite (Ht' i d Hd). f_equal.
        destruct (decide (file d = Some f)).
        -- by rewrite decide_True by (split; [lia|done]).
        -- by rewrite decide_False by (by intros [_ ?]).
      * intros k. rewrite Hh'. destruct (hashTable s !! k) as [j|] eqn:Hk.
        -- destruct (decide (k.1 = f)).
           ++ by rewrite decide_True by (split; [lia|done]).
           ++ by rewrite decide_False by (by intros [_ ?]).
        -- by destruct (decide (k.1 = f)).
      * rewrite flushFile_unfold. apply flushFile_loop_none.
        -- destruct Hwf' as (_ & -> & _). lia.
        -- intros j d' _. apply Hnone.
  - intros m d Hm Hlen Hd Hf Hp Hv Hno. rewrite flushFile_unfold.
    apply flushFile_loop_invalid with m d; try done; try lia.
    intros j dj Hj. apply Hno. lia.
Qed.

Lemma flushFile_cases_witness :
  (∃ s', flushFile 1 pool3_pinned = (s', Throw PagePinnedException)) ∧
  (∃ s', flushFile 1 one_dirty = (s', Ok tt) ∧
         io s' = io one_dirty ++ [EvWrite 1 (mkPage 1 [11])] ∧
         flushFile 1 s' = (s', Ok tt)) ∧
  flushFile 1 one_stale = (one_stale, Throw BadBufferException).
Proof.
  split_and!.
  - destruct (flushFile_cases pool3_pinned 1) as [H _].
    destruct H as [Hpin _]; [by_eval|by_eval|]. apply Hpin.
    exists 0, (mkBufDesc 0 true false false 1 (Some 1) (Some 1)).
    by vm_compute.
  - destruct (flushFile_cases one_dirty 1) as [H _].
    destruct H as [_ Hok]; [by_eval|by_eval|].
    destruct Hok as (s' & Hr & _ & _ & Hio & _ & _ & _ & Hagain).
    + intros [|i] d Hd _; vm_compute in Hd; [by injection Hd as <-|done].
    + exists s'. split_and!; [done| |done]. rewrite Hio. by vm_compute.
  - destruct (flushFile_cases one_stale 1) as [_ H].
    apply (H 0 (mkBufDesc 0 false false false 0 (Some 1) (Some 1)));
      first [by vm_compute | vm_compute; lia | intros j dj Hj; lia].
Defined.

Lemma exec_good o s : wf s → Inv s → wf (exec o s) ∧ Inv (exec o s).
Proof.
  intros Hwf HI. destruct o as [f p|f p b|f|f p|f]; unfold exec, run.
  - destruct (readPage f p s) as [s' r] eqn:Hr.
    by destruct (readPage_post s f p s' r Hwf HI Hr) as (? & ? & _).
  - destruct (unPinPage f p b s) as [s' r] eqn:Hr.
    by destruct (unPinPage_post s f p b s' r Hwf HI Hr) as (? & ? & _).
  - destruct (allocPage f s) as [s' r] eqn:Hr.
    by destruct (allocPage_post s f s' r Hwf HI Hr) as (? & ? & _).
  - destruct (disposePage f p s) as [s' r] eqn:Hr.
    by destruct (disposePage_post s f p s' r Hwf HI Hr) as (? & ? & _).
  - destruct (flushFile f s) as [s' r] eqn:Hr.
    by destruct (flushFile_post s f s' r Hwf HI Hr) as (? & ? & _).
Qed.

Lemma run_ops_good ops s :
  wf s → Inv s → wf (run_ops ops s) ∧ Inv (run_ops ops s).
Proof.
  revert s. induction ops as [|o ops IH]; intros s Hwf HI; [done|].
  simpl. destruct (exec_good o s Hwf HI). by apply IH.
Qed.

(** C6. The index invariant.  From a well-formed state in which the index
    is the exact inverse of the valid frames (and invalid frames are
    empty), every operation, whether it returns or throws, ends in such a
    state again, and so does every sequence of operations: no two valid
    frames hold the same page, and the index maps exactly the identities of
    the valid frames to their frame numbers.  No operation leaves the
    defined behaviour of the program.  The constructor yields such a state
    ([wf_new], [Inv_new]). *)
Theorem index_invariant_preserved s :
  wf s → Inv s →
  let good (s' : State) :=
    wf s' ∧ Inv s' ∧ unique_pages s' ∧ index_exact s' in
  good s ∧
  (∀ f p s' r, readPage f p s = (s', r) → good s' ∧ r ≠ Abort) ∧
  (∀ f p b s' r, unPinPage f p b s = (s', r) → good s' ∧ r ≠ Abort) ∧
  (∀ f s' r, allocPage f s = (s', r) → good s' ∧ r ≠ Abort) ∧
  (∀ f p s' r, disposePage f p s = (s', r) → good s' ∧ r ≠ Abort) ∧
  (∀ f s' r, flushFile f s = (s', r) → good s' ∧ r ≠ Abort) ∧
  (∀ ops, good (run_ops ops s)).
Proof.
  intros Hwf HI good.
  assert (∀ s', wf s' → Inv s' → good s') as Hgood.
  { intros s' ? ?. split_and!; try done.
    - by apply Inv_unique_pages.
    - by apply Inv_index_exact. }
  split_and!.
  - by apply Hgood.
  - intros f p s' r Hr.
    destruct (readPage_post s f p s' r Hwf HI Hr) as (? & ? & _ & ?).
    split; [by apply Hgood|done].
  - intros f p b s' r Hr.
    destruct (unPinPage_post s f p b s' r Hwf HI Hr) as (? & ? & _ & ?).
    split; [by apply Hgood|done].
  - intros f s' r Hr.
    destruct (allocPage_post s f s' r Hwf HI Hr) as (? & ? & _ & ?).
    split; [by apply Hgood|done].
  - intros f p s' r Hr.
    destruct (disposePage_post s f p s' r Hwf HI Hr) as (? & ? & _ & ?).
    split; [by apply Hgood|done].
  - intros f s' r Hr.
    destruct (flushFile_post s f s' r Hwf HI Hr) as (? & ? & _ & ?).
    split; [by apply Hgood|done].
  - intros ops. destruct (run_ops_good ops s Hwf HI). by apply Hgood.
Qed.

Lemma index_invariant_preserved_witness :
  unique_pages
    (run_ops [OpRead 1 1; OpRead 1 2; OpUnPin 1 1 true; OpAlloc 1;
              OpRead 1 3; OpFlush 2; OpDispose 1 2]
       (BufMgr_new 2 disk0)) ∧
  index_exact
    (run_ops [OpRead 1 1; OpRead 1 2; OpUnPin 1 1 true; OpAlloc 1;
              OpRead 1 3; OpFlush 2; OpDispose 1 2]
       (BufMgr_new 2 disk0)).
Proof.
  destruct (index_invariant_preserved (BufMgr_new 2 disk0))
    as (_ & _ & _ & _ & _ & _ & Hops); [by_eval|by_eval|].
  by destruct (Hops [OpRead 1 1; OpRead 1 2; OpUnPin 1 1 true; OpAlloc 1;
                     OpRead 1 3; OpFlush 2; OpDispose 1 2])
    as (_ & _ & ? & ?).
Defined.

(** ** Failures *)

Section failures.
Implicit Types (s : State) (d : BufDesc).

(** When [allocBuf] throws, the sweep has cleared reference bits and
    nothing else has changed; the hand is back where it started. *)
Lemma allocBuf_throw s s' e :
  wf s → Inv s → allocBuf s = (s', Throw e) →
  e = BufferExceededException ∧ numBufs s' = numBufs s ∧
  bufPool s' = bufPool s ∧ hashTable s' = hashTable s ∧
  clockHand s' = clockHand s ∧ disk s' = disk s ∧ io s' = io s ∧
  refs_cleared (bufDescTable s) (bufDescTable s').
Proof.
  intros Hwf HI Ha.
  destruct (allocBuf_spec s Hwf HI)
    as [(k & d & s1 & _ & _ & Ha' & _)|(k & Hc & Ha')];
    cbv zeta in *; rewrite Ha' in Ha; [done|].
  injection Ha as <- <-.
  destruct (iter_fields k s Hwf) as (_ & ? & ? & ? & ? & ? & _).
  split_and!; try done. apply iter_refs_cleared.
Qed.

Lemma flush_writes_elem n i f t pl j d pg :
  i ≤ j → j < i + n → t !! j = Some d → file d = Some f →
  dirty d = true → pl !! j = Some pg →
  EvWrite f pg ∈ flush_writes n i f t pl.
Proof.
  revert i. induction n as [|n IH]; intros i Hij Hjn Hd Hf Hdirty Hpg; [lia|].
  simpl. apply elem_of_app. destruct (decide (i = j)) as [->|Hne].
  - left. rewrite Hd, Hpg, Hdirty, bool_decide_eq_true_2 by done.
    apply list_elem_of_singleton. done.
  - right. apply IH; try done; lia.
Qed.
End failures.

(** C1, as the code has it.  A release or a dispose that throws has changed
    nothing.  A fetch or an allocate that throws
    [BufferExceededException] leaves the pool, the index and the clock
    hand as they were and the descriptors as they were except that reference
    bits may have been cleared by the sweep.  A fetch whose disk read fails
    throws after the frame allocation has taken effect: the state is the
    one [allocBuf] left, the frame it handed out empty and unmapped.  A
    flush throws only [PagePinnedException], at the first pinned frame [m]
    of the file (no frame of the file below [m] is pinned): the frames of
    the file below [m] are flushed by then (written out when dirty, emptied,
    their index entries removed) and nothing else in the table, the index
    or the pool has changed. *)
Theorem failure_effects s f p b :
  wf s → Inv s →
  (∀ s' e, unPinPage f p b s = (s', Throw e) → s' = s) ∧
  (∀ s' e, disposePage f p s = (s', Throw e) → s' = s) ∧
  (∀ s', readPage f p s = (s', Throw BufferExceededException) →
     bufPool s' = bufPool s ∧ hashTable s' = hashTable s ∧
     clockHand s' = clockHand s ∧
     refs_cleared (bufDescTable s) (bufDescTable s')) ∧
  (∀ s', allocPage f s = (s', Throw BufferExceededException) →
     bufPool s' = bufPool s ∧ hashTable s' = hashTable s ∧
     clockHand s' = clockHand s ∧
     refs_cleared (bufDescTable s) (bufDescTable s')) ∧
  (∀ s1 c, hashTable s !! (f, p) = None → allocBuf s = (s1, Ok c) →
     disk s1 !! (f, p) = None →
     readPage f p s = (log (EvRead f p) s1, Throw InvalidPageException) ∧
     bufDescTable s1 !! c =
       Some (mkBufDesc c false false false 0 None None) ∧
     (∀ key, hashTable s1 !! key ≠ Some c)) ∧
  (∀ s' e, flushFile f s = (s', Throw e) →
     e = PagePinnedException ∧ bufPool s' = bufPool s ∧
     clockHand s' = clockHand s ∧
     ∃ m dm, bufDescTable s !! m = Some dm ∧ file dm = Some f ∧
       pinCnt dm ≠ 0 ∧
       (∀ j d, j < m → bufDescTable s !! j = Some d → file d = Some f →
          pinCnt d = 0) ∧
       io s' = io s ++ flush_writes m 0 f (bufDescTable s) (bufPool s) ∧
       (∀ j d, bufDescTable s !! j = Some d →
          bufDescTable s' !! j =
          Some (if decide (j < m ∧ file d = Some f) then Clear d else d)) ∧
       (∀ k, hashTable s' !! k =
          match hashTable s !! k with
          | Some j => if decide (j < m ∧ k.1 = f) then None else Some j
          | None => None
          end)).
Proof.
  intros Hwf HI. split_and!.
  - intros s' e Hr. destruct (hashTable s !! (f, p)) as [i|] eqn:Hh.
    + destruct (Inv_sound s f p i HI Hh) as (d & Hd & _).
      destruct (decide (pinCnt d = 0)) as [Hz|Hnz].
      * rewrite (unPinPage_unpinned s f p b i d) in Hr by done.
        by injection Hr as <- _.
      * rewrite (unPinPage_pinned s f p b i d) in Hr by (done || lia). done.
    + rewrite unPinPage_absent in Hr by done. done.
  - intros s' e Hr. destruct (hashTable s !! (f, p)) as [m|] eqn:Hh.
    + destruct (disposePage_cached s f p m Hwf HI Hh) as (d & _ & _ & _ & _ & He).
      rewrite He in Hr. destruct (0 <? pinCnt d); [|done].
      by injection Hr as <- _.
    + rewrite disposePage_absent in Hr by done. done.
  - intros s' Hr. destruct (hashTable s !! (f, p)) as [i|] eqn:Hh.
    { destruct (Inv_sound s f p i HI Hh) as (d & Hd & _).
      rewrite (readPage_hit s f p i d) in Hr by done. done. }
    destruct (allocBuf s) as [s1 r1] eqn:Ha.
    destruct (allocBuf_post s s1 r1 Hwf HI Ha) as (Hwf1 & HI1 & _ & _ & Hsub & Hr1).
    destruct r1 as [c|e|]; [| |done].
    + destruct Hr1 as (_ & _ & d & Hd & _).
      destruct (disk s1 !! (f, p)) as [pg|] eqn:Hdisk.
      * rewrite (readPage_miss_ok s f p s1 c pg d) in Hr; try done.
        by eapply lookup_weaken_None.
      * rewrite (readPage_miss_noread s f p s1 c) in Hr by done. done.
    + rewrite (readPage_miss_fail s f p s1 e) in Hr by done.
      injection Hr as <- ->.
      by destruct (allocBuf_throw s s1 _ Hwf HI Ha) as (_ & _ & ? & ? & ? & _ & _ & ?).
  - intros s' Hr. unfold allocPage in Hr.
    unfold bind at 1 in Hr. unfold file_allocatePage in Hr.
    set (s0 := set_world _ _ s) in Hr. set (newPage := mkPage _ _) in Hr.
    assert (wf s0) as Hwf0 by (by apply wf_set_world).
    assert (Inv s0) as HI0 by (by eapply Inv_ext).
    unfold bind at 1 in Hr. destruct (allocBuf s0) as [s1 r1] eqn:Ha.
    destruct (allocBuf_post s0 s1 r1 Hwf0 HI0 Ha)
      as (Hwf1 & HI1 & Hn1 & Hp1 & Hsub & Hr1).
    destruct r1 as [c|e|]; [| |done].
    + destruct Hr1 as (Hc & Hhand & d & Hd & Hcl).
      unfold bind, set_page, page_at, hashTable_insert, ht_insert, desc_at,
        put_desc, ret in Hr. simpl in Hr.
      assert (c < length (bufPool s1)) as Hcl1
        by (destruct Hwf1 as (_ & _ & -> & _); lia).
      rewrite list_lookup_insert_eq in Hr by done. simpl in Hr.
      destruct (hashTable s1 !! (f, fresh_page f (disk s))); [done|].
      simpl in Hr. by rewrite Hd in Hr.
    + injection Hr as <- ->.
      by destruct (allocBuf_throw s0 s1 _ Hwf0 HI0 Ha) as (_ & _ & ? & ? & ? & _ & _ & ?).
  - intros s1 c Hh Ha Hdisk.
    destruct (allocBuf_frame s s1 c Hwf HI Ha) as (d0 & _ & _ & _ & ? & ? & _).
    split_and!; [by eapply readPage_miss_noread|done|done].
  - intros s' e Hr. rewrite flushFile_unfold in Hr.
    destruct (decide (Exists (λ d, file d = Some f ∧ pinCnt d ≠ 0)
                        (bufDescTable s))) as [Hex|Hno].
    + apply Exists_exists in Hex as (d0 & Hin & Hf0 & Hp0).
      apply list_elem_of_lookup in Hin as [j0 Hj0].
      destruct (flushFile_loop_pinned (numBufs s) 0 f s Hwf HI)
        as (s1 & m & dm & Hl & _ & _ & _ & Hp1 & Hc1 & _ & Hdm & Hfm & Hpm
            & Ht & Hh & Hio & Hfirst); [done| |].
      { exists j0, d0. split_and!; [lia|done..]. }
      rewrite Hl in Hr. injection Hr as <- <-. split_and!; try done.
      exists m, dm. split_and!; try done.
      * intros j d Hj. apply Hfirst. lia.
      * by rewrite Nat.sub_0_r in Hio.
      * intros j d Hd. rewrite (Ht j d Hd). f_equal.
        destruct (decide (j < m ∧ file d = Some f)) as [[? ?]|Hn].
        -- by rewrite decide_True by (split; [lia|done]).
        -- rewrite decide_False; [done|]. intros [? ?]. apply Hn.
           split; [lia|done].
      * intros k. rewrite Hh. destruct (hashTable s !! k) as [j|]; [|done].
        destruct (decide (j < m ∧ k.1 = f)) as [[? ?]|Hn].
        -- by rewrite decide_True by (split; [lia|done]).
        -- rewrite decide_False; [done|]. intros [? ?]. apply Hn.
           split; [lia|done].
    + destruct (flushFile_loop_ok (numBufs s) 0 f s Hwf HI)
        as (s1 & Hl & _); [done| |congruence].
      intros j d0 _ Hd0 Hf0. destruct (decide (pinCnt d0 = 0)); [done|].
      exfalso. apply Hno, Exists_exists. exists d0. split; [|done].
      apply list_elem_of_lookup. by exists j.
Qed.

Lemma failure_effects_witness :
  readPage 1 9 one_clean =
    (log (EvRead 1 9) (allocBuf one_clean).1, Throw InvalidPageException) ∧
  ∃ s', flushFile 1 first_released = (s', Throw PagePinnedException) ∧
        bufPool s' = bufPool first_released.
Proof.
  split.
  - destruct (failure_effects one_clean 1 9 false)
      as (_ & _ & _ & _ & H & _); [by_eval|by_eval|].
    destruct (H (allocBuf one_clean).1 0) as (Hr & _); by vm_compute.
  - destruct (failure_effects first_released 1 1 false)
      as (_ & _ & _ & _ & _ & H); [by_eval|by_eval|].
    destruct (H (flushFile 1 first_released).1 PagePinnedException)
      as (_ & Hpool & _); [by vm_compute|].
    exists (flushFile 1 first_released).1. split; [by vm_compute|done].
Defined.

(** C1 as stated fails: with its only frame holding page 1 unpinned, a
    fetch of page 9, which file 1 does not have, evicts page 1 and then
    throws; the index and the descriptor table are not what they were. *)
Lemma failure_counterexample :
  wf one_clean ∧ Inv one_clean ∧
  (readPage 1 9 one_clean).2 = Throw InvalidPageException ∧
  hashTable one_clean !! (1, 1) = Some 0 ∧
  hashTable (readPage 1 9 one_clean).1 !! (1, 1) = None ∧
  bufDescTable one_clean !! 0 =
    Some (mkBufDesc 0 true false false 0 (Some 1) (Some 1)) ∧
  bufDescTable (readPage 1 9 one_clean).1 !! 0 =
    Some (mkBufDesc 0 false false false 0 None None).
Proof. split_and!; [by_eval|by_eval|by vm_compute..]. Qed.

(** C3, as the code has it.  [allocBuf] throws
    [BufferExceededException] exactly from the exhausted states: every
    frame is valid and referenced or pinned, and the frame under the hand
    at the start of the call is unreferenced or every frame is pinned.  So
    the sweep gives up when it is back on the frame it started this call
    from and finds it valid, unreferenced and pinned, no usable frame having
    turned up; finding it referenced, it clears the bit and goes round
    once more.  With three frames all pinned by fetches, the fetch of a
    fourth page throws [BufferExceededException]. *)
Theorem allocBuf_exceeded_iff s :
  wf s →
  ((∃ s', allocBuf s = (s', Throw BufferExceededException)) ↔ exhausted s) ∧
  (∃ s', readPage 1 4 pool3_pinned = (s', Throw BufferExceededException)).
Proof.
  intros Hwf. split; [split|].
  - intros [s' Ha]. rewrite allocBuf_unfold in Ha.
    destruct (allocBuf_loop _ _ s) as [s1 [c|e|]] eqn:Hl; [|injection Ha as -> ->|done].
    + by destruct (bufDescTable s1 !! clockHand s1).
    + by eapply loop_exceeded_sound.
  - intros He. destruct (loop_exceeded_complete s Hwf He) as [s' Hl].
    exists s'. by rewrite allocBuf_unfold, Hl.
  - eexists. vm_compute. reflexivity.
Qed.

Lemma allocBuf_exceeded_iff_witness :
  ∃ s', allocBuf pool3_pinned = (s', Throw BufferExceededException).
Proof.
  destruct (allocBuf_exceeded_iff pool3_pinned) as [[_ H] _]; [by_eval|].
  apply H. split.
  - vm_compute. repeat constructor; lia.
  - left. eexists. vm_compute. done.
Defined.

(** C3 as stated fails: in a pool whose only frame is valid, referenced
    and unpinned, the first turn of the sweep finds no usable frame and
    brings the hand back to where it started, yet [allocBuf] does not
    throw: it clears the bit, goes round again and hands out frame 0. *)
Lemma allocBuf_exceeded_counterexample :
  wf one_referenced ∧ Inv one_referenced ∧
  numBufs one_referenced = 1 ∧ clockHand one_referenced = 0 ∧
  bufDescTable one_referenced =
    [mkBufDesc 0 true false true 0 (Some 1) (Some 1)] ∧
  Forall (λ d, usable d = false) (bufDescTable one_referenced) ∧
  allocBuf_loop 2 (clockHand one_referenced) one_referenced =
    allocBuf_loop 1 (clockHand one_referenced) (skip_step one_referenced) ∧
  clockHand (skip_step one_referenced) = clockHand one_referenced ∧
  (allocBuf one_referenced).2 = Ok 0.
Proof.
  split_and!;
    [by_eval|by_eval|by vm_compute|by vm_compute|by vm_compute|by_eval
    |by vm_compute..].
Qed.

(** C4, as the code has it.  The sweep.  Every call of [allocBuf] is a
    run of [k] visits that move on, followed by one visit that ends the
    sweep, in the first turn or in the second.  Each visit that moves on
    meets a frame that is, at that moment, valid and referenced or pinned;
    the loop goes on to the next frame with that frame's reference bit
    clear and nothing else changed.  The visit that ends the sweep meets
    the first frame that is, at that moment, invalid, or valid,
    unreferenced and unpinned.  An invalid frame is returned at once,
    nothing changed.  A valid, unreferenced, unpinned frame is the victim:
    it is returned with its entry removed from the index and its
    descriptor left empty.  (Otherwise the sweep is back on the frame it
    started from, finds it unreferenced and pinned, and throws.)
    With frame A referenced and frame B unreferenced, both valid and
    unpinned, [allocBuf] returns a frame other than A, and A keeps its page
    and its index entry; when B is the only usable frame, as in a pool of
    just A and B, B is the victim, and A's reference bit is cleared if the
    hand meets A before B and stays set if it meets B first. *)
Theorem allocBuf_first_usable s :
  wf s → Inv s →
  (∃ k d, k < 2 * numBufs s ∧
     (∀ j, j < k →
        ∃ dj, bufDescTable (Nat.iter j skip_step s) !! pos s (S j) = Some dj ∧
          valid dj = true ∧ (refbit dj = true ∨ 0 < pinCnt dj) ∧
          allocBuf_loop (2 * numBufs s - j) (clockHand s)
            (Nat.iter j skip_step s) =
          allocBuf_loop (2 * numBufs s - S j) (clockHand s)
            (Nat.iter (S j) skip_step s) ∧
          bufDescTable (Nat.iter (S j) skip_step s) =
            <[pos s (S j) := with_refbit false dj]>
              (bufDescTable (Nat.iter j skip_step s)) ∧
          hashTable (Nat.iter (S j) skip_step s) = hashTable s ∧
          bufPool (Nat.iter (S j) skip_step s) = bufPool s ∧
          io (Nat.iter (S j) skip_step s) = io s ∧
          disk (Nat.iter (S j) skip_step s) = disk s ∧
          clockHand (Nat.iter (S j) skip_step s) = pos s (S j)) ∧
     bufDescTable (Nat.iter k skip_step s) !! pos s (S k) = Some d ∧
     (valid d = false →
        ∃ s', allocBuf s = (s', Ok (pos s (S k))) ∧
          bufDescTable s' = bufDescTable (Nat.iter k skip_step s) ∧
          hashTable s' = hashTable s ∧ bufPool s' = bufPool s ∧
          io s' = io s ∧ disk s' = disk s) ∧
     (valid d = true →
        refbit d = false ∧
        (pinCnt d = 0 →
           ∃ s' f p, file d = Some f ∧ pageNo d = Some p ∧
             allocBuf s = (s', Ok (pos s (S k))) ∧
             hashTable s !! (f, p) = Some (pos s (S k)) ∧
             hashTable s' = delete (f, p) (hashTable s) ∧
             hashTable s' !! (f, p) = None ∧
             bufDescTable s' =
               <[pos s (S k) := Clear d]>
                 (bufDescTable (Nat.iter k skip_step s)) ∧
             bufDescTable s' !! pos s (S k) =
               Some (mkBufDesc (pos s (S k)) false false false 0 None None) ∧
             bufPool s' = bufPool s) ∧
        (0 < pinCnt d →
           pos s (S k) = clockHand s ∧
           ∃ s', allocBuf s = (s', Throw BufferExceededException)))) ∧
  (∀ a b da db,
     bufDescTable s !! a = Some da → valid da = true → refbit da = true →
     pinCnt da = 0 →
     bufDescTable s !! b = Some db → valid db = true → refbit db = false →
     pinCnt db = 0 →
     ∃ s' c, allocBuf s = (s', Ok c) ∧ c ≠ a ∧
       (∃ da', bufDescTable s' !! a = Some da' ∧ valid da' = true ∧
          file da' = file da ∧ pageNo da' = pageNo da ∧
          ∀ f p, file da = Some f → pageNo da = Some p →
                 hashTable s' !! (f, p) = Some a) ∧
       ((∀ i di, bufDescTable s !! i = Some di → usable di = true → i = b) →
          c = b ∧
          bufDescTable s' !! b =
            Some (mkBufDesc b false false false 0 None None) ∧
          (∀ f p, file db = Some f → pageNo db = Some p →
                  hashTable s' !! (f, p) = None) ∧
          (∀ ja jb, 1 ≤ ja < jb → jb ≤ numBufs s →
             pos s ja = a → pos s jb = b →
             bufDescTable s' !! a = Some (with_refbit false da)) ∧
          (∀ ja jb, 1 ≤ jb < ja → ja ≤ numBufs s →
             pos s ja = a → pos s jb = b →
             bufDescTable s' !! a = Some da))).
Proof.
  intros Hwf HI. split.
  - destruct (allocBuf_visits s Hwf HI) as (k & d & Hk & Hs & Hd & Hend).
    exists k, d. split_and!; [done| |done| |].
    + intros j Hj. destruct (Hs j Hj) as (dj & Hdj & Hu & Hc).
      apply usable_false in Hu as [Hv Hrp].
      destruct (iter_fields j s Hwf) as (_ & _ & _ & _ & _ & _ & _ & Hp).
      assert (pos (Nat.iter j skip_step s) 1 = pos s (S j)) as Hpos
        by (rewrite Hp; f_equal; lia).
      destruct (iter_fields (S j) s Hwf) as (_ & _ & ? & ? & ? & ? & ? & _).
      exists dj. split_and!; try done.
      * replace (2 * numBufs s - j) with (S (2 * numBufs s - S j)) by lia.
        simpl Nat.iter.
        apply loop_skip with dj; rewrite ?Hpos; try done.
        by apply usable_false.
      * simpl Nat.iter. rewrite <- Hpos. apply skip_step_table.
        by rewrite Hpos.
    + intros Hv. destruct Hend as [[Hu Hloop]|(Hu & _)].
      2:{ apply usable_false in Hu as [? _]. congruence. }
      destruct (iter_fields k s Hwf) as (_ & _ & _ & _ & _ & _ & _ & Hp).
      assert (pos (Nat.iter k skip_step s) 1 = pos s (S k)) as Hpos
        by (rewrite Hp; f_equal; lia).
      destruct (allocBuf_finish s k d Hwf HI)
        as (s' & Ha & _ & _ & Hpool & Ht & Hrest);
        [by rewrite Hpos|done|done|].
      cbv zeta in *. rewrite Hpos in *. rewrite Hv in Hrest.
      destruct Hrest as (? & ? & ?).
      exists s'. split_and!; try done.
      rewrite Ht. apply list_insert_id.
      by rewrite <- (Inv_empty _ _ d (Inv_iter k s Hwf HI) Hd Hv).
    + intros Hv. destruct Hend as [[Hu Hloop]|(Hu & Hr & He & Ha)].
      * assert (refbit d = false ∧ pinCnt d = 0) as [Hr Hp0].
        { unfold usable in Hu. rewrite Hv in Hu. simpl in Hu.
          destruct (refbit d); [done|]. split; [done|].
          by apply Nat.eqb_eq. }
        split; [done|]. split; [|lia]. intros _.
        destruct (iter_fields k s Hwf)
          as (Hwfk & _ & _ & _ & _ & _ & _ & Hp).
        assert (pos (Nat.iter k skip_step s) 1 = pos s (S k)) as Hpos
          by (rewrite Hp; f_equal; lia).
        destruct (allocBuf_finish s k d Hwf HI)
          as (s' & Ha & _ & _ & Hpool & Ht & Hrest);
          [by rewrite Hpos|done|done|].
        cbv zeta in *. rewrite Hpos in *. rewrite Hv in Hrest.
        destruct Hrest as (f & p & Hf & Hpn & Hh0 & Hh & _).
        exists s', f, p. split_and!; try done.
        -- rewrite Hh. apply lookup_delete_eq.
        -- rewrite Ht, list_lookup_insert_eq by (by eapply lookup_lt_Some).
           unfold Clear. by rewrite (wf_frameNo _ _ d Hwfk Hd).
      * apply usable_false in Hu as [_ [?|Hpin]]; [congruence|].
        split; [done|]. split; [lia|]. intros _. split; [done|].
        by eexists.
  - intros a b da db Hda Hva Hra Hpa Hdb Hvb Hrb Hpb.
    assert (usable da = false) as Hua by (unfold usable; by rewrite Hva, Hra).
    assert (usable db = true) as Hub
      by (unfold usable; by rewrite Hvb, Hrb, Hpb).
    destruct (scan s (numBufs s)) as [Hnone|(j & d & Hj & Hd & Hu & Hbefore)].
    { intros j _. apply wf_desc; [done|by apply pos_lt]. }
    { apply (no_usable_Forall s Hwf) in Hnone.
      pose proof (Forall_lookup_1 _ _ _ _ Hnone Hdb). congruence. }
    destruct (allocBuf_first_turn s j d Hwf HI Hj Hd Hu Hbefore)
      as (s' & Ha & Hc & Hvisited & Hunvisited & Hinv & Hval).
    assert (pos s j ≠ a) as Hca by (intros He; rewrite He in Hd; congruence).
    destruct (pos_surj s a Hwf) as (ja & Hja & Hposa);
      [by eapply wf_desc_lt|].
    assert (ja ≠ j) as Hjaj by (intros ->; done).
    assert (ja < j → bufDescTable s' !! a = Some (with_refbit false da))
      as Hmet.
    { intros Hlt. rewrite <- Hposa. apply Hvisited; [lia|].
      by rewrite Hposa. }
    assert (j < ja → bufDescTable s' !! a = Some da) as Hnotmet.
    { intros Hlt. rewrite Hunvisited; [done|].
      intros j' Hj' He. rewrite <- Hposa in He.
      apply pos_inj in He; [lia|done|lia|lia]. }
    destruct (Inv_complete s a da Hwf HI Hda Hva) as (fa & pa & Hfa & Hpna & Hha).
    exists s', (pos s j). split_and!; [done|done| |].
    + exists (if decide (ja < j) then with_refbit false da else da).
      split_and!; try (by case_decide).
      * case_decide; [by apply Hmet|]. apply Hnotmet. lia.
      * intros f p Hf Hp. assert (f = fa ∧ p = pa) as [-> ->]
          by (split; congruence).
        destruct (valid d) eqn:Hv.
        -- destruct (Hval eq_refl) as (f' & p' & _ & _ & Hh0 & ->).
           rewrite lookup_delete_ne; [done|]. intros [= -> ->]. congruence.
        -- by rewrite (Hinv eq_refl).
    + intros Honly.
      pose proof (Honly (pos s j) d Hd Hu) as Hcb.
      rewrite Hcb in *. assert (d = db) as -> by congruence.
      split_and!; [done| | | |].
      * rewrite Hc. unfold Clear. by rewrite (wf_frameNo s b db Hwf Hdb).
      * intros f p Hf Hp.
        destruct (Hval Hvb) as (f' & p' & Hf' & Hp' & _ & ->).
        assert (f' = f ∧ p' = p) as [-> ->] by (split; congruence).
        apply lookup_delete_eq.
      * intros ja' jb Hab Hjb Hpa' Hpb'.
        assert (jb = j) as ->.
        { destruct (decide (jb ≤ j)).
          - apply (pos_inj s); [done|done|lia|congruence].
          - symmetry. apply (pos_inj s); [done|lia|lia|congruence]. }
        assert (ja' = ja) as ->.
        { destruct (decide (ja' ≤ ja)).
          - apply (pos_inj s); [done|done|lia|congruence].
          - symmetry. apply (pos_inj s); [done|lia|lia|congruence]. }
        apply Hmet. lia.
      * intros ja' jb Hab Hjb Hpa' Hpb'.
        assert (jb = j) as ->.
        { destruct (decide (jb ≤ j)).
          - apply (pos_inj s); [done|done|lia|congruence].
          - symmetry. apply (pos_inj s); [done|lia|lia|congruence]. }
        assert (ja' = ja) as ->.
        { destruct (decide (ja' ≤ ja)).
          - apply (pos_inj s); [done|done|lia|congruence].
          - symmetry. apply (pos_inj s); [done|lia|lia|congruence]. }
        apply Hnotmet. lia.
Qed.

Lemma allocBuf_first_usable_witness :
  (∃ k d, k < 2 * numBufs two_referenced ∧
     bufDescTable (Nat.iter k skip_step two_referenced)
       !! pos two_referenced (S k) = Some d) ∧
  (∃ s', allocBuf second_chance_pool = (s', Ok 1) ∧
     bufDescTable s' !! 0 =
       Some (mkBufDesc 0 true false false 0 (Some 1) (Some 1))).
Proof.
  split.
  - destruct (allocBuf_first_usable two_referenced)
      as [(k & d & Hk & _ & Hd & _) _]; [by_eval|by_eval|].
    by exists k, d.
  - destruct (allocBuf_first_usable second_chance_pool) as [_ HAB];
      [by_eval|by_eval|].
    destruct (HAB 0 1 (mkBufDesc 0 true false true 0 (Some 1) (Some 1))
                (mkBufDesc 1 true false false 0 (Some 1) (Some 2)))
      as (s' & c & Ha & _ & _ & Honly); try by vm_compute.
    destruct Honly as (-> & _ & _ & Hfirst & _).
    + intros [|[|i]] di Hdi Hu; vm_compute in Hdi; [|done|done].
      injection Hdi as <-. by vm_compute in Hu.
    + exists s'. split; [done|].
      apply (Hfirst 1 2); [lia|vm_compute; lia|by vm_compute..].
Defined.

(** C4 as stated fails when the hand meets B first: frame 0 (B) is
    unreferenced, frame 1 (A) is referenced, both valid and unpinned, and
    the hand is on frame 1.  [allocBuf] evicts B at its first visit and
    never reaches A, whose reference bit stays set. *)
Lemma allocBuf_first_usable_counterexample :
  wf second_chance_pool_rev ∧ Inv second_chance_pool_rev ∧
  clockHand second_chance_pool_rev = 1 ∧
  bufDescTable second_chance_pool_rev =
    [mkBufDesc 0 true false false 0 (Some 1) (Some 1);
     mkBufDesc 1 true false true 0 (Some 1) (Some 2)] ∧
  (allocBuf second_chance_pool_rev).2 = Ok 0 ∧
  bufDescTable (allocBuf second_chance_pool_rev).1 =
    [mkBufDesc 0 false false false 0 None None;
     mkBufDesc 1 true false true 0 (Some 1) (Some 2)].
Proof. split_and!; [by_eval|by_eval|by vm_compute..]. Qed.

(** C5, as the code has it.  A valid dirty frame that [allocBuf] hands
    out has had its page, exactly as the pool holds it, written through
    the owning file by the time [allocBuf] returns, while the pool slot
    still holds that page; in a fetch that write comes before the read
    that refills the slot.  A flush that returns has written the page of
    every dirty frame of the file before emptying the descriptor.
    ([disposePage] empties a frame without writing: the page is being
    deleted.) *)
Theorem dirty_written_back s :
  wf s → Inv s →
  (∀ s' c d pg f,
     allocBuf s = (s', Ok c) → bufDescTable s !! c = Some d →
     valid d = true → dirty d = true → file d = Some f →
     bufPool s !! c = Some pg →
     io s' = io s ++ [EvWrite f pg] ∧
     disk s' !! (f, page_number pg) = Some pg ∧
     bufPool s' !! c = Some pg) ∧
  (∀ f' p' s' c d pg f,
     hashTable s !! (f', p') = None → readPage f' p' s = (s', Ok c) →
     bufDescTable s !! c = Some d →
     valid d = true → dirty d = true → file d = Some f →
     bufPool s !! c = Some pg →
     io s' = io s ++ [EvWrite f pg; EvRead f' p']) ∧
  (∀ f s' i d pg,
     flushFile f s = (s', Ok tt) → bufDescTable s !! i = Some d →
     file d = Some f → dirty d = true → bufPool s !! i = Some pg →
     ∃ tr, io s' = io s ++ tr ∧ EvWrite f pg ∈ tr ∧
           bufDescTable s' !! i = Some (Clear d)).
Proof.
  intros Hwf HI.
  assert (∀ s' c d pg f,
     allocBuf s = (s', Ok c) → bufDescTable s !! c = Some d →
     valid d = true → dirty d = true → file d = Some f →
     bufPool s !! c = Some pg →
     io s' = io s ++ [EvWrite f pg] ∧
     disk s' !! (f, page_number pg) = Some pg ∧
     bufPool s' !! c = Some pg) as Hvictim.
  { intros s' c d pg f Ha Hd Hv Hdirty Hf Hpg.
    destruct (allocBuf_spec s Hwf HI)
      as [(k & dk & s1 & Hdk & _ & Ha' & _ & _ & Hp & _ & Hrest)|(k & _ & Ha')];
      cbv zeta in *; rewrite Ha' in Ha; [|done].
    injection Ha as <- <-.
    assert (valid dk = true ∧ dirty dk = true ∧ file dk = Some f)
      as (Hvk & Hdirtyk & Hfk).
    { destruct (iter_refs_cleared k s) as [_ Hrc].
      destruct (Hrc _ _ Hd) as [He|He]; rewrite He in Hdk;
        by injection Hdk as <-. }
    rewrite Hvk, Hdirtyk in Hrest.
    destruct Hrest as (f0 & p0 & Hf0 & _ & _ & _ & pg0 & Hpg0 & Hdisk & Hio).
    assert (f0 = f) as -> by congruence.
    assert (pg0 = pg) as -> by congruence.
    split_and!; [done| |by rewrite Hp].
    rewrite Hdisk. apply lookup_insert_eq. }
  split_and!; [exact Hvictim| |].
  - intros f' p' s' c d pg f Hh Hr Hd Hv Hdirty Hf Hpg.
    destruct (allocBuf s) as [s1 r1] eqn:Ha.
    destruct (allocBuf_post s s1 r1 Hwf HI Ha)
      as (Hwf1 & HI1 & _ & _ & Hsub & Hr1).
    destruct r1 as [c1|e|]; [| |done].
    2:{ rewrite (readPage_miss_fail s f' p' s1 e) in Hr by done. done. }
    destruct Hr1 as (_ & _ & d1 & Hd1 & _).
    destruct (disk s1 !! (f', p')) as [pg1|] eqn:Hdisk.
    2:{ rewrite (readPage_miss_noread s f' p' s1 c1) in Hr by done. done. }
    rewrite (readPage_miss_ok s f' p' s1 c1 pg1 d1) in Hr;
      [|done|done|done|by eapply lookup_weaken_None|done].
    injection Hr as <- <-. simpl.
    destruct (Hvictim s1 c1 d pg f eq_refl Hd Hv Hdirty Hf Hpg) as (-> & _).
    by rewrite <- app_assoc.
  - intros f s' i d pg Hr Hd Hf Hdirty Hpg. rewrite flushFile_unfold in Hr.
    destruct (decide (Exists (λ d, file d = Some f ∧ pinCnt d ≠ 0)
                        (bufDescTable s))) as [Hex|Hno].
    { apply Exists_exists in Hex as (d0 & Hin & Hf0 & Hp0).
      apply list_elem_of_lookup in Hin as [j Hj].
      destruct (flushFile_loop_pinned (numBufs s) 0 f s Hwf HI)
        as (s1 & m & dm & Hl & _); [done| |congruence].
      exists j, d0. split_and!; [lia|done..]. }
    destruct (flushFile_loop_ok (numBufs s) 0 f s Hwf HI)
      as (s1 & Hl & _ & _ & _ & _ & _ & Ht & _ & Hio); [done| |].
    { intros j d0 _ Hd0 Hf0. destruct (decide (pinCnt d0 = 0)); [done|].
      exfalso. apply Hno, Exists_exists. exists d0. split; [|done].
      apply list_elem_of_lookup. by exists j. }
    rewrite Hl in Hr. injection Hr as <-.
    eexists. split; [exact Hio|]. split.
    + apply flush_writes_elem with i d; try done; [lia|].
      simpl. by eapply wf_desc_lt.
    + rewrite (Ht i d Hd). by rewrite decide_True by (split; [lia|done]).
Qed.

Lemma dirty_written_back_witness :
  ∃ s', allocBuf one_dirty = (s', Ok 0) ∧
        io s' = io one_dirty ++ [EvWrite 1 (mkPage 1 [11])].
Proof.
  destruct (dirty_written_back one_dirty) as (Hvictim & _);
    [by_eval|by_eval|].
  eexists. split; [vm_compute; reflexivity|].
  eapply (Hvictim _ 0 (mkBufDesc 0 true true false 0 (Some 1) (Some 1))
            (mkPage 1 [11]) 1); by vm_compute.
Defined.

(** C5 as stated fails for dispose: the only frame holds page 1 dirty and
    unpinned; [disposePage] empties the frame and the file sees a
    [deletePage] and no [writePage]. *)
Lemma dirty_written_back_counterexample :
  wf one_dirty ∧ Inv one_dirty ∧
  bufDescTable one_dirty !! 0 =
    Some (mkBufDesc 0 true true false 0 (Some 1) (Some 1)) ∧
  (disposePage 1 1 one_dirty).2 = Ok tt ∧
  bufDescTable (disposePage 1 1 one_dirty).1 !! 0 =
    Some (mkBufDesc 0 false false false 0 None None) ∧
  io one_dirty = [EvRead 1 1] ∧
  io (disposePage 1 1 one_dirty).1 = [EvRead 1 1; EvDelete 1 1].
Proof. split_and!; [by_eval|by_eval|by vm_compute..]. Qed.

(** ** Further properties of the code *)

(** X1. The constructor.  A manager built with [bufs > 0] frames is
    well-formed and satisfies the index invariant, with every frame empty;
    because the hand starts on the last frame, the first frame allocation
    hands out frame 0, calls no file operation and changes neither the
    table nor the index, and the first fetch of a page the file holds
    lands in frame 0. *)
Theorem BufMgr_new_first_frame bufs dk :
  0 < bufs →
  wf (BufMgr_new bufs dk) ∧ Inv (BufMgr_new bufs dk) ∧
  (∀ i, i < bufs →
     bufDescTable (BufMgr_new bufs dk) !! i =
     Some (mkBufDesc i false false false 0 None None)) ∧
  (∃ s', allocBuf (BufMgr_new bufs dk) = (s', Ok 0) ∧
     clockHand s' = 0 ∧
     bufDescTable s' = bufDescTable (BufMgr_new bufs dk) ∧
     hashTable s' = ∅ ∧ io s' = [] ∧ disk s' = dk) ∧
  (∀ f p pg, dk !! (f, p) = Some pg →
     ∃ s', readPage f p (BufMgr_new bufs dk) = (s', Ok 0) ∧
       bufPool s' !! 0 = Some pg ∧ io s' = [EvRead f p] ∧
       hashTable s' = {[ (f, p) := 0 ]} ∧
       bufDescTable s' !! 0 =
         Some (mkBufDesc 0 true false false 1 (Some f) (Some p))).
Proof.
  intros Hb. set (s := BufMgr_new bufs dk).
  pose proof (wf_new bufs dk Hb) as Hwf. pose proof (Inv_new bufs dk) as HI.
  fold s in Hwf, HI.
  assert (∀ i, i < bufs →
     bufDescTable s !! i = Some (mkBufDesc i false false false 0 None None))
    as Ht.
  { intros i Hi. unfold s; simpl. rewrite list_lookup_fmap.
    rewrite lookup_seq_lt by done. done. }
  assert (pos s 1 = 0) as Hpos.
  { unfold pos, s; simpl. replace (bufs - 1 + 1) with bufs by lia.
    apply Nat.Div0.mod_same. }
  assert (∃ s', allocBuf s = (s', Ok 0) ∧ clockHand s' = 0 ∧
     bufDescTable s' = bufDescTable s ∧ hashTable s' = ∅ ∧ io s' = [] ∧
     disk s' = dk ∧ numBufs s' = bufs ∧ bufPool s' = bufPool s) as Halloc.
  { assert (bufDescTable s !! pos s 1 =
            Some (mkBufDesc 0 false false false 0 None None)) as Hd1
      by (rewrite Hpos; by apply Ht).
    destruct (allocBuf_finish s 0 (mkBufDesc 0 false false false 0 None None)
                Hwf HI) as (s' & Ha & Hn & Hc & Hp & Ht' & Hh & Hd & Hio).
    - exact Hd1.
    - done.
    - replace (2 * numBufs s) with (S (2 * bufs - 1)) by (unfold s; simpl; lia).
      by apply loop_usable.
    - simpl in *. rewrite Hpos in *. exists s'. split_and!; try done.
      rewrite Ht'. apply list_insert_id. by apply Ht. }
  split_and!; try done.
  - destruct Halloc as (s' & ? & ? & ? & ? & ? & ? & _). by exists s'.
  - intros f p pg Hdk.
    destruct Halloc as (s' & Ha & Hc & Ht' & Hh & Hio & Hd & Hn & Hp).
    eexists. split.
    + eapply readPage_miss_ok; [done|exact Ha|by rewrite Hd|by rewrite Hh|].
      rewrite Ht'. by apply Ht.
    + simpl. rewrite Hh, Hio.
      assert (0 < length (bufPool s')) as Hl0
        by (rewrite Hp; unfold s; simpl; rewrite length_replicate; lia).
      assert (0 < length (bufDescTable s')) as Hl1
        by (rewrite Ht'; apply lookup_lt_Some with (mkBufDesc 0 false false false 0 None None); by apply Ht).
      split_and!; try done.
      * by apply list_lookup_insert_eq.
      * by apply list_lookup_insert_eq.
Qed.

Lemma BufMgr_new_first_frame_witness :
  ∃ s', readPage 1 3 (BufMgr_new 2 disk0) = (s', Ok 0) ∧
        bufPool s' !! 0 = Some (mkPage 3 [13]).
Proof.
  destruct (BufMgr_new_first_frame 2 disk0) as (_ & _ & _ & _ & H); [lia|].
  destruct (H 1 3 (mkPage 3 [13])) as (s' & Hr & Hp & _); [by vm_compute|].
  by exists s'.
Defined.

(** X2. The clock hand.  [advanceClock] keeps the hand inside the pool;
    after [k] advances it is [k] frames further on, modulo the pool size;
    a full turn of [numBufs] advances brings the state back, and on the way
    the hand stops on every frame exactly once. *)
Theorem advanceClock_cycle s :
  wf s →
  (∀ k, Nat.iter k advanceClock s =
        set_clockHand ((clockHand s + k) `mod` numBufs s) s) ∧
  (∀ k, clockHand (Nat.iter k advanceClock s) < numBufs s) ∧
  Nat.iter (numBufs s) advanceClock s = s ∧
  (∀ i, i < numBufs s →
     ∃ k, 1 ≤ k ≤ numBufs s ∧ clockHand (Nat.iter k advanceClock s) = i ∧
       ∀ k', 1 ≤ k' ≤ numBufs s →
         clockHand (Nat.iter k' advanceClock s) = i → k' = k).
Proof.
  intros Hwf. pose proof Hwf as (Hn & _ & _ & Hc & _).
  assert (∀ k, Nat.iter k advanceClock s =
        set_clockHand ((clockHand s + k) `mod` numBufs s) s) as Hiter.
  { induction k as [|k IH]; simpl.
    - rewrite Nat.add_0_r, Nat.mod_small by done. by destruct s.
    - rewrite IH. unfold advanceClock, set_clockHand; simpl. f_equal.
      rewrite Nat.Div0.add_mod_idemp_l. f_equal. lia. }
  split_and!; [done| | |].
  - intros k. rewrite Hiter. simpl. apply Nat.mod_upper_bound. lia.
  - rewrite Hiter. fold (pos s (numBufs s)). rewrite pos_n by done.
    by destruct s.
  - intros i Hi. destruct (pos_surj s i Hwf Hi) as (k & Hk & Hpk).
    exists k. split_and!; [lia|lia|by rewrite Hiter|].
    intros k' Hk' He. rewrite Hiter in He. simpl in He.
    fold (pos s k') in He. rewrite <- Hpk in He.
    destruct (decide (k' ≤ k)).
    + apply pos_inj in He; [done|done|lia|lia].
    + symmetry in He. apply pos_inj in He; [done|done|lia|lia].
Qed.

Lemma advanceClock_cycle_witness :
  Nat.iter 3 advanceClock pool3_pinned = pool3_pinned.
Proof.
  destruct (advanceClock_cycle pool3_pinned) as (_ & _ & H & _); [by_eval|].
  exact H.
Defined.

Section pinned.
Implicit Types (s : State) (d : BufDesc) (i j c : nat).

(** Whatever [allocBuf] does, a valid pinned frame keeps its page: the
    frame is not the one handed out, its pool slot and index entry stay,
    and of its descriptor at most the reference bit changes. *)
Lemma allocBuf_keeps s s' r i d :
  wf s → Inv s → allocBuf s = (s', r) →
  bufDescTable s !! i = Some d → valid d = true → 0 < pinCnt d →
  r ≠ Ok i ∧ bufPool s' = bufPool s ∧
  (bufDescTable s' !! i = Some d ∨
   bufDescTable s' !! i = Some (with_refbit false d)) ∧
  (∀ f p, file d = Some f → pageNo d = Some p →
     hashTable s' !! (f, p) = Some i).
Proof.
  intros Hwf HI Ha Hd Hv Hpin.
  assert (∀ f p, file d = Some f → pageNo d = Some p →
     hashTable s !! (f, p) = Some i) as Hidx.
  { intros f p Hf Hp.
    destruct (Inv_complete s i d Hwf HI Hd Hv) as (f' & p' & ? & ? & ?).
    congruence. }
  destruct (allocBuf_spec s Hwf HI)
    as [(k & dk & s1 & Hdk & Hu & Ha' & _ & _ & Hp & Ht & Hrest)|(k & _ & Ha')];
    cbv zeta in *; rewrite Ha' in Ha; injection Ha as <- <-.
  - set (sk := Nat.iter k skip_step s) in *.
    destruct (iter_refs_cleared k s) as [_ Hrc]. fold sk in Hrc.
    pose proof (Hrc i d Hd) as Hi.
    assert (pos sk 1 ≠ i) as Hne.
    { intros He. rewrite He in Hdk.
      destruct Hi as [Hi|Hi]; rewrite Hi in Hdk; injection Hdk as <-;
        unfold usable in Hu; simpl in Hu; rewrite Hv in Hu;
        destruct (Nat.eqb_spec (pinCnt d) 0); try lia;
        by rewrite andb_false_r in Hu. }
    split_and!; [congruence|done| |].
    + rewrite Ht, list_lookup_insert_ne by done. exact Hi.
    + intros f p Hf Hpn. destruct (valid dk).
      * destruct Hrest as (f' & p' & _ & _ & Hh & -> & _).
        rewrite lookup_delete_ne; [by apply Hidx|].
        intros [= -> ->]. rewrite (Hidx f p Hf Hpn) in Hh. congruence.
      * destruct Hrest as (-> & _). by apply Hidx.
  - destruct (iter_fields k s Hwf) as (_ & _ & Hh & Hp & _).
    split_and!; [done|done| |].
    + destruct (iter_refs_cleared k s) as [_ Hrc]. exact (Hrc i d Hd).
    + intros f p Hf Hpn. simpl. rewrite Hh. by apply Hidx.
Qed.
End pinned.

(** X3. Pinned frames are never victims.  [allocBuf] never hands out a
    valid frame whose pin count is positive: such a frame keeps its
    descriptor (the reference bit may be cleared), its pool slot and its
    index entry, whether [allocBuf] returns or throws. *)
Theorem allocBuf_spares_pinned s s' r i d :
  wf s → Inv s → allocBuf s = (s', r) →
  bufDescTable s !! i = Some d → valid d = true → 0 < pinCnt d →
  r ≠ Ok i ∧
  bufPool s' !! i = bufPool s !! i ∧
  (∃ d', bufDescTable s' !! i = Some d' ∧ valid d' = true ∧
         pinCnt d' = pinCnt d ∧ dirty d' = dirty d ∧ file d' = file d ∧
         pageNo d' = pageNo d ∧ (refbit d' = true → refbit d = true)) ∧
  (∀ f p, file d = Some f → pageNo d = Some p →
     hashTable s' !! (f, p) = Some i).
Proof.
  intros Hwf HI Ha Hd Hv Hpin.
  destruct (allocBuf_keeps s s' r i d Hwf HI Ha Hd Hv Hpin)
    as (Hr & Hp & Ht & Hh).
  split_and!; [done|by rewrite Hp| |done].
  destruct Ht as [Ht|Ht]; eexists; (split; [exact Ht|]); by simpl.
Qed.

Lemma allocBuf_spares_pinned_witness :
  bufPool (allocBuf pool3_pinned).1 !! 1 = bufPool pool3_pinned !! 1.
Proof.
  destruct (allocBuf_spares_pinned pool3_pinned (allocBuf pool3_pinned).1
              (allocBuf pool3_pinned).2 1
              (mkBufDesc 1 true false false 1 (Some 1) (Some 2)))
    as (_ & H & _);
    [by_eval|by_eval|by vm_compute|by vm_compute|by vm_compute|simpl; lia|].
  exact H.
Defined.

(** X4. A pinned page stays resident.  Across a fetch or an allocation of
    any page, returning or throwing, a valid pinned frame keeps its page:
    same identity, same pool slot content, same dirty flag, its index
    entry, and a pin count that has not gone down. *)
Theorem pinned_page_stays s i d fi pi :
  wf s → Inv s →
  bufDescTable s !! i = Some d → valid d = true → 0 < pinCnt d →
  file d = Some fi → pageNo d = Some pi →
  let kept (s' : State) :=
    hashTable s' !! (fi, pi) = Some i ∧
    bufPool s' !! i = bufPool s !! i ∧
    ∃ d', bufDescTable s' !! i = Some d' ∧ valid d' = true ∧
          file d' = Some fi ∧ pageNo d' = Some pi ∧ dirty d' = dirty d ∧
          pinCnt d ≤ pinCnt d' in
  (∀ f p s' r, readPage f p s = (s', r) → kept s') ∧
  (∀ f s' r, allocPage f s = (s', r) → kept s').
Proof.
  intros Hwf HI Hd Hv Hpin Hf Hp kept.
  assert (hashTable s !! (fi, pi) = Some i) as Hidx.
  { destruct (Inv_complete s i d Hwf HI Hd Hv) as (f' & p' & ? & ? & ?).
    congruence. }
  assert (∀ s0 s1 r1, wf s0 → Inv s0 →
            bufDescTable s0 = bufDescTable s → bufPool s0 = bufPool s →
            allocBuf s0 = (s1, r1) →
            r1 ≠ Ok i ∧ kept s1) as Halloc.
  { intros s0 s1 r1 Hwf0 HI0 Ht0 Hp0 Ha. rewrite <- Ht0 in Hd.
    destruct (allocBuf_keeps s0 s1 r1 i d Hwf0 HI0 Ha Hd Hv Hpin)
      as (Hr & Hp1 & Ht1 & Hh1).
    split; [done|]. split_and!; [by apply Hh1|by rewrite Hp1, Hp0|].
    destruct Ht1 as [Ht1|Ht1]; eexists; (split; [exact Ht1|]); by simpl. }
  split.
  - intros f p s' r Hr. destruct (hashTable s !! (f, p)) as [j|] eqn:Hh.
    + destruct (Inv_sound s f p j HI Hh) as (dj & Hdj & _).
      rewrite (readPage_hit s f p j dj) in Hr by done.
      injection Hr as <- <-. split_and!; [done|done|]. simpl.
      destruct (decide (j = i)) as [->|Hne].
      * assert (dj = d) as -> by congruence.
        rewrite list_lookup_insert_eq by (by eapply lookup_lt_Some).
        eexists. split; [done|]. simpl. split_and!; try done. lia.
      * rewrite list_lookup_insert_ne by done. by exists d.
    + destruct (allocBuf s) as [s1 r1] eqn:Ha.
      destruct (Halloc s s1 r1 Hwf HI eq_refl eq_refl Ha)
        as (Hne & Hh1 & Hp1 & d1 & Hd1 & Hrest).
      destruct (allocBuf_post s s1 r1 Hwf HI Ha)
        as (Hwf1 & HI1 & _ & _ & Hsub & Hr1).
      destruct r1 as [c|e|]; [| |done].
      2:{ rewrite (readPage_miss_fail s f p s1 e) in Hr by done.
          injection Hr as <- <-. split_and!; [done|done|by exists d1]. }
      destruct Hr1 as (_ & _ & dc & Hdc & _).
      assert (c ≠ i) as Hci by congruence.
      destruct (disk s1 !! (f, p)) as [pg|] eqn:Hdisk.
      2:{ rewrite (readPage_miss_noread s f p s1 c) in Hr by done.
          injection Hr as <- <-. split_and!; [done|done|by exists d1]. }
      rewrite (readPage_miss_ok s f p s1 c pg dc) in Hr;
        [|done|done|done|by eapply lookup_weaken_None|done].
      injection Hr as <- <-. unfold kept; simpl.
      rewrite lookup_insert_ne by congruence.
      rewrite !list_lookup_insert_ne by done.
      split_and!; [done|done|by exists d1].
  - intros f s' r Hr. unfold allocPage in Hr.
    unfold bind at 1 in Hr. unfold file_allocatePage in Hr.
    set (s0 := set_world _ _ s) in Hr. set (newPage := mkPage _ _) in Hr.
    assert (wf s0) as Hwf0 by (by apply wf_set_world).
    assert (Inv s0) as HI0 by (by eapply Inv_ext).
    unfold bind at 1 in Hr. destruct (allocBuf s0) as [s1 r1] eqn:Ha.
    destruct (Halloc s0 s1 r1 Hwf0 HI0 eq_refl eq_refl Ha)
      as (Hne & Hh1 & Hp1 & d1 & Hd1 & Hrest).
    destruct (allocBuf_post s0 s1 r1 Hwf0 HI0 Ha)
      as (Hwf1 & HI1 & _ & _ & Hsub & Hr1).
    destruct r1 as [c|e|]; [| |done].
    2:{ injection Hr as <- <-. split_and!; [done|done|by exists d1]. }
    destruct Hr1 as (_ & _ & dc & Hdc & _).
    assert (c ≠ i) as Hci by congruence.
    unfold bind, set_page, page_at, hashTable_insert, ht_insert, desc_at,
      put_desc, ret in Hr. simpl in Hr.
    assert (c < length (bufPool s1)) as Hcl1
      by (eapply lookup_lt_is_Some_1, wf_page; [done|by eapply wf_desc_lt]).
    rewrite list_lookup_insert_eq in Hr by done. simpl in Hr.
    destruct (hashTable s1 !! (f, fresh_page f (disk s))) as [j|] eqn:Hh.
    + injection Hr as <- <-. unfold kept; simpl.
      rewrite list_lookup_insert_ne by done.
      split_and!; [done|done|by exists d1].
    + simpl in Hr. rewrite Hdc in Hr. injection Hr as <- <-.
      unfold kept; simpl.
      rewrite lookup_insert_ne by congruence.
      rewrite !list_lookup_insert_ne by done.
      split_and!; [done|done|by exists d1].
Qed.

Lemma pinned_page_stays_witness :
  hashTable (readPage 1 4 pool3_pinned).1 !! (1, 2) = Some 1.
Proof.
  destruct (pinned_page_stays pool3_pinned 1
              (mkBufDesc 1 true false false 1 (Some 1) (Some 2)) 1 2)
    as (H & _);
    [by_eval|by_eval|by vm_compute|by vm_compute|simpl; lia|by vm_compute
    |by vm_compute|].
  destruct (H 1 4 (readPage 1 4 pool3_pinned).1
              (readPage 1 4 pool3_pinned).2) as (Hh & _); [|exact Hh].
  by destruct (readPage 1 4 pool3_pinned).
Defined.

(** With a usable frame in the table the sweep stops in its first turn. *)
Lemma allocBuf_usable_ok s :
  wf s → Inv s →
  (∃ i d, bufDescTable s !! i = Some d ∧ usable d = true) →
  ∃ s' c dc, allocBuf s = (s', Ok c) ∧ c < numBufs s ∧
    bufDescTable s !! c = Some dc ∧ usable dc = true ∧
    bufDescTable s' !! c = Some (Clear dc) ∧
    ∀ k, hashTable s' !! k ≠ Some c.
Proof.
  intros Hwf HI (i & d & Hd & Hu).
  destruct (scan s (numBufs s)) as [Hs|(j & dj & Hj & Hdj & Huj & Hb)].
  { intros j _. apply wf_desc; [done|by apply pos_lt]. }
  { apply (no_usable_Forall s Hwf) in Hs.
    pose proof (Forall_lookup_1 _ _ _ _ Hs Hd). congruence. }
  pose proof (sweep_first_usable j (2 * numBufs s - j) s dj Hwf Hj Hb Hdj Huj)
    as Hloop.
  replace (j + (2 * numBufs s - j)) with (2 * numBufs s) in Hloop by lia.
  destruct (iter_fields (j - 1) s Hwf) as (_ & _ & _ & _ & _ & _ & _ & Hp).
  assert (pos (Nat.iter (j - 1) skip_step s) 1 = pos s j) as Hpos
    by (rewrite Hp; f_equal; lia).
  assert (bufDescTable (Nat.iter (j - 1) skip_step s) !! pos s j = Some dj)
    as Hdk.
  { rewrite iter_lookup_unvisited; [done|done|].
    intros j' Hj' He. apply pos_inj in He; [lia|done|lia|lia]. }
  destruct (allocBuf_finish s (j - 1) dj Hwf HI)
    as (s' & Ha & _ & _ & _ & Ht & _); [by rewrite Hpos|done|done|].
  cbv zeta in *. rewrite Hpos in *.
  destruct (allocBuf_post s s' _ Hwf HI Ha) as (_ & HI' & _).
  assert (bufDescTable s' !! pos s j = Some (Clear dj)) as Hc.
  { rewrite Ht. apply list_lookup_insert_eq. by eapply lookup_lt_Some. }
  exists s', (pos s j), dj. split_and!; try done.
  + by apply pos_lt.
  + by eapply Inv_invalid_free.
Qed.

(** X5. When frame allocation succeeds.  If some frame is usable (invalid,
    or valid, unreferenced and unpinned), [allocBuf] returns within the
    first turn: the frame it hands out was usable before the call, is in
    the pool, and is left empty and unmapped.  If instead every frame is
    valid and pinned, [allocBuf] throws [BufferExceededException] and
    leaves the pool, the index, the file trace and the hand as they
    were. *)
Theorem allocBuf_progress s :
  wf s → Inv s →
  ((∃ i d, bufDescTable s !! i = Some d ∧ usable d = true) →
     ∃ s' c dc, allocBuf s = (s', Ok c) ∧ c < numBufs s ∧
       bufDescTable s !! c = Some dc ∧ usable dc = true ∧
       bufDescTable s' !! c = Some (Clear dc) ∧
       ∀ k, hashTable s' !! k ≠ Some c) ∧
  ((∀ i d, bufDescTable s !! i = Some d → valid d = true ∧ 0 < pinCnt d) →
     ∃ s', allocBuf s = (s', Throw BufferExceededException) ∧
       bufPool s' = bufPool s ∧ hashTable s' = hashTable s ∧
       io s' = io s ∧ clockHand s' = clockHand s).
Proof.
  intros Hwf HI. split.
  - by apply allocBuf_usable_ok.
  - intros Hall.
    assert (exhausted s) as Hex.
    { split; [|right]; apply Forall_lookup; intros i d Hd;
        destruct (Hall i d Hd); [split; [done|by right]|done]. }
    destruct (loop_exceeded_complete s Hwf Hex) as [s' Hl].
    assert (allocBuf s = (s', Throw BufferExceededException)) as Ha
      by (by rewrite allocBuf_unfold, Hl).
    exists s'. split; [done|].
    by destruct (allocBuf_throw s s' _ Hwf HI Ha)
      as (_ & _ & ? & ? & ? & _ & ? & _).
Qed.

Lemma allocBuf_progress_witness :
  (∃ s' c, allocBuf one_clean = (s', Ok c)) ∧
  (∃ s', allocBuf pool3_pinned = (s', Throw BufferExceededException)).
Proof.
  split.
  - destruct (allocBuf_progress one_clean) as (H & _); [by_eval|by_eval|].
    destruct H as (s' & c & dc & Ha & _).
    + exists 0, (mkBufDesc 0 true false false 0 (Some 1) (Some 1)).
      by vm_compute.
    + by exists s', c.
  - destruct (allocBuf_progress pool3_pinned) as (_ & H); [by_eval|by_eval|].
    destruct H as (s' & Ha & _); [|by exists s'].
    intros [|[|[|i]]] d Hd; vm_compute in Hd; [| | |done];
      injection Hd as <-; simpl; split; (done || lia).
Defined.

Section refetch.
Implicit Types (s : State) (d : BufDesc) (i j c : nat).

(** A fetch that returns has the page cached and pinned in the frame it
    returns. *)
Lemma readPage_ok_cached s f p s' c :
  wf s → Inv s → readPage f p s = (s', Ok c) →
  hashTable s' !! (f, p) = Some c ∧
  ∃ d, bufDescTable s' !! c = Some d ∧ valid d = true ∧ 0 < pinCnt d ∧
       file d = Some f ∧ pageNo d = Some p.
Proof.
  intros Hwf HI Hr. destruct (hashTable s !! (f, p)) as [j|] eqn:Hh.
  - destruct (Inv_sound s f p j HI Hh) as (dj & Hdj & Hv & Hf & Hp).
    rewrite (readPage_hit s f p j dj) in Hr by done.
    injection Hr as <- <-. split; [done|]. simpl.
    rewrite list_lookup_insert_eq by (by eapply lookup_lt_Some).
    eexists. split; [done|]. simpl. split_and!; try done. lia.
  - destruct (allocBuf s) as [s1 r1] eqn:Ha.
    destruct (allocBuf_post s s1 r1 Hwf HI Ha)
      as (Hwf1 & HI1 & _ & _ & Hsub & Hr1).
    destruct r1 as [c1|e|]; [| |done].
    2:{ by rewrite (readPage_miss_fail s f p s1 e) in Hr. }
    destruct Hr1 as (_ & _ & dc & Hdc & _).
    destruct (disk s1 !! (f, p)) as [pg|] eqn:Hdisk.
    2:{ by rewrite (readPage_miss_noread s f p s1 c1) in Hr. }
    rewrite (readPage_miss_ok s f p s1 c1 pg dc) in Hr;
      [|done|done|done|by eapply lookup_weaken_None|done].
    injection Hr as <- <-. simpl. rewrite lookup_insert_eq.
    split; [done|].
    rewrite list_lookup_insert_eq by (by eapply lookup_lt_Some).
    eexists. split; [done|]. simpl. split_and!; try done. lia.
Qed.
End refetch.

(** X6. A fetched page is cached.  After a fetch that returns frame [c],
    the index maps the page to [c] and the frame is valid and pinned;
    fetching the same page again is a hit: it returns [c] again, calls no
    file operation, leaves the pool and the index alone and adds one pin. *)
Theorem readPage_again s f p s1 c :
  wf s → Inv s → readPage f p s = (s1, Ok c) →
  hashTable s1 !! (f, p) = Some c ∧
  ∃ d1 s2, bufDescTable s1 !! c = Some d1 ∧ valid d1 = true ∧
    0 < pinCnt d1 ∧
    readPage f p s1 = (s2, Ok c) ∧
    io s2 = io s1 ∧ disk s2 = disk s1 ∧ bufPool s2 = bufPool s1 ∧
    hashTable s2 = hashTable s1 ∧ clockHand s2 = clockHand s1 ∧
    ∃ d2, bufDescTable s2 !! c = Some d2 ∧ pinCnt d2 = pinCnt d1 + 1 ∧
          refbit d2 = true ∧ dirty d2 = dirty d1.
Proof.
  intros Hwf HI Hr.
  destruct (readPage_ok_cached s f p s1 c Hwf HI Hr)
    as (Hh & d1 & Hd1 & Hv & Hpin & _).
  split; [done|]. exists d1.
  exists (set_desc c (with_pinCnt (pinCnt d1 + 1) (with_refbit true d1)) s1).
  split_and!; try done; [by apply readPage_hit|]. simpl.
  rewrite list_lookup_insert_eq by (by eapply lookup_lt_Some).
  eexists. split; [done|]. by simpl.
Qed.

Lemma readPage_again_witness :
  ∃ s2, readPage 1 1 (readPage 1 1 (BufMgr_new 2 disk0)).1 = (s2, Ok 0).
Proof.
  destruct (readPage_again (BufMgr_new 2 disk0) 1 1
              (readPage 1 1 (BufMgr_new 2 disk0)).1 0)
    as (_ & d1 & s2 & _ & _ & _ & Hr & _); [by_eval|by_eval|by vm_compute|].
  by exists s2.
Defined.

(** X7. A fetched page cannot be disposed of or flushed.  After a fetch
    that returns, and until the page is released, [disposePage] of the page
    and [flushFile] of its file throw [PagePinnedException]; the dispose
    changes nothing and does not reach the file. *)
Theorem fetched_page_protected s f p s1 c :
  wf s → Inv s → readPage f p s = (s1, Ok c) →
  disposePage f p s1 = (s1, Throw PagePinnedException) ∧
  ∃ s2, flushFile f s1 = (s2, Throw PagePinnedException).
Proof.
  intros Hwf HI Hr.
  destruct (readPage_post s f p s1 _ Hwf HI Hr) as (Hwf1 & HI1 & _).
  destruct (readPage_ok_cached s f p s1 c Hwf HI Hr)
    as (Hh & d1 & Hd1 & Hv & Hpin & Hf & Hp).
  split.
  - destruct (disposePage_cached s1 f p c Hwf1 HI1 Hh)
      as (d & Hd & _ & _ & _ & He).
    assert (d = d1) as -> by congruence. rewrite He.
    by destruct (Nat.ltb_spec 0 (pinCnt d1)); [|lia].
  - destruct (flushFile_loop_pinned (numBufs s1) 0 f s1 Hwf1 HI1)
      as (s2 & m & dm & Hl & _); [done| |by exists s2].
    exists c, d1. split_and!; [lia|done|done|lia].
Qed.

Lemma fetched_page_protected_witness :
  disposePage 1 1 (readPage 1 1 (BufMgr_new 2 disk0)).1 =
  ((readPage 1 1 (BufMgr_new 2 disk0)).1, Throw PagePinnedException).
Proof.
  destruct (fetched_page_protected (BufMgr_new 2 disk0) 1 1
              (readPage 1 1 (BufMgr_new 2 disk0)).1 0) as (H & _);
    [by_eval|by_eval|by vm_compute|].
  exact H.
Defined.

(** X8. Fetch and release of a cached page cancel out.  When the page is
    cached in frame [i], a fetch followed by a release returns the manager
    to the state it was in, except that the frame's reference bit is set
    and, if the release asks for it, its dirty flag. *)
Theorem fetch_release_roundtrip s f p b i d :
  hashTable s !! (f, p) = Some i → bufDescTable s !! i = Some d →
  ∃ s1, readPage f p s = (s1, Ok i) ∧
    unPinPage f p b s1 =
    (set_desc i (with_dirty (b || dirty d) (with_refbit true d)) s, Ok tt).
Proof.
  intros Hh Hd.
  set (d1 := with_pinCnt (pinCnt d + 1) (with_refbit true d)).
  exists (set_desc i d1 s). split; [by apply readPage_hit|].
  rewrite (unPinPage_pinned (set_desc i d1 s) f p b i d1);
    [|done| |simpl; lia].
  - unfold set_desc, set_bufDescTable; simpl.
    rewrite list_insert_insert_eq.
    by replace (pinCnt d + 1 - 1) with (pinCnt d) by lia.
  - simpl. apply list_lookup_insert_eq. by eapply lookup_lt_Some.
Qed.

Lemma fetch_release_roundtrip_witness :
  ∃ s1, readPage 1 1 one_dirty = (s1, Ok 0) ∧
    unPinPage 1 1 false s1 =
    (set_desc 0 (mkBufDesc 0 true true true 0 (Some 1) (Some 1)) one_dirty,
     Ok tt).
Proof.
  apply (fetch_release_roundtrip one_dirty 1 1 false 0
           (mkBufDesc 0 true true false 0 (Some 1) (Some 1)));
    by vm_compute.
Defined.

(** X9. Fetch, release, dispose.  A page that was not cached, once fetched
    and released, can be disposed of: the dispose returns, the frame that
    held the page is empty again, the index no longer knows the page and
    the file has been told to delete it, without a write even if the
    release marked the page dirty. *)
Theorem fetch_release_dispose s f p b s1 c :
  wf s → Inv s → hashTable s !! (f, p) = None →
  readPage f p s = (s1, Ok c) →
  ∃ s2 s3, unPinPage f p b s1 = (s2, Ok tt) ∧
    disposePage f p s2 = (s3, Ok tt) ∧
    hashTable s3 !! (f, p) = None ∧
    bufDescTable s3 !! c = Some (mkBufDesc c false false false 0 None None) ∧
    io s3 = io s1 ++ [EvDelete f p] ∧
    disk s3 !! (f, p) = None.
Proof.
  intros Hwf HI Hh Hr.
  destruct (allocBuf s) as [s0 r0] eqn:Ha.
  destruct (allocBuf_post s s0 r0 Hwf HI Ha)
    as (Hwf0 & HI0 & _ & _ & Hsub & Hr0).
  destruct r0 as [c0|e|]; [| |done].
  2:{ by rewrite (readPage_miss_fail s f p s0 e) in Hr. }
  destruct Hr0 as (_ & _ & dc & Hdc & _).
  destruct (disk s0 !! (f, p)) as [pg|] eqn:Hdisk.
  2:{ by rewrite (readPage_miss_noread s f p s0 c0) in Hr. }
  rewrite (readPage_miss_ok s f p s0 c0 pg dc) in Hr;
    [|done|done|done|by eapply lookup_weaken_None|done].
  pose proof Hr as Hr'. injection Hr' as Hs1 <-.
  assert (readPage f p s = (s1, Ok c0)) as Hrs.
  { rewrite (readPage_miss_ok s f p s0 c0 pg dc);
      [by rewrite Hs1|done|done|done|by eapply lookup_weaken_None|done]. }
  destruct (readPage_post s f p s1 _ Hwf HI Hrs) as (Hwf1 & HI1 & _).
  assert (hashTable s1 !! (f, p) = Some c0) as Hh1
    by (rewrite <- Hs1; simpl; apply lookup_insert_eq).
  assert (bufDescTable s1 !! c0 = Some (Set_ dc f p)) as Hd1.
  { rewrite <- Hs1; simpl. apply list_lookup_insert_eq.
    by eapply lookup_lt_Some. }
  pose proof (unPinPage_pinned s1 f p b c0 (Set_ dc f p) Hh1 Hd1) as Hu.
  simpl in Hu. specialize (Hu ltac:(lia)).
  set (d2 := mkBufDesc (frameNo dc) true (b || false) false 0 (Some f) (Some p)) in Hu.
  set (s2 := set_desc c0 d2 s1) in Hu.
  destruct (unPinPage_post s1 f p b s2 _ Hwf1 HI1 Hu) as (Hwf2 & HI2 & _).
  assert (hashTable s2 !! (f, p) = Some c0) as Hh2 by done.
  destruct (disposePage_cached s2 f p c0 Hwf2 HI2 Hh2)
    as (d & Hd & _ & _ & _ & He).
  assert (d = d2) as ->.
  { unfold s2 in Hd; simpl in Hd.
    rewrite list_lookup_insert_eq in Hd by (by eapply lookup_lt_Some).
    congruence. }
  simpl in He. exists s2. eexists. split; [done|]. split; [exact He|].
  simpl. split_and!.
  - apply lookup_delete_eq.
  - rewrite list_lookup_insert_eq.
    + unfold Clear; simpl. by rewrite (wf_frameNo s0 c0 dc Hwf0 Hdc).
    + rewrite length_insert. by eapply lookup_lt_Some.
  - done.
  - apply lookup_delete_eq.
Qed.

Lemma fetch_release_dispose_witness :
  ∃ s2 s3,
    unPinPage 1 2 true (readPage 1 2 (BufMgr_new 2 disk0)).1 = (s2, Ok tt) ∧
    disposePage 1 2 s2 = (s3, Ok tt) ∧ disk s3 !! (1, 2) = None.
Proof.
  destruct (fetch_release_dispose (BufMgr_new 2 disk0) 1 2 true
              (readPage 1 2 (BufMgr_new 2 disk0)).1 0)
    as (s2 & s3 & Hu & Hd & _ & _ & _ & Hdk);
    [by_eval|by_eval|by vm_compute|by vm_compute|].
  by exists s2, s3.
Defined.

Section alloc_page.
Implicit Types (s : State) (d : BufDesc) (i j c : nat).

(** [allocBuf] calls the file at most once, to write a victim out. *)
Lemma allocBuf_io s s' r :
  wf s → Inv s → allocBuf s = (s', r) →
  io s' = io s ∨ ∃ f pg, io s' = io s ++ [EvWrite f pg].
Proof.
  intros Hwf HI Ha.
  destruct (allocBuf_spec s Hwf HI)
    as [(k & dk & s1 & _ & _ & Ha' & _ & _ & _ & _ & Hrest)|(k & _ & Ha')];
    cbv zeta in *; rewrite Ha' in Ha; injection Ha as <- <-.
  - destruct (valid dk).
    + destruct Hrest as (f & p & _ & _ & _ & _ & Hrest).
      destruct (dirty dk).
      * destruct Hrest as (pg & _ & _ & ?). right. by exists f, pg.
      * left. by destruct Hrest.
    + left. by destruct Hrest as (_ & _ & ?).
  - left. by destruct (iter_fields k s Hwf) as (_ & _ & _ & _ & _ & ? & _).
Qed.

(** The three ways [allocPage] ends after the file has made the page. *)
Lemma allocPage_unfold s f s1 r :
  let n := fresh_page f (disk s) in
  let s0 := set_world (<[(f, n) := mkPage n []]> (disk s))
              (io s ++ [EvAllocate f n]) s in
  allocBuf s0 = (s1, r) →
  allocPage f s =
  match r with
  | Ok c =>
      match (<[c := mkPage n []]> (bufPool s1)) !! c with
      | Some pg =>
          let s2 := set_bufPool (<[c := mkPage n []]> (bufPool s1)) s1 in
          match hashTable s1 !! (f, page_number pg) with
          | Some _ => (s2, Throw HashAlreadyPresentException)
          | None =>
              match bufDescTable s1 !! c with
              | Some d =>
                  (set_desc c (Set_ d f (page_number pg))
                     (set_hashTable
                        (<[(f, page_number pg) := c]> (hashTable s1)) s2),
                   Ok (page_number pg, c))
              | None =>
                  (set_hashTable
                     (<[(f, page_number pg) := c]> (hashTable s1)) s2,
                   Abort)
              end
          end
      | None => (set_bufPool (<[c := mkPage n []]> (bufPool s1)) s1, Abort)
      end
  | Throw e => (s1, Throw e)
  | Abort => (s1, Abort)
  end.
Proof.
  intros n s0 Ha. unfold allocPage.
  unfold bind at 1. unfold file_allocatePage. fold n. fold s0.
  unfold bind at 1. rewrite Ha. destruct r as [c|e|]; [|done..].
  unfold bind, set_page, page_at, hashTable_insert, ht_insert, desc_at,
    put_desc, ret. simpl.
  destruct (<[c:=mkPage n []]> (bufPool s1) !! c) as [pg|]; [|done].
  simpl. destruct (hashTable s1 !! (f, page_number pg)); [done|]. simpl.
  by destruct (bufDescTable s1 !! c).
Qed.
End alloc_page.

(** X10. Allocate.  [allocPage] first has the file create a page, then
    takes a frame from [allocBuf].  When the new page number is not in the
    index, the call returns that number and the frame: the pool slot holds
    the new page, the index maps it to the frame, and the descriptor is
    valid, clean and pinned once.  Besides [allocatePage] the file sees at
    most the write of an evicted dirty page: nothing is read.  When the
    index already holds the new page number, [insert] throws
    [HashAlreadyPresentException] after the frame has been taken. *)
Theorem allocPage_outcomes s f :
  wf s → Inv s →
  let n := fresh_page f (disk s) in
  let s0 := set_world (<[(f, n) := mkPage n []]> (disk s))
              (io s ++ [EvAllocate f n]) s in
  ∀ s1 c, allocBuf s0 = (s1, Ok c) →
    (io s1 = io s ++ [EvAllocate f n] ∨
     ∃ fv pgv, io s1 = io s ++ [EvAllocate f n; EvWrite fv pgv]) ∧
    match hashTable s1 !! (f, n) with
    | None =>
        ∃ s', allocPage f s = (s', Ok (n, c)) ∧
          bufPool s' !! c = Some (mkPage n []) ∧
          hashTable s' = <[(f, n) := c]> (hashTable s1) ∧
          bufDescTable s' !! c =
            Some (mkBufDesc c true false false 1 (Some f) (Some n)) ∧
          (∀ j, j ≠ c → bufDescTable s' !! j = bufDescTable s1 !! j) ∧
          io s' = io s1 ∧ disk s' = disk s1
    | Some _ =>
        allocPage f s =
        (set_bufPool (<[c := mkPage n []]> (bufPool s1)) s1,
         Throw HashAlreadyPresentException)
    end.
Proof.
  intros Hwf HI n s0 s1 c Ha.
  assert (wf s0) as Hwf0 by (by apply wf_set_world).
  assert (Inv s0) as HI0 by (by eapply Inv_ext).
  destruct (allocBuf_post s0 s1 _ Hwf0 HI0 Ha)
    as (Hwf1 & HI1 & Hn1 & Hp1 & Hsub & Hc & Hhand & d & Hd & Hcl).
  assert (c < length (bufPool s1)) as Hcl1
    by (eapply lookup_lt_is_Some_1, wf_page; [done|by eapply wf_desc_lt]).
  split.
  - destruct (allocBuf_io s0 s1 _ Hwf0 HI0 Ha) as [->|(fv & pgv & ->)].
    + by left.
    + right. exists fv, pgv. simpl. by rewrite <- app_assoc.
  - rewrite (allocPage_unfold s f s1 _ Ha). fold n.
    rewrite list_lookup_insert_eq by done. simpl.
    destruct (hashTable s1 !! (f, n)); [done|]. rewrite Hd.
    eexists. split; [done|]. simpl. split_and!; try done.
    + by apply list_lookup_insert_eq.
    + rewrite list_lookup_insert_eq by (by eapply lookup_lt_Some).
      unfold Set_. by rewrite (wf_frameNo s1 c d Hwf1 Hd).
    + intros j Hj. by apply list_lookup_insert_ne.
Qed.

Lemma allocPage_outcomes_witness :
  ∃ s', allocPage 1 one_dirty = (s', Ok (5, 0)) ∧
        bufPool s' !! 0 = Some (mkPage 5 []).
Proof.
  pose proof (allocPage_outcomes one_dirty 1 ltac:(by_eval) ltac:(by_eval))
    as H.
  cbv zeta in H.
  destruct (H (allocBuf (set_world
                 (<[(1, fresh_page 1 (disk one_dirty)) :=
                     mkPage (fresh_page 1 (disk one_dirty)) []]> (disk one_dirty))
                 (io one_dirty ++ [EvAllocate 1 (fresh_page 1 (disk one_dirty))])
                 one_dirty)).1 0) as (_ & Hm); [by vm_compute|].
  match type of Hm with
  | match ?x with _ => _ end =>
      assert (x = None) as Hx by (by vm_compute); rewrite Hx in Hm
  end.
  destruct Hm as (s' & Hr & Hp & _).
  exists s'. split; [|exact Hp].
  rewrite Hr. by vm_compute.
Defined.

(** X11. A failed allocate leaves the new page behind in the file.
    [allocPage] asks the file for a new page before it asks for a frame:
    from a state in which frame allocation gives up, [allocPage] throws
    [BufferExceededException] although the file has already created the
    page; the caller gets no page number, and pool and index are as they
    were. *)
Theorem allocPage_exhausted_leaks s f :
  wf s → Inv s → exhausted s →
  ∃ s', allocPage f s = (s', Throw BufferExceededException) ∧
    disk s' !! (f, fresh_page f (disk s)) =
      Some (mkPage (fresh_page f (disk s)) []) ∧
    io s' = io s ++ [EvAllocate f (fresh_page f (disk s))] ∧
    bufPool s' = bufPool s ∧ hashTable s' = hashTable s ∧
    clockHand s' = clockHand s.
Proof.
  intros Hwf HI Hex.
  set (n := fresh_page f (disk s)).
  set (s0 := set_world (<[(f, n) := mkPage n []]> (disk s))
               (io s ++ [EvAllocate f n]) s).
  assert (wf s0) as Hwf0 by (by apply wf_set_world).
  assert (Inv s0) as HI0 by (by eapply Inv_ext).
  destruct (loop_exceeded_complete s0 Hwf0 Hex) as [s1 Hl].
  assert (allocBuf s0 = (s1, Throw BufferExceededException)) as Ha
    by (by rewrite allocBuf_unfold, Hl).
  destruct (allocBuf_throw s0 s1 _ Hwf0 HI0 Ha)
    as (_ & _ & Hp & Hh & Hc & Hd & Hio & _).
  exists s1. rewrite (allocPage_unfold s f s1 _ Ha).
  split_and!; try done. rewrite Hd. simpl. apply lookup_insert_eq.
Qed.

Lemma allocPage_exhausted_leaks_witness :
  ∃ s', allocPage 1 pool3_pinned = (s', Throw BufferExceededException) ∧
        disk s' !! (1, 5) = Some (mkPage 5 []).
Proof.
  destruct (allocPage_exhausted_leaks pool3_pinned 1)
    as (s' & Hr & Hd & _); [by_eval|by_eval| |].
  - split.
    + vm_compute. repeat constructor; lia.
    + left. eexists. vm_compute. done.
  - exists s'. split; [done|]. exact Hd.
Defined.

Section destructor.
Implicit Types (s : State) (d : BufDesc) (i j n : nat).

Lemma bind_ext {A B} (m : M A) (k1 k2 : A → M B) s :
  (∀ a s', k1 a s' = k2 a s') → bind m k1 s = bind m k2 s.
Proof. intros He. unfold bind. by destruct (m s) as [s' [a|e|]]. Qed.

(** With a file that is not null the destructor's flush is
    [flushFile]. *)
Lemma flushFile_ptr_Some f s : flushFile_ptr (Some f) s = flushFile f s.
Proof.
  unfold flushFile_ptr, flushFile. apply bind_ext. intros n s'. clear s.
  generalize 0 as i. revert s'.
  induction n as [|n IH]; intros s i; [done|]. simpl.
  apply bind_ext. intros d s1. apply bind_ext. intros _ s2. apply IH.
Qed.

Lemma delete_step_clean n i s d :
  bufDescTable s !! i = Some d → dirty d = false →
  BufMgr_delete_loop (S n) i s = BufMgr_delete_loop n (S i) s.
Proof.
  intros Hd Hc. simpl. unfold bind at 1. unfold desc_at. rewrite Hd.
  unfold bind at 1. by rewrite Hc.
Qed.

Lemma delete_step_dirty n i s d f :
  bufDescTable s !! i = Some d → dirty d = true → file d = Some f →
  BufMgr_delete_loop (S n) i s =
  match flushFile f s with
  | (s', Ok _) => BufMgr_delete_loop n (S i) s'
  | (s', Throw e) => (s', Throw e)
  | (s', Abort) => (s', Abort)
  end.
Proof.
  intros Hd Hc Hf. simpl. unfold bind at 1. unfold desc_at. rewrite Hd.
  unfold bind at 1. rewrite Hc, Hf, flushFile_ptr_Some.
  by destruct (flushFile f s) as [s' [[]|e|]].
Qed.

Lemma flush_writes_only n i f t pl e :
  e ∈ flush_writes n i f t pl → ∃ pg, e = EvWrite f pg.
Proof.
  revert i. induction n as [|n IH]; intros i He; simpl in He.
  - by apply elem_of_nil in He.
  - apply elem_of_app in He as [He|He]; [|by eapply IH].
    destruct (t !! i) as [d|]; [|by apply elem_of_nil in He].
    destruct (pl !! i) as [pg|]; [|by apply elem_of_nil in He].
    destruct (bool_decide (file d = Some f) && dirty d);
      [|by apply elem_of_nil in He].
    apply list_elem_of_singleton in He. by exists pg.
Qed.

(** A dirty frame is valid and has a file, under the invariant. *)
Lemma Inv_dirty s i d :
  wf s → Inv s → bufDescTable s !! i = Some d → dirty d = true →
  valid d = true ∧ ∃ f, file d = Some f.
Proof.
  intros Hwf HI Hd Hdirty. destruct (valid d) eqn:Hv.
  - split; [done|].
    destruct (Inv_complete s i d Hwf HI Hd Hv) as (f & p & ? & _).
    by exists f.
  - rewrite (Inv_empty s i d HI Hd Hv) in Hdirty. done.
Qed.

(** A flush that returns, seen from the whole table. *)
Lemma flushFile_ok s f :
  wf s → Inv s →
  (∀ j d, bufDescTable s !! j = Some d → file d = Some f → pinCnt d = 0) →
  ∃ s', flushFile f s = (s', Ok tt) ∧ wf s' ∧ Inv s' ∧
    numBufs s' = numBufs s ∧ bufPool s' = bufPool s ∧
    (∀ j d, bufDescTable s !! j = Some d →
       bufDescTable s' !! j =
       Some (if decide (file d = Some f) then Clear d else d)) ∧
    io s' = io s ++ flush_writes (numBufs s) 0 f (bufDescTable s) (bufPool s).
Proof.
  intros Hwf HI Hpin.
  destruct (flushFile_loop_ok (numBufs s) 0 f s Hwf HI)
    as (s' & Hl & Hwf' & HI' & Hn' & Hp' & _ & Ht' & _ & Hio');
    [done|by intros j d _; apply Hpin|].
  exists s'. split_and!; try done.
  intros j d Hd. rewrite (Ht' j d Hd). f_equal.
  destruct (decide (file d = Some f)).
  - by rewrite decide_True by (split; [lia|done]).
  - by rewrite decide_False by (by intros [_ ?]).
Qed.

Lemma delete_loop_ok n i s :
  wf s → Inv s → i + n = numBufs s → ¬ flush_blocked s →
  (∀ j d, j < i → bufDescTable s !! j = Some d → dirty d = false) →
  ∃ s' tr, BufMgr_delete_loop n i s = (s', Ok tt) ∧
    bufPool s' = bufPool s ∧ io s' = io s ++ tr ∧
    (∀ j d, bufDescTable s' !! j = Some d → dirty d = false) ∧
    (∀ j d f pg, bufDescTable s !! j = Some d → dirty d = true →
       file d = Some f → bufPool s !! j = Some pg → EvWrite f pg ∈ tr) ∧
    (∀ e, e ∈ tr → ∃ f pg, e = EvWrite f pg) ∧
    (∀ j d, bufDescTable s !! j = Some d →
       bufDescTable s' !! j = Some d ∨
       bufDescTable s' !! j = Some (Clear d)) ∧
    (∀ j d, bufDescTable s !! j = Some d →
       (∀ j' d', bufDescTable s !! j' = Some d' → dirty d' = true →
                 file d' ≠ file d) →
       bufDescTable s' !! j = Some d).
Proof.
  revert i s. induction n as [|n IH]; intros i s Hwf HI Hn Hnb Hclean.
  { exists s, []. simpl. rewrite app_nil_r. split_and!; try done.
    - intros j d Hd. apply (Hclean j d); [|done].
      apply (wf_desc_lt s j d Hwf) in Hd. lia.
    - intros j d f pg Hd Hdirty. rewrite (Hclean j d) in Hdirty; [done| |done].
      apply (wf_desc_lt s j d Hwf) in Hd. lia.
    - intros e He. by apply elem_of_nil in He.
    - intros j d Hd. by left. }
  destruct (wf_desc s i Hwf) as [d Hd]; [lia|].
  destruct (dirty d) eqn:Hdirty.
  2:{ rewrite (delete_step_clean n i s d) by done.
      apply IH; [done|done|lia|done|].
      intros j dj Hj Hdj. destruct (decide (j = i)) as [->|].
      - congruence.
      - apply (Hclean j dj); [lia|done]. }
  destruct (Inv_dirty s i d Hwf HI Hd Hdirty) as (Hv & f & Hf).
  rewrite (delete_step_dirty n i s d f) by done.
  destruct (flushFile_ok s f Hwf HI)
    as (s1 & Hfl & Hwf1 & HI1 & Hn1 & Hp1 & Ht1 & Hio1).
  { intros j dj Hdj Hfj. destruct (decide (pinCnt dj = 0)); [done|].
    exfalso. apply Hnb. exists i, d, j, dj, (Some f). done. }
  rewrite Hfl.
  assert (∀ j d1, bufDescTable s1 !! j = Some d1 →
            ∃ d0, bufDescTable s !! j = Some d0 ∧
                  (d1 = d0 ∧ file d0 ≠ Some f ∨ d1 = Clear d0)) as Hback.
  { intros j d1 Hd1.
    destruct (bufDescTable s !! j) as [d0|] eqn:Hd0.
    2:{ apply lookup_ge_None in Hd0. apply lookup_lt_Some in Hd1.
        destruct Hwf as (_ & Hl & _), Hwf1 as (_ & Hl1 & _). lia. }
    exists d0. split; [done|]. rewrite (Ht1 j d0 Hd0) in Hd1.
    injection Hd1 as <-. destruct (decide (file d0 = Some f)); auto. }
  destruct (IH (S i) s1)
    as (s' & tr1 & Hl & Hp' & Hio' & Hclean' & Hwr' & Honly' & Ht' & Hun');
    [done|done|lia| | |].
  { intros (j & dj & j' & dj' & fo & Hdj & Hdirtyj & Hfj & Hdj' & Hfj' & Hpj').
    apply Hnb.
    destruct (Hback j dj Hdj) as (d0 & Hd0 & [[-> _]| ->]); [|done].
    destruct (Hback j' dj' Hdj') as (d0' & Hd0' & [[-> _]| ->]); [|done].
    by exists j, d0, j', d0', fo. }
  { intros j dj Hj Hdj.
    destruct (Hback j dj Hdj) as (d0 & Hd0 & [[-> Hne]| ->]); [|done].
    destruct (decide (j = i)) as [->|]; [congruence|].
    apply (Hclean j d0); [lia|done]. }
  exists s', (flush_writes (numBufs s) 0 f (bufDescTable s) (bufPool s) ++ tr1).
  split_and!; try done.
  - congruence.
  - by rewrite Hio', Hio1, app_assoc.
  - intros j dj fj pg Hdj Hdirtyj Hfj Hpg. apply elem_of_app.
    destruct (decide (fj = f)) as [->|Hne].
    + left. apply flush_writes_elem with j dj; try done; [lia|].
      simpl. by eapply wf_desc_lt.
    + right. apply (Hwr' j dj fj pg); try done; [|by rewrite Hp1].
      rewrite (Ht1 j dj Hdj). by rewrite decide_False by congruence.
  - intros e He. apply elem_of_app in He as [He|He]; [|by apply Honly'].
    exists f. by eapply flush_writes_only.
  - intros j dj Hdj. pose proof (Ht1 j dj Hdj) as H1.
    destruct (decide (file dj = Some f)).
    + destruct (Ht' j _ H1) as [->| ->]; by right.
    + exact (Ht' j _ H1).
  - intros j dj Hdj Hnd. pose proof (Ht1 j dj Hdj) as H1.
    rewrite decide_False in H1.
    2:{ intros Hfj. apply (Hnd i d Hd Hdirty). congruence. }
    apply Hun'; [done|]. intros j' dj' Hdj' Hdirty'.
    destruct (Hback j' dj' Hdj') as (d0 & Hd0 & [[-> _]| ->]); [|done].
    by apply (Hnd j' d0).
Qed.

Lemma delete_loop_blocked n i s :
  wf s → Inv s → i + n = numBufs s → flush_blocked s →
  (∀ j d, j < i → bufDescTable s !! j = Some d → dirty d = false) →
  ∃ s', BufMgr_delete_loop n i s = (s', Throw PagePinnedException).
Proof.
  revert i s. induction n as [|n IH]; intros i s Hwf HI Hn Hb Hclean.
  { destruct Hb as (j & dj & _ & _ & _ & Hdj & Hdirtyj & _).
    rewrite (Hclean j dj) in Hdirtyj; [done| |done].
    apply (wf_desc_lt s j dj Hwf) in Hdj. lia. }
  destruct (wf_desc s i Hwf) as [d Hd]; [lia|].
  destruct (dirty d) eqn:Hdirty.
  2:{ rewrite (delete_step_clean n i s d) by done.
      apply IH; [done|done|lia|done|].
      intros j dj Hj Hdj. destruct (decide (j = i)) as [->|].
      - congruence.
      - apply (Hclean j dj); [lia|done]. }
  destruct (Inv_dirty s i d Hwf HI Hd Hdirty) as (Hv & f & Hf).
  rewrite (delete_step_dirty n i s d f) by done.
  destruct (decide (Exists (λ d, file d = Some f ∧ pinCnt d ≠ 0)
                      (bufDescTable s))) as [Hex|Hno].
  { apply Exists_exists in Hex as (d0 & Hin & Hf0 & Hp0).
    apply list_elem_of_lookup in Hin as [j0 Hj0].
    rewrite flushFile_unfold.
    destruct (flushFile_loop_pinned (numBufs s) 0 f s Hwf HI)
      as (s1 & m & dm & Hl & _); [done| |].
    { exists j0, d0. split_and!; [lia|done..]. }
    rewrite Hl. by exists s1. }
  destruct (flushFile_ok s f Hwf HI)
    as (s1 & Hfl & Hwf1 & HI1 & Hn1 & Hp1 & Ht1 & Hio1).
  { intros j dj Hdj Hfj. destruct (decide (pinCnt dj = 0)); [done|].
    exfalso. apply Hno, Exists_exists. exists dj. split; [|done].
    apply list_elem_of_lookup. by exists j. }
  rewrite Hfl. apply IH; [done|done|lia| |].
  - destruct Hb as (j & dj & j' & dj' & fo & Hdj & Hdirtyj & Hfj & Hdj' & Hfj' & Hpj').
    assert (fo ≠ Some f) as Hne.
    { intros ->. apply Hno, Exists_exists. exists dj'. split; [|done].
      apply list_elem_of_lookup. by exists j'. }
    exists j, dj, j', dj', fo. split_and!; try done.
    + rewrite (Ht1 j dj Hdj). by rewrite decide_False by congruence.
    + rewrite (Ht1 j' dj' Hdj'). by rewrite decide_False by congruence.
  - intros j dj Hj Hdj.
    destruct (bufDescTable s !! j) as [d0|] eqn:Hd0.
    2:{ apply lookup_ge_None in Hd0. apply lookup_lt_Some in Hdj.
        destruct Hwf as (_ & Hl & _), Hwf1 as (_ & Hl1 & _). lia. }
    rewrite (Ht1 j d0 Hd0) in Hdj. injection Hdj as <-.
    destruct (decide (file d0 = Some f)); [done|].
    destruct (decide (j = i)) as [->|]; [congruence|].
    apply (Hclean j d0); [lia|done].
Qed.
End destructor.

(** X12. Shutdown loses no data.  When no dirty frame belongs to a file
    that still has a pinned frame, the destructor's loop returns, and by
    then the page of every dirty frame has been written through its file,
    exactly as the pool holds it; the file calls it makes are writes only;
    no frame is dirty afterwards; frames are emptied or left as they were,
    and the frames of a file without any dirty frame are left as they
    were. *)
Theorem BufMgr_delete_writes_dirty s :
  wf s → Inv s → ¬ flush_blocked s →
  ∃ s' tr, BufMgr_delete s = (s', Ok tt) ∧
    bufPool s' = bufPool s ∧ io s' = io s ++ tr ∧
    (∀ j d, bufDescTable s' !! j = Some d → dirty d = false) ∧
    (∀ j d f pg, bufDescTable s !! j = Some d → dirty d = true →
       file d = Some f → bufPool s !! j = Some pg → EvWrite f pg ∈ tr) ∧
    (∀ e, e ∈ tr → ∃ f pg, e = EvWrite f pg) ∧
    (∀ j d, bufDescTable s !! j = Some d →
       bufDescTable s' !! j = Some d ∨ bufDescTable s' !! j = Some (Clear d)) ∧
    (∀ j d, bufDescTable s !! j = Some d →
       (∀ j' d', bufDescTable s !! j' = Some d' → dirty d' = true →
                 file d' ≠ file d) →
       bufDescTable s' !! j = Some d).
Proof.
  intros Hwf HI Hnb.
  destruct (delete_loop_ok (numBufs s) 0 s Hwf HI) as (s' & tr & Hl & H);
    [done|done|intros; lia|].
  by exists s', tr.
Qed.

Lemma BufMgr_delete_writes_dirty_witness :
  ∃ s' tr, BufMgr_delete one_dirty = (s', Ok tt) ∧
    io s' = io one_dirty ++ tr ∧ EvWrite 1 (mkPage 1 [11]) ∈ tr.
Proof.
  destruct (BufMgr_delete_writes_dirty one_dirty)
    as (s' & tr & Hr & _ & Hio & _ & Hw & _); [by_eval|by_eval| |].
  - intros (j & d & j' & d' & fo & Hd & Hdirty & Hf & Hd' & Hf' & Hp').
    destruct j' as [|j']; vm_compute in Hd'; [|done].
    injection Hd' as <-. by apply Hp'.
  - exists s', tr. split_and!; [done|done|].
    apply (Hw 0 (mkBufDesc 0 true true false 0 (Some 1) (Some 1)));
      by vm_compute.
Defined.

(** X13. Shutdown with a pinned page.  When some dirty frame belongs to a
    file that still has a pinned frame, the destructor's loop does not
    complete: a [flushFile] call in it throws [PagePinnedException]. *)
Theorem BufMgr_delete_pinned_throws s :
  wf s → Inv s → flush_blocked s →
  ∃ s', BufMgr_delete s = (s', Throw PagePinnedException).
Proof.
  intros Hwf HI Hb.
  destruct (delete_loop_blocked (numBufs s) 0 s Hwf HI) as (s' & Hl);
    [done|done|intros; lia|].
  by exists s'.
Qed.

Lemma BufMgr_delete_pinned_throws_witness :
  ∃ s', BufMgr_delete (run (readPage 1 1) one_dirty) =
        (s', Throw PagePinnedException).
Proof.
  apply BufMgr_delete_pinned_throws; [by_eval|by_eval|].
  exists 0, (mkBufDesc 0 true true true 1 (Some 1) (Some 1)),
         0, (mkBufDesc 0 true true true 1 (Some 1) (Some 1)), (Some 1).
  by vm_compute.
Defined.

Section round_trip.
Implicit Types (s : State) (d : BufDesc) (i j c : nat).

(** The descriptor the sweep finds at a frame is the one the frame had
    at the start of the call, up to the reference bit. *)
Lemma iter_lookup_orig k s c dk :
  wf s → bufDescTable (Nat.iter k skip_step s) !! c = Some dk →
  ∃ d0, bufDescTable s !! c = Some d0 ∧ valid d0 = valid dk ∧
        dirty d0 = dirty dk ∧ file d0 = file dk ∧ pageNo d0 = pageNo dk ∧
        pinCnt d0 = pinCnt dk.
Proof.
  intros Hwf Hdk. destruct (iter_refs_cleared k s) as [Hl Hrc].
  destruct (bufDescTable s !! c) as [d0|] eqn:Hd0.
  2:{ apply lookup_ge_None in Hd0. apply lookup_lt_Some in Hdk. lia. }
  exists d0. split; [done|].
  destruct (Hrc c d0 Hd0) as [He|He]; rewrite He in Hdk;
    by injection Hdk as <-.
Qed.

(** [allocBuf] writes to the file only the page of a frame the index
    knows, under that frame's identity. *)
Lemma allocBuf_disk_other s s' r k :
  wf s → Inv s → pages_numbered s → allocBuf s = (s', r) →
  hashTable s !! k = None → disk s' !! k = disk s !! k.
Proof.
  intros Hwf HI Hpn Ha Hk.
  destruct (allocBuf_spec s Hwf HI)
    as [(n & dk & s1 & Hdk & _ & Ha' & _ & _ & _ & _ & Hrest)|(n & _ & Ha')];
    cbv zeta in *; rewrite Ha' in Ha; injection Ha as <- <-.
  - destruct (iter_lookup_orig n s _ dk Hwf Hdk)
      as (d0 & Hd0 & Hv0 & _ & _ & Hp0 & _).
    destruct (valid dk) eqn:Hv.
    + destruct Hrest as (f & p & _ & Hp & Hh & _ & Hrest).
      destruct (dirty dk).
      * destruct Hrest as (pg & Hpg & -> & _).
        rewrite (Hpn _ d0 p pg Hd0 Hv0) by congruence.
        rewrite lookup_insert_ne; [done|]. intros <-. congruence.
      * by destruct Hrest as (-> & _).
    + by destruct Hrest as (_ & -> & _).
  - destruct (iter_fields n s Hwf) as (_ & _ & _ & _ & Hdisk & _).
    simpl. by rewrite Hdisk.
Qed.

(** The page of a dirty victim is on the file, under the victim's
    identity, when [allocBuf] returns, and the identity has left the
    index. *)
Lemma allocBuf_victim_on_disk s s' c d f p pg :
  wf s → Inv s → pages_numbered s → allocBuf s = (s', Ok c) →
  bufDescTable s !! c = Some d → valid d = true → dirty d = true →
  file d = Some f → pageNo d = Some p → bufPool s !! c = Some pg →
  disk s' !! (f, p) = Some pg ∧ hashTable s' !! (f, p) = None.
Proof.
  intros Hwf HI Hpn Ha Hd Hv Hdirty Hf Hp Hpg.
  destruct (allocBuf_spec s Hwf HI)
    as [(n & dk & s1 & Hdk & _ & Ha' & _ & _ & _ & _ & Hrest)|(n & _ & Ha')];
    cbv zeta in *; rewrite Ha' in Ha; [|done].
  injection Ha as <- <-.
  destruct (iter_lookup_orig n s _ dk Hwf Hdk)
    as (d0 & Hd0 & Hv0 & Hdirty0 & Hf0 & Hp0 & _).
  assert (d0 = d) as -> by congruence.
  rewrite <- Hv0, <- Hdirty0, Hv, Hdirty in Hrest.
  destruct Hrest as (f' & p' & Hf' & Hp' & _ & -> & pg' & Hpg' & -> & _).
  assert (f' = f ∧ p' = p ∧ pg' = pg) as (-> & -> & ->)
    by (split_and!; congruence).
  rewrite (Hpn _ d p pg Hd Hv Hp Hpg).
  split; [apply lookup_insert_eq|apply lookup_delete_eq].
Qed.

Lemma allocBuf_pages_numbered s s' r :
  wf s → Inv s → pages_numbered s → allocBuf s = (s', r) →
  pages_numbered s'.
Proof.
  intros Hwf HI Hpn Ha i d p pg Hd Hv Hp Hpg.
  destruct (allocBuf_post s s' r Hwf HI Ha) as (_ & _ & _ & Hpool & _).
  rewrite Hpool in Hpg.
  destruct (allocBuf_spec s Hwf HI)
    as [(n & dk & s1 & Hdk & _ & Ha' & _ & _ & _ & Ht & _)|(n & _ & Ha')];
    cbv zeta in *; rewrite Ha' in Ha; injection Ha as <- <-.
  - rewrite Ht in Hd.
    destruct (decide (pos (Nat.iter n skip_step s) 1 = i)) as [<-|Hne].
    + rewrite list_lookup_insert_eq in Hd by (by eapply lookup_lt_Some).
      by injection Hd as <-.
    + rewrite list_lookup_insert_ne in Hd by done.
      destruct (iter_lookup_orig n s i d Hwf Hd)
        as (d0 & Hd0 & Hv0 & _ & _ & Hp0 & _).
      apply (Hpn i d0 p pg); congruence.
  - destruct (iter_lookup_orig n s i d Hwf Hd)
      as (d0 & Hd0 & Hv0 & _ & _ & Hp0 & _).
    apply (Hpn i d0 p pg); congruence.
Qed.
End round_trip.

(** X14. An evicted dirty page comes back.  Let every page in the pool
    carry the page number of its frame.  When [allocBuf] evicts a dirty
    frame, the frame's page is on the file under the frame's identity and
    the identity has left the index; fetching that page again right away
    succeeds, is a miss that reads the file, and puts the same page
    content back into the pool. *)
Theorem evicted_page_refetched s s1 c d f p pg :
  wf s → Inv s → pages_numbered s →
  allocBuf s = (s1, Ok c) →
  bufDescTable s !! c = Some d → valid d = true → dirty d = true →
  file d = Some f → pageNo d = Some p → bufPool s !! c = Some pg →
  disk s1 !! (f, p) = Some pg ∧ hashTable s1 !! (f, p) = None ∧
  ∃ s2 c2, readPage f p s1 = (s2, Ok c2) ∧ bufPool s2 !! c2 = Some pg ∧
    hashTable s2 !! (f, p) = Some c2 ∧
    ∃ tr, io s2 = io s1 ++ tr ++ [EvRead f p].
Proof.
  intros Hwf HI Hpn Ha Hd Hv Hdirty Hf Hp Hpg.
  destruct (allocBuf_victim_on_disk s s1 c d f p pg) as (Hdisk & Hh);
    try done.
  split; [done|]. split; [done|].
  destruct (allocBuf_post s s1 _ Hwf HI Ha)
    as (Hwf1 & HI1 & _ & _ & _ & _ & _ & dc & Hdc & Hcl).
  pose proof (allocBuf_pages_numbered s s1 _ Hwf HI Hpn Ha) as Hpn1.
  destruct (allocBuf_usable_ok s1 Hwf1 HI1)
    as (s1' & c2 & dc2 & Ha2 & Hc2 & _ & _ & Hdc2 & _).
  { exists c, dc. split; [done|]. by rewrite Hcl. }
  pose proof (allocBuf_disk_other s1 s1' _ (f, p) Hwf1 HI1 Hpn1 Ha2 Hh) as Hd2.
  rewrite Hdisk in Hd2.
  destruct (allocBuf_post s1 s1' _ Hwf1 HI1 Ha2)
    as (Hwf2 & _ & _ & _ & Hsub & _).
  assert (hashTable s1' !! (f, p) = None) as Hh2
    by (by eapply lookup_weaken_None).
  exists (set_desc c2 (Set_ (Clear dc2) f p)
            (set_hashTable (<[(f, p) := c2]> (hashTable s1'))
               (set_bufPool (<[c2 := pg]> (bufPool s1'))
                  (log (EvRead f p) s1')))), c2.
  split; [by eapply readPage_miss_ok|]. simpl. split_and!.
  - apply list_lookup_insert_eq.
    eapply lookup_lt_is_Some_1, wf_page; [done|].
    by eapply wf_desc_lt.
  - apply lookup_insert_eq.
  - destruct (allocBuf_io s1 s1' _ Hwf1 HI1 Ha2) as [->|(fv & pgv & ->)].
    + by exists [].
    + exists [EvWrite fv pgv]. by rewrite <- !app_assoc.
Qed.

Lemma evicted_page_refetched_witness :
  ∃ s2 c2, readPage 1 1 (allocBuf one_dirty).1 = (s2, Ok c2) ∧
           bufPool s2 !! c2 = Some (mkPage 1 [11]).
Proof.
  destruct (evicted_page_refetched one_dirty (allocBuf one_dirty).1 0
              (mkBufDesc 0 true true false 0 (Some 1) (Some 1)) 1 1
              (mkPage 1 [11]))
    as (_ & _ & s2 & c2 & Hr & Hp & _);
    [by_eval|by_eval| |by vm_compute..|].
  - intros [|i] d p pg Hd Hv Hp Hpg; vm_compute in Hd, Hpg; [|done].
    injection Hd as <-. injection Hpg as <-. simpl in Hp. by injection Hp as <-.
  - by exists s2, c2.
Defined.

Section dump.
Implicit Types (s : State) (d : BufDesc) (i j n : nat).

(** The loop of [printSelf] counts the valid frames among frames [i],
    ..., [i + n - 1] and changes nothing. *)
Lemma printSelf_loop_count n i acc s :
  i + n ≤ length (bufDescTable s) →
  printSelf_loop n i acc s =
  (s, Ok (acc + length (filter (λ d, valid d = true)
                          (take n (drop i (bufDescTable s)))))).
Proof.
  revert i acc. induction n as [|n IH]; intros i acc Hn; simpl.
  { unfold ret. do 2 f_equal. lia. }
  destruct (lookup_lt_is_Some_2 (bufDescTable s) i) as [d Hd]; [lia|].
  unfold bind, desc_at. rewrite Hd, IH by lia.
  rewrite (drop_S _ _ _ Hd), firstn_cons. do 2 f_equal.
  destruct (valid d) eqn:Hv.
  - rewrite filter_cons_True by done. simpl. lia.
  - rewrite filter_cons_False; [done|]. by rewrite Hv.
Qed.

Lemma valid_count_insert t i d :
  t !! i = Some d → valid d = true →
  length (filter (λ d, valid d = true) t) =
  S (length (filter (λ d, valid d = true) (<[i := Clear d]> t))).
Proof.
  intros Hd Hv. rewrite insert_take_drop by (by eapply lookup_lt_Some).
  rewrite <- (take_drop_middle t i d Hd) at 1.
  rewrite !filter_app, !length_app.
  rewrite filter_cons_True by done.
  rewrite filter_cons_False by done. simpl. lia.
Qed.

(** Under the invariant the index has one entry per valid frame. *)
Lemma index_size_valid_count s :
  wf s → Inv s →
  size (hashTable s) =
  length (filter (λ d, valid d = true) (bufDescTable s)).
Proof.
  remember (length (filter (λ d, valid d = true) (bufDescTable s))) as k
    eqn:Hk.
  revert s Hk. induction k as [|k IH]; intros s Hk Hwf HI.
  - apply map_size_empty_iff, map_empty. intros [f p].
    destruct (hashTable s !! (f, p)) as [j|] eqn:Hh; [|done].
    destruct (Inv_sound s f p j HI Hh) as (d & Hd & Hv & _).
    assert (d ∈ filter (λ d, valid d = true) (bufDescTable s)) as Hin.
    { apply list_elem_of_filter. split; [done|].
      apply list_elem_of_lookup. by exists j. }
    symmetry in Hk. apply length_zero_iff_nil in Hk. rewrite Hk in Hin.
    by apply elem_of_nil in Hin.
  - destruct (filter (λ d, valid d = true) (bufDescTable s))
      as [|x l] eqn:Hfil; [done|].
    assert (x ∈ filter (λ d, valid d = true) (bufDescTable s)) as Hin
      by (rewrite Hfil; apply elem_of_cons; by left).
    apply list_elem_of_filter in Hin as [Hv Hin].
    apply list_elem_of_lookup in Hin as [i Hi].
    destruct (Inv_complete s i x Hwf HI Hi Hv) as (f & p & Hf & Hp & Hh).
    pose proof (valid_count_insert _ i x Hi Hv) as Hcount.
    rewrite Hfil in Hcount. simpl in Hcount, Hk.
    specialize (IH (set_desc i (Clear x)
                      (set_hashTable (delete (f, p) (hashTable s)) s))).
    simpl in IH.
    pose proof (map_size_ne_0_lookup_2 (hashTable s) (f, p)
                  ltac:(by rewrite Hh)) as Hne.
    rewrite map_size_delete, Hh in IH. simpl in IH.
    enough (Init.Nat.pred (size (hashTable s)) = k) by lia.
    apply IH.
    + lia.
    + eapply wf_set_desc; [|exact Hi|done]. by apply wf_set_hashTable.
    + by apply Inv_evict.
Qed.
End dump.

(** X15. The dump's total.  [printSelf] changes nothing, and the number it
    reports as the total of valid frames is, in a well-formed state that
    satisfies the invariant, the number of entries of the index; it never
    exceeds the size of the pool. *)
Theorem printSelf_total s :
  wf s → Inv s →
  printSelf s = (s, Ok (size (hashTable s))) ∧
  size (hashTable s) ≤ numBufs s.
Proof.
  intros Hwf HI. pose proof Hwf as (_ & Hl & _).
  rewrite (index_size_valid_count s Hwf HI). split.
  - unfold printSelf, bind, get_numBufs.
    rewrite printSelf_loop_count by lia.
    rewrite drop_0, <- Hl, firstn_all. done.
  - rewrite <- Hl. apply length_filter.
Qed.

Lemma printSelf_total_witness :
  printSelf second_chance_pool = (second_chance_pool, Ok 2).
Proof.
  destruct (printSelf_total second_chance_pool) as (H & _);
    [by_eval|by_eval|].
  rewrite H. by vm_compute.
Defined.

Section durable.
Implicit Types (s : State) (d : BufDesc) (i j n : nat).

Lemma pages_numbered_flush_slot s i d f p pg :
  pages_numbered s → bufDescTable s !! i = Some d →
  pages_numbered (flush_slot i d f p pg s).
Proof.
  intros Hpn Hd j dj pj pgj Hdj Hv Hp Hpg.
  assert (bufPool (flush_slot i d f p pg s) = bufPool s) as Hpool
    by (unfold flush_slot; by destruct (dirty d)).
  rewrite Hpool in Hpg.
  destruct (decide (j = i)) as [->|Hne].
  - unfold flush_slot in Hdj; simpl in Hdj.
    rewrite list_lookup_insert_eq in Hdj
      by (destruct (dirty d); by eapply lookup_lt_Some).
    by injection Hdj as <-.
  - apply (Hpn j dj pj pgj); try done.
    unfold flush_slot in Hdj; simpl in Hdj.
    rewrite list_lookup_insert_ne in Hdj by done. by destruct (dirty d).
Qed.

(** What a flush of [f] that returns leaves on the file: the page of
    every dirty frame of [f], under the frame's identity, and every other
    page as it was. *)
Lemma flushFile_loop_disk n i f s s' :
  wf s → Inv s → pages_numbered s → i + n = numBufs s →
  flushFile_loop n i f s = (s', Ok tt) →
  (∀ j d p pg, i ≤ j → bufDescTable s !! j = Some d → file d = Some f →
     dirty d = true → pageNo d = Some p → bufPool s !! j = Some pg →
     disk s' !! (f, p) = Some pg) ∧
  (∀ k, (∀ j d p, i ≤ j → bufDescTable s !! j = Some d → file d = Some f →
           dirty d = true → pageNo d = Some p → k ≠ (f, p)) →
        disk s' !! k = disk s !! k).
Proof.
  revert i s. induction n as [|n IH]; intros i s Hwf HI Hpn Hn Hl.
  { simpl in Hl. injection Hl as <-. split; [|done].
    intros j d p pg Hj Hd. apply (wf_desc_lt s j d Hwf) in Hd. lia. }
  destruct (wf_desc s i Hwf) as [d Hd]; [lia|].
  destruct (decide (file d = Some f)) as [Hf|Hf].
  2:{ rewrite (flush_step_other n i f s d) in Hl by done.
      destruct (IH (S i) s Hwf HI Hpn ltac:(lia) Hl) as [Ha Hb]. split.
      - intros j dj p pg Hj Hdj Hfj. apply (Ha j dj p pg); [|done..].
        destruct (decide (j = i)) as [->|]; [congruence|lia].
      - intros k Hk. apply Hb. intros j dj p Hj. apply Hk. lia. }
  destruct (Inv_owned s i d f Hwf HI Hd Hf) as (Hv & p & Hp & Hh).
  destruct (wf_page s i Hwf) as [pg Hpg]; [lia|].
  destruct (decide (pinCnt d = 0)) as [Hz|Hnz].
  2:{ by rewrite (flush_step_pinned n i f s d) in Hl. }
  rewrite (flush_step_ok n i f s d p pg i) in Hl by done.
  pose proof (Hpn i d p pg Hd Hv Hp Hpg) as Hnum.
  set (s2 := flush_slot i d f p pg s) in *.
  assert (∀ j, j ≠ i → bufDescTable s2 !! j = bufDescTable s !! j) as Ht2.
  { intros j Hj. unfold s2, flush_slot; simpl.
    rewrite list_lookup_insert_ne by done. by destruct (dirty d). }
  assert (numBufs s2 = numBufs s ∧ bufPool s2 = bufPool s) as (Hn2 & Hp2)
    by (unfold s2, flush_slot; by destruct (dirty d)).
  assert (disk s2 = if dirty d then <[(f, p) := pg]> (disk s) else disk s)
    as Hdisk2.
  { unfold s2, flush_slot. destruct (dirty d); simpl; [|done].
    by rewrite Hnum. }
  destruct (IH (S i) s2) as [Ha Hb]; try done.
  { by apply wf_flush_slot. }
  { by apply Inv_flush_slot. }
  { by apply pages_numbered_flush_slot. }
  { rewrite Hn2. lia. }
  split.
  - intros j dj pj pgj Hj Hdj Hfj Hdirty Hpj Hpgj.
    destruct (decide (j = i)) as [->|Hne].
    + assert (dj = d ∧ pj = p ∧ pgj = pg) as (-> & -> & ->)
        by (split_and!; congruence).
      rewrite Hb.
      * rewrite Hdisk2, Hdirty. apply lookup_insert_eq.
      * intros j' d' p' Hj' Hd' Hf' _ Hp' [= ->].
        rewrite Ht2 in Hd' by lia.
        destruct (Inv_owned s j' d' f Hwf HI Hd' Hf')
          as (_ & p2 & Hp2' & Hh').
        assert (j' = i) by congruence. lia.
    + apply (Ha j dj pj pgj); [lia| |done..| ].
      * rewrite Ht2; done.
      * by rewrite Hp2.
  - intros k Hk. rewrite Hb.
    + rewrite Hdisk2. destruct (dirty d) eqn:Hdirty; [|done].
      apply lookup_insert_ne. intros <-.
      by apply (Hk i d p ltac:(lia) Hd Hf Hdirty Hp).
    + intros j dj pj Hj Hdj. rewrite Ht2 in Hdj by lia.
      apply (Hk j dj pj); [lia|done].
Qed.
End durable.

(** X16. A flushed page is durable.  Let every page in the pool carry the
    page number of its frame.  When [flushFile f] returns, the page of
    every dirty frame of [f] is on the file under the frame's identity,
    the pages of other files are as they were, and fetching a flushed page
    again succeeds, reads the file, and brings the same content back into
    the pool. *)
Theorem flushed_page_refetched s s1 f i d p pg :
  wf s → Inv s → pages_numbered s →
  flushFile f s = (s1, Ok tt) →
  bufDescTable s !! i = Some d → file d = Some f → dirty d = true →
  pageNo d = Some p → bufPool s !! i = Some pg →
  disk s1 !! (f, p) = Some pg ∧
  (∀ f' p', f' ≠ f → disk s1 !! (f', p') = disk s !! (f', p')) ∧
  hashTable s1 !! (f, p) = None ∧
  ∃ s2 c, readPage f p s1 = (s2, Ok c) ∧ bufPool s2 !! c = Some pg ∧
    hashTable s2 !! (f, p) = Some c ∧
    ∃ tr, io s2 = io s1 ++ tr ++ [EvRead f p].
Proof.
  intros Hwf HI Hpn Hfl Hd Hf Hdirty Hp Hpg.
  pose proof Hfl as Hl. rewrite flushFile_unfold in Hl.
  destruct (flushFile_loop_disk _ 0 f s s1 Hwf HI Hpn ltac:(done) Hl)
    as [Ha Hb].
  pose proof (Ha i d p pg ltac:(lia) Hd Hf Hdirty Hp Hpg) as Hdisk.
  assert (∀ j dj, bufDescTable s !! j = Some dj → file dj = Some f →
                  pinCnt dj = 0) as Hpin.
  { intros j dj Hdj Hfj. destruct (decide (pinCnt dj = 0)) as [|Hnz]; [done|].
    destruct (flushFile_loop_pinned (numBufs s) 0 f s Hwf HI)
      as (sx & m & dm & Hx & _); [done| |congruence].
    exists j, dj. split_and!; [lia|done..]. }
  destruct (flushFile_loop_ok (numBufs s) 0 f s Hwf HI)
    as (s1' & Hl' & Hwf1 & HI1 & Hn1 & Hp1 & _ & Ht1 & Hh1 & _);
    [done|by intros j dj _; apply Hpin|].
  assert (s1' = s1) as -> by congruence.
  destruct (Inv_owned s i d f Hwf HI Hd Hf) as (Hv & p0 & Hp0 & Hh).
  assert (p0 = p) as -> by congruence.
  assert (hashTable s1 !! (f, p) = None) as Hnone.
  { rewrite Hh1, Hh. by rewrite decide_True by (split; [lia|done]). }
  split_and!; [done| |done|].
  { intros f' p' Hne. apply Hb. intros j dj pj _ _ _ _ _ [= -> _]. done. }
  pose proof (Ht1 i d Hd) as Hdi.
  rewrite decide_True in Hdi by (split; [lia|done]).
  destruct (allocBuf_usable_ok s1 Hwf1 HI1)
    as (s1' & c & dc & Ha1 & Hc & _ & _ & Hdc & _).
  { by exists i, (Clear d). }
  assert (pages_numbered s1) as Hpn1.
  { intros j dj pj pgj Hdj Hvj Hpj Hpgj. rewrite Hp1 in Hpgj.
    destruct (wf_desc s j Hwf) as [d0 Hd0].
    { apply lookup_lt_Some in Hpgj. destruct Hwf as (_ & _ & Hlp & _). lia. }
    rewrite (Ht1 j d0 Hd0) in Hdj. injection Hdj as <-.
    destruct (decide (0 ≤ j ∧ file d0 = Some f)); [done|].
    by apply (Hpn j d0 pj pgj). }
  pose proof (allocBuf_disk_other s1 s1' _ (f, p) Hwf1 HI1 Hpn1 Ha1 Hnone)
    as Hd2.
  rewrite Hdisk in Hd2.
  destruct (allocBuf_post s1 s1' _ Hwf1 HI1 Ha1)
    as (Hwf2 & _ & _ & _ & Hsub & _).
  assert (hashTable s1' !! (f, p) = None) as Hh2
    by (by eapply lookup_weaken_None).
  exists (set_desc c (Set_ (Clear dc) f p)
            (set_hashTable (<[(f, p) := c]> (hashTable s1'))
               (set_bufPool (<[c := pg]> (bufPool s1'))
                  (log (EvRead f p) s1')))), c.
  split; [by eapply readPage_miss_ok|]. simpl. split_and!.
  - apply list_lookup_insert_eq.
    eapply lookup_lt_is_Some_1, wf_page; [done|].
    by eapply wf_desc_lt.
  - apply lookup_insert_eq.
  - destruct (allocBuf_io s1 s1' _ Hwf1 HI1 Ha1) as [->|(fv & pgv & ->)].
    + by exists [].
    + exists [EvWrite fv pgv]. by rewrite <- !app_assoc.
Qed.

Lemma flushed_page_refetched_witness :
  ∃ s2 c, readPage 1 1 (flushFile 1 one_dirty).1 = (s2, Ok c) ∧
          bufPool s2 !! c = Some (mkPage 1 [11]).
Proof.
  destruct (flushed_page_refetched one_dirty (flushFile 1 one_dirty).1 1 0
              (mkBufDesc 0 true true false 0 (Some 1) (Some 1)) 1
              (mkPage 1 [11]))
    as (_ & _ & _ & s2 & c & Hr & Hp & _);
    [by_eval|by_eval| |by vm_compute..|].
  - intros [|i] d p pg Hd Hv Hp Hpg; vm_compute in Hd, Hpg; [|done].
    injection Hd as <-. injection Hpg as <-. simpl in Hp. by injection Hp as <-.
  - by exists s2, c.
Defined.
